(** * makina404: a subdomain-takeover scanner

    Shallow embedding of [makina404.py].  The script enumerates the
    subdomains of each root domain with the [rapiddns] tool, probes each
    of them over HTTPS and then HTTP, and for every URL that answers 404
    takes a screenshot through a browser engine and posts it to a Discord
    webhook.

    The embedding follows the source function by function.  Every call
    that leaves the process (subprocess, HTTP client, browser engine,
    webhook) is answered by a stub supplied by the caller, the way a test
    double would answer it, and every such call, every semaphore
    operation and every line printed is recorded as an [event].  Entering
    the two context managers of [main] is the one call that is seen by
    its outcome only.  *)

From Stdlib Require Import List String Ascii Bool Arith ZArith Lia.
Import ListNotations.
Open Scope string_scope.
Open Scope list_scope.
Open Scope nat_scope.

Set Implicit Arguments.

(** ** Python strings *)

Module Py.

(** [str.isspace] on the code points below 256. *)
Definition isspace (c : ascii) : bool :=
  let n := nat_of_ascii c in
  ((9 <=? n) && (n <=? 13)) || ((28 <=? n) && (n <=? 32))
  || (n =? 133) || (n =? 160).

Fixpoint lstrip (s : string) : string :=
  match s with
  | String c s' => if isspace c then lstrip s' else s
  | EmptyString => EmptyString
  end.

Fixpoint rstrip (s : string) : string :=
  match s with
  | String c s' =>
      match rstrip s' with
      | EmptyString => if isspace c then EmptyString else String c EmptyString
      | r => String c r
      end
  | EmptyString => EmptyString
  end.

(** [s.strip()] *)
Definition strip (s : string) : string := rstrip (lstrip s).

(** Truth value of a string: [if s:] *)
Definition truthy (s : string) : bool :=
  match s with EmptyString => false | _ => true end.

(** [s.startswith(p)] *)
Definition startswith (s p : string) : bool := String.prefix p s.

Fixpoint rev_onto (s acc : string) : string :=
  match s with
  | EmptyString => acc
  | String c s' => rev_onto s' (String c acc)
  end.

Definition reversed (s : string) : string := rev_onto s EmptyString.

(** [s.endswith(p)] *)
Definition endswith (s p : string) : bool :=
  String.prefix (reversed p) (reversed s).

(** [p in s] *)
Fixpoint contains (p s : string) : bool :=
  String.prefix p s
  || match s with
     | EmptyString => false
     | String _ s' => contains p s'
     end.

(** Line boundaries of [str.splitlines] below code point 256. *)
Definition islinebreak (c : ascii) : bool :=
  let n := nat_of_ascii c in
  ((10 <=? n) && (n <=? 13)) || ((28 <=? n) && (n <=? 30)) || (n =? 133).

(** [splitlines_from cur s]: [cur] is the line being read, reversed. *)
Fixpoint splitlines_from (cur : string) (s : string) : list string :=
  match s with
  | EmptyString =>
      match cur with EmptyString => [] | _ => [reversed cur] end
  | String c s' =>
      if islinebreak c then
        match c, s' with
        | "013"%char, String "010"%char s'' =>
            reversed cur :: splitlines_from EmptyString s''
        | _, _ => reversed cur :: splitlines_from EmptyString s'
        end
      else splitlines_from (String c cur) s'
  end.

(** [s.splitlines()] *)
Definition splitlines (s : string) : list string :=
  splitlines_from EmptyString s.

(** A [set] of strings, kept as a duplicate-free list in insertion
    order.  Python leaves the iteration order of a set unspecified;
    nothing below depends on it. *)
Definition set_add (x : string) (s : list string) : list string :=
  if in_dec string_dec x s then s else s ++ [x].

Definition set_update (s : list string) (xs : list string) : list string :=
  fold_left (fun acc x => set_add x acc) xs s.

End Py.

(** ** Configuration *)

Definition RAPIDDNS_PATH : string := "rapiddns".
Definition SCREENSHOT_CONCURRENCY : nat := 5.
Definition HTTPX_CONCURRENCY : nat := 100.

(** ** Exceptions *)

(** The subclasses of [Exception] the script tells apart.  A connect
    timeout is a [TimeoutException] in httpx, a navigation timeout is a
    [PlaywrightError] whose text contains the word Timeout. *)
Inductive error : Type :=
| HTTPStatusError (status_code : nat)
| TimeoutException
| ConnectError
| NetworkError
| TooManyRedirects
| PlaywrightError (text : string)
| ClientError
| FileNotFoundError
| OtherException.

(** What can travel up the stack: an [Exception], or the [SystemExit]
    of [sys.exit], which no [except Exception] clause catches. *)
Inductive exn : Type :=
| Error (e : error)
| SystemExit (code : nat).

(** The answer of a stubbed external call. *)
Inductive outcome (A : Type) : Type :=
| Returns (a : A)
| Raises (e : error).
Arguments Raises {A} e.

Definition succeeded {A} (o : outcome A) : bool :=
  match o with Returns _ => true | Raises _ => false end.

(** ** Events *)

Definition bytes := list Byte.byte.

Inductive semaphore := browser_semaphore | httpx_semaphore.

Inductive stream := Stdout | Stderr.

(** One constructor per message the script prints, with the values the
    format string interpolates.  The lines of the banner are one
    message, and so are the two lines printed when the browser does not
    launch. *)
Inductive message : Type :=
| MsgEnumerating (domain : string)
| MsgRapiddnsError (domain text : string)
| MsgFound (n : nat) (domain : string)
| MsgNoSubdomains (domain : string)
| MsgRapiddnsNotFound
| MsgRapiddnsException (domain : string)
| MsgDiscordSent (url : string)
| MsgDiscordFailed (url : string) (status : nat) (text : string)
| MsgDiscordClientError (url : string)
| MsgDiscordUnexpected (url : string)
| MsgAttemptScreenshot (url : string)
| MsgScreenshotCaptured (url : string)
| MsgPlaywrightError (url text : string)
| MsgNoteDns (url : string)
| MsgNoteTimeout (url : string)
| MsgScreenshotUnexpected (url : string)
| MsgPotentialTakeover (url : string)
| MsgPotentialTakeoverCaught (url : string)
| MsgHttpError (url : string) (status : nat)
| MsgTimeout (url : string)
| MsgConnectionError (url : string)
| MsgTooManyRedirects (url : string)
| MsgUnexpectedCheck (url : string)
| MsgInputNotFound
| MsgNoDomains
| MsgInvalidWebhook
| MsgBanner (targets : nat) (webhook_configured : bool)
| MsgBrowserLaunched
| MsgChecking (n : nat)
| MsgNoValidSubdomains
| MsgLaunchFailed
| MsgMainUnexpected
| MsgBrowserClosed
| MsgScanComplete.

Inductive event : Type :=
| Acquire (s : semaphore)
| Release (s : semaphore)
| Print (to : stream) (m : message)
| HttpGet (url : string)                     (* client.get(url, ...) *)
| CallCapture (url : string)                 (* take_screenshot entered *)
| NewContext (ok : bool)                     (* browser.new_context(...) *)
| NewPage (ok : bool)                        (* context.new_page() *)
| Goto (url : string) (ok : bool)            (* page.goto(url, ...) *)
| Screenshot (ok : bool)                     (* page.screenshot(...) *)
| PageClose (ok : bool)                      (* page.close() *)
| ContextClose (ok : bool)                   (* context.close() *)
| CallAlert (url : string)                   (* send_to_discord entered *)
| HttpPost (webhook payload : string) (file1 : bytes) (ok : bool)
| ResponseText (ok : bool)                   (* response.text() *)
| Subprocess (command : list string) (ok : bool) (* create_subprocess_exec *)
| OpenFile (ok : bool)                       (* open(INPUT_FILE) *)
| Launch (ok : bool)                         (* p.chromium.launch() *)
| CreateTask (subdomain : string)            (* asyncio.create_task *)
| Gather (n : nat)                           (* asyncio.gather *)
| BrowserClose.                              (* browser.close() *)

(** ** The monad of a coroutine

    A computation reads and writes the local variables [S] of the
    function it belongs to, emits events, and either returns a value or
    raises.  Local variables keep the value they had when an exception
    was raised, as in Python. *)

Inductive res (A : Type) : Type :=
| Val (a : A)
| Exc (e : exn).
Arguments Exc {A} e.

Record run (S A : Type) : Type := Ran {
  result : res A;
  locals : S;
  emitted : list event
}.

Definition M (S A : Type) : Type := S -> run S A.

Definition ret {S A} (a : A) : M S A :=
  fun s => Ran (Val a) s [].

Definition bind {S A B} (m : M S A) (k : A -> M S B) : M S B :=
  fun s =>
    let r := m s in
    match result r with
    | Val a =>
        let r' := k a (locals r) in
        Ran (result r') (locals r') (emitted r ++ emitted r')
    | Exc e => Ran (Exc e) (locals r) (emitted r)
    end.

Declare Scope py_scope.
Delimit Scope py_scope with py.
Notation "x <- m ;; k" := (bind m (fun x => k))
  (at level 61, m at next level, right associativity) : py_scope.
Notation "m ;; k" := (bind m (fun _ => k))
  (at level 61, right associativity) : py_scope.
Open Scope py_scope.

Definition raise {S A} (e : exn) : M S A :=
  fun s => Ran (Exc e) s [].

Definition emit {S} (ev : event) : M S unit :=
  fun s => Ran (Val tt) s [ev].

Definition print {S} (to : stream) (m : message) : M S unit :=
  emit (Print to m).

Definition get {S} : M S S :=
  fun s => Ran (Val s) s [].

Definition put {S} (s : S) : M S unit :=
  fun _ => Ran (Val tt) s [].

(** An awaited external call: the event records whether it returned. *)
Definition external {S A} (ev : bool -> event) (o : outcome A) : M S A :=
  fun s =>
    match o with
    | Returns a => Ran (Val a) s [ev true]
    | Raises e => Ran (Exc (Error e)) s [ev false]
    end.

(** An awaited call that is seen by its outcome only: it leaves no
    event of its own. *)
Definition awaited {S A} (o : outcome A) : M S A :=
  match o with
  | Returns a => ret a
  | Raises e => raise (Error e)
  end.

(** [sys.exit(code)] *)
Definition sys_exit {S A} (code : nat) : M S A := raise (SystemExit code).

(** [try: body  except ...: handler].  [handler e] is [None] when no
    clause matches [e]; a [SystemExit] matches no clause of the script. *)
Definition try_except {S A}
    (body : M S A) (handler : error -> option (M S A)) : M S A :=
  fun s =>
    let r := body s in
    match result r with
    | Exc (Error e) =>
        match handler e with
        | Some h =>
            let r' := h (locals r) in
            Ran (result r') (locals r') (emitted r ++ emitted r')
        | None => r
        end
    | _ => r
    end.

(** [try: body  finally: cleanup].  An exception of [cleanup] replaces
    the result of [body]. *)
Definition try_finally {S A} (body : M S A) (cleanup : M S unit) : M S A :=
  fun s =>
    let r := body s in
    let r' := cleanup (locals r) in
    Ran (match result r' with
         | Val _ => result r
         | Exc e => Exc e
         end)
        (locals r') (emitted r ++ emitted r').

(** [async with sem: body].  The slot is released however [body] ends. *)
Definition async_with {S A} (sem : semaphore) (body : M S A) : M S A :=
  fun s =>
    let r := body s in
    Ran (result r) (locals r) (Acquire sem :: emitted r ++ [Release sem]).

(** A call of another function of the script, which starts with its own
    fresh local variables. *)
Definition call {S S' A} (fresh : S') (body : M S' A) : M S A :=
  fun s =>
    let r := body fresh in
    Ran (result r) s (emitted r).

(** ** send_to_discord *)

(** The answer of the webhook to one POST: the status of the response
    and what [response.text()] then gives. *)
Record post_stub : Type := {
  post : outcome nat;
  response_text : outcome string
}.

Definition dquote : string := String "034"%char EmptyString.

(** The [payload_json] field of the form. *)
Definition payload_json (subdomain_url : string) : string :=
  ("{" ++ dquote ++ "content" ++ dquote ++ ": " ++ dquote
   ++ "Potential Subdomain Takeover Detected (404): `" ++ subdomain_url
   ++ "`" ++ dquote ++ "}")%string.

Definition bytes_truthy (b : bytes) : bool :=
  match b with [] => false | _ => true end.

Definition webhook_truthy (w : option string) : bool :=
  match w with Some u => Py.truthy u | None => false end.

Definition webhook_text (w : option string) : string :=
  match w with Some u => u | None => EmptyString end.

Section Scanner.

(** The webhook, answering by the URL reported. *)
Variable aiohttp : string -> post_stub.

Definition send_to_discord {S}
    (webhook_url : option string) (subdomain_url : string)
    (screenshot_bytes : bytes) : M S unit :=
  emit (CallAlert subdomain_url) ;;
  if negb (webhook_truthy webhook_url) || negb (bytes_truthy screenshot_bytes)
  then ret tt
  else
    try_except
      (status <- external
                   (HttpPost (webhook_text webhook_url)
                             (payload_json subdomain_url) screenshot_bytes)
                   (post (aiohttp subdomain_url)) ;;
       if (200 <=? status) && (status <? 300) then
         print Stdout (MsgDiscordSent subdomain_url)
       else
         text <- external ResponseText
                          (response_text (aiohttp subdomain_url)) ;;
         print Stderr (MsgDiscordFailed subdomain_url status text))
      (fun e =>
         match e with
         | ClientError => Some (print Stderr (MsgDiscordClientError subdomain_url))
         | _ => Some (print Stderr (MsgDiscordUnexpected subdomain_url))
         end).

(** ** take_screenshot *)

(** The answers of the browser engine during one capture.
    [page_close n] answers the call of [page.close()] made after [n]
    earlier ones on the same page. *)
Record capture_stub : Type := {
  new_context : outcome unit;
  new_page : outcome unit;
  goto : outcome unit;
  screenshot : outcome bytes;
  page_close : nat -> outcome unit;
  context_close : outcome unit
}.

(** A page object: [is_closed()] turns true once a [close()] has
    returned. *)
Record page_obj : Type := {
  is_closed : bool;
  close_calls : nat
}.

(** Local variables of [take_screenshot]. *)
Record shot_locals : Type := {
  screenshot_bytes : option bytes;
  page : option page_obj
}.

Definition set_screenshot_bytes (b : option bytes) : M shot_locals unit :=
  l <- get ;; put {| screenshot_bytes := b; page := page l |}.

Definition set_page (p : option page_obj) : M shot_locals unit :=
  l <- get ;; put {| screenshot_bytes := screenshot_bytes l; page := p |}.

(** [await page.close()].  Without a page the call is an
    [AttributeError]; the script never gets there. *)
Definition close_page (b : capture_stub) : M shot_locals unit :=
  l <- get ;;
  match page l with
  | Some pg =>
      set_page (Some {| is_closed := is_closed pg;
                        close_calls := Datatypes.S (close_calls pg) |}) ;;
      external PageClose (page_close b (close_calls pg)) ;;
      set_page (Some {| is_closed := true;
                        close_calls := Datatypes.S (close_calls pg) |})
  | None => raise (Error OtherException)
  end.

Definition take_screenshot {S}
    (browser : string -> capture_stub) (url : string) : M S (option bytes) :=
  emit (CallCapture url) ;;
  call {| screenshot_bytes := None; page := None |}
    (async_with browser_semaphore
       (print Stdout (MsgAttemptScreenshot url) ;;
        set_page None ;;
        try_finally
          (try_except
             (external NewContext (new_context (browser url)) ;;
              external NewPage (new_page (browser url)) ;;
              set_page (Some {| is_closed := false; close_calls := 0 |}) ;;
              external (Goto url) (goto (browser url)) ;;
              shot <- external Screenshot (screenshot (browser url)) ;;
              set_screenshot_bytes (Some shot) ;;
              print Stdout (MsgScreenshotCaptured url) ;;
              close_page (browser url) ;;
              external ContextClose (context_close (browser url)))
             (fun e =>
                match e with
                | PlaywrightError text =>
                    Some (print Stderr (MsgPlaywrightError url text) ;;
                          if Py.contains "net::ERR_NAME_NOT_RESOLVED" text
                          then print Stdout (MsgNoteDns url)
                          else if Py.contains "Timeout" text
                          then print Stdout (MsgNoteTimeout url)
                          else ret tt)
                | _ => Some (print Stderr (MsgScreenshotUnexpected url))
                end))
          (l <- get ;;
           match page l with
           | Some pg =>
               if negb (is_closed pg) then close_page (browser url)
               else ret tt
           | None => ret tt
           end)) ;;
     l <- get ;;
     ret (screenshot_bytes l)).

(** ** check_subdomain *)

Inductive protocol := https | http.

Definition protocol_name (proto : protocol) : string :=
  match proto with https => "https" | http => "http" end.

Definition protocols : list protocol := [https; http].

(** [f"{proto}://{subdomain}"] *)
Definition url_of (proto : protocol) (subdomain : string) : string :=
  (protocol_name proto ++ "://" ++ subdomain)%string.

(** How one pass through the body of the [for] loop ends: by the
    [return] of the function, by a [continue], or by reaching the end
    of the body. *)
Inductive flow := Return | Continue | Next.

Definition screenshot_truthy (shot : option bytes) : bool :=
  match shot with Some b => bytes_truthy b | None => false end.

Definition screenshot_data (shot : option bytes) : bytes :=
  match shot with Some b => b | None => [] end.

(** The body of the loop for one protocol. *)
Definition attempt
    (subdomain : string) (client : string -> outcome nat)
    (browser : string -> capture_stub) (webhook_url : option string)
    (proto : protocol) : M unit flow :=
  let url := url_of proto subdomain in
  async_with httpx_semaphore
    (try_except
       (status_code <- external (fun _ => HttpGet url) (client url) ;;
        if status_code =? 404 then
          print Stdout (MsgPotentialTakeover url) ;;
          shot <- take_screenshot browser url ;;
          (if screenshot_truthy shot
           then send_to_discord webhook_url url (screenshot_data shot)
           else ret tt) ;;
          ret Return
        else ret Next)
       (fun e =>
          match e with
          | HTTPStatusError status_code =>
              Some (if status_code =? 404 then
                      print Stdout (MsgPotentialTakeoverCaught url) ;;
                      shot <- take_screenshot browser url ;;
                      (if screenshot_truthy shot
                       then send_to_discord webhook_url url (screenshot_data shot)
                       else ret tt) ;;
                      ret Return
                    else
                      print Stderr (MsgHttpError url status_code) ;;
                      ret Next)
          | TimeoutException =>
              Some (print Stdout (MsgTimeout url) ;; ret Next)
          | ConnectError | NetworkError =>
              Some (print Stdout (MsgConnectionError url) ;; ret Continue)
          | TooManyRedirects =>
              Some (print Stdout (MsgTooManyRedirects url) ;; ret Next)
          | _ =>
              Some (print Stderr (MsgUnexpectedCheck url) ;; ret Continue)
          end)).

(** [for proto in protos: ...].  Only [Return] leaves the loop: after
    [Continue] and after [Next] alike the next protocol is tried. *)
Fixpoint for_each_protocol
    (subdomain : string) (client : string -> outcome nat)
    (browser : string -> capture_stub) (webhook_url : option string)
    (protos : list protocol) : M unit unit :=
  match protos with
  | [] => ret tt
  | proto :: rest =>
      f <- attempt subdomain client browser webhook_url proto ;;
      match f with
      | Return => ret tt
      | Continue | Next =>
          for_each_protocol subdomain client browser webhook_url rest
      end
  end.

Definition check_subdomain
    (subdomain : string) (client : string -> outcome nat)
    (browser : string -> capture_stub) (webhook_url : option string)
    : M unit unit :=
  for_each_protocol subdomain client browser webhook_url protocols.

(** ** run_rapiddns *)

(** The enumeration tool, answering by root domain: either the
    process cannot be started (the exception raised) or it ends with
    a return code and its decoded standard output and standard
    error. *)
Variable rapiddns : string -> outcome (Z * string * string).

Definition nonempty_stripped (found : list string) : list string :=
  filter Py.truthy (map Py.strip found).

Definition run_rapiddns {S} (domain : string) : M S (list string) :=
  call ([] : list string)
    (print Stdout (MsgEnumerating domain) ;;
     returned <-
       try_except
         (proc <- external (Subprocess [RAPIDDNS_PATH; "-s"; domain])
                           (rapiddns domain) ;;
          let '(returncode, stdout, stderr) := proc in
          if negb (returncode =? 0)%Z then
            print Stderr (MsgRapiddnsError domain (Py.strip stderr)) ;;
            ret (Some [])
          else
            let output := Py.strip stdout in
            (if Py.truthy output then
               let found := Py.splitlines output in
               subdomains <- get ;;
               put (Py.set_update subdomains (nonempty_stripped found)) ;;
               print Stdout (MsgFound (List.length found) domain)
             else
               print Stdout (MsgNoSubdomains domain)) ;;
            ret None)
         (fun e =>
            match e with
            | FileNotFoundError =>
                Some (print Stderr MsgRapiddnsNotFound ;; sys_exit 1)
            | _ =>
                Some (print Stderr (MsgRapiddnsException domain) ;;
                      ret None)
            end) ;;
     match returned with
     | Some early => ret early
     | None => subdomains <- get ;; ret subdomains
     end).

(** ** main *)

(** What the process finds when it starts. *)
Record world : Type := {
  (** [with open(INPUT_FILE, 'r') as f: [... for line in f]]: the lines
      of [domains.txt], or the exception of opening or reading it *)
  input_file : outcome (list string);
  (** [DISCORD_SCANNER_WEBHOOK] *)
  DISCORD_WEBHOOK_URL : option string;
  (** [urlparse(url).scheme] *)
  urlparse_scheme : string -> string;
  (** entering [async with async_playwright() as p,
      httpx.AsyncClient(...) as client] *)
  contexts : outcome unit;
  (** [p.chromium.launch()] *)
  launch : outcome unit;
  (** [browser.close()] *)
  browser_close : outcome unit;
  (** the HTTP client, answering by URL *)
  client : string -> outcome nat;
  (** the browser engine, answering by URL *)
  browser_engine : string -> capture_stub
}.

(** Local variables of [main] that outlive a [try]. *)
Record main_locals : Type := {
  browser : bool;
  all_subdomain_check_tasks : list string
}.

Definition set_browser (b : bool) : M main_locals unit :=
  l <- get ;;
  put {| browser := b;
         all_subdomain_check_tasks := all_subdomain_check_tasks l |}.

Definition set_tasks (tasks : list string) : M main_locals unit :=
  l <- get ;;
  put {| browser := browser l; all_subdomain_check_tasks := tasks |}.

(** The validation of line 232: [true] when the candidate is skipped. *)
Definition skipped (sub : string) : bool :=
  negb (Py.truthy sub) || negb (Py.contains "." sub)
  || Py.startswith sub "." || Py.endswith sub ".".

(** [for sub in subdomains: ...] *)
Fixpoint schedule_checks (subdomains : list string) : M main_locals unit :=
  match subdomains with
  | [] => ret tt
  | sub :: rest =>
      (if skipped sub then ret tt
       else
         emit (CreateTask sub) ;;
         l <- get ;;
         set_tasks (all_subdomain_check_tasks l ++ [sub])) ;;
      schedule_checks rest
  end.

(** [for domain in target_domains: ...] *)
Fixpoint enumerate_domains (target_domains : list string)
    : M main_locals unit :=
  match target_domains with
  | [] => ret tt
  | domain :: rest =>
      subdomains <- run_rapiddns domain ;;
      (match subdomains with
       | [] => ret tt
       | _ => schedule_checks subdomains
       end) ;;
      enumerate_domains rest
  end.

(** [await asyncio.gather] over the tasks created: raises what a task
    raised. *)
Definition first_raised (w : world) (tasks : list string) : option exn :=
  List.fold_right
    (fun sub later =>
       match result (check_subdomain sub (client w) (browser_engine w)
                                     (DISCORD_WEBHOOK_URL w) tt) with
       | Exc e => Some e
       | Val _ => later
       end)
    None tasks.

Definition gather {S} (w : world) (tasks : list string) : M S unit :=
  emit (Gather (List.length tasks)) ;;
  match first_raised w tasks with
  | Some e => raise e
  | None => ret tt
  end.

(** [[line.strip() for line in f if line.strip() and not
    line.startswith('#')]] *)
Definition read_domains (lines : list string) : list string :=
  map Py.strip
    (filter (fun line => Py.truthy (Py.strip line)
                         && negb (Py.startswith line "#")) lines).

Definition webhook_invalid (w : world) : bool :=
  negb (webhook_truthy (DISCORD_WEBHOOK_URL w))
  || negb (existsb (String.eqb (urlparse_scheme w
                                  (webhook_text (DISCORD_WEBHOOK_URL w))))
                   ["http"; "https"]).

(** The part of [main] from the banner on: [target_domains] is not
    empty.  The two context managers are entered outside the [try], and
    [browser.close()] is awaited in its [finally] block: an exception
    of either leaves [main]. *)
Definition scan (w : world) (target_domains : list string)
    : M main_locals unit :=
  (if webhook_invalid w then print Stderr MsgInvalidWebhook else ret tt) ;;
  print Stdout (MsgBanner (List.length target_domains)
                          (webhook_truthy (DISCORD_WEBHOOK_URL w))) ;;
  awaited (contexts w) ;;
  set_browser false ;;
  try_finally
    (try_except
       (external Launch (launch w) ;;
        set_browser true ;;
        print Stdout MsgBrowserLaunched ;;
        set_tasks [] ;;
        enumerate_domains target_domains ;;
        l <- get ;;
        match all_subdomain_check_tasks l with
        | [] => print Stdout MsgNoValidSubdomains
        | tasks =>
            print Stdout (MsgChecking (List.length tasks)) ;;
            gather w tasks
        end)
       (fun e =>
          match e with
          | PlaywrightError _ => Some (print Stderr MsgLaunchFailed)
          | _ => Some (print Stderr MsgMainUnexpected)
          end))
    (l <- get ;;
     if browser l then
       emit BrowserClose ;;
       awaited (browser_close w) ;;
       print Stdout MsgBrowserClosed
     else ret tt) ;;
  print Stdout MsgScanComplete.

(** Only [FileNotFoundError] is caught around the input file: any
    other exception of [open] or of reading leaves [main]. *)
Definition main (w : world) : M main_locals unit :=
  match input_file w with
  | Raises FileNotFoundError =>
      emit (OpenFile false) ;;
      print Stderr MsgInputNotFound
  | Raises e =>
      emit (OpenFile false) ;;
      raise (Error e)
  | Returns lines =>
      emit (OpenFile true) ;;
      match read_domains lines with
      | [] => print Stdout MsgNoDomains
      | target_domains => scan w target_domains
      end
  end.

(** [asyncio.run(main())] as the last statement of the script: the
    exit status of the process. *)
Definition exit_status (w : world) : nat :=
  match result (main w {| browser := false;
                          all_subdomain_check_tasks := [] |}) with
  | Val _ => 0
  | Exc (SystemExit code) => code
  | Exc (Error _) => 1
  end.

Definition main_events (w : world) : list event :=
  emitted (main w {| browser := false; all_subdomain_check_tasks := [] |}).

End Scanner.

(** ** Tasks on the event loop

    [main] creates one task per candidate; the tasks run interleaved on
    one event loop and meet only at the two semaphores.  A task is the
    sequence of events of its [check_subdomain], split into the part
    already done and the part still to do.  An [asyncio.Semaphore]
    holds a counter: [Acquire] goes through when the counter is
    positive and decrements it, and otherwise the task stays where it
    is; [Release] increments it. *)

Record task : Type := {
  done : list event;
  todo : list event
}.

Record event_loop : Type := {
  value : semaphore -> nat;
  tasks : list task
}.

Definition semaphore_eqb (a b : semaphore) : bool :=
  match a, b with
  | browser_semaphore, browser_semaphore => true
  | httpx_semaphore, httpx_semaphore => true
  | _, _ => false
  end.

Definition set_value (v : semaphore -> nat) (s : semaphore) (n : nat)
    : semaphore -> nat :=
  fun s' => if semaphore_eqb s s' then n else v s'.

Definition enabled (v : semaphore -> nat) (ev : event) : bool :=
  match ev with
  | Acquire s => 0 <? v s
  | _ => true
  end.

Definition effect (v : semaphore -> nat) (ev : event) : semaphore -> nat :=
  match ev with
  | Acquire s => set_value v s (v s - 1)
  | Release s => set_value v s (v s + 1)
  | _ => v
  end.

Inductive step : event_loop -> event_loop -> Prop :=
| step_task : forall v before t after ev rest,
    todo t = ev :: rest ->
    enabled v ev = true ->
    step {| value := v; tasks := before ++ t :: after |}
         {| value := effect v ev;
            tasks := before ++ {| done := done t ++ [ev]; todo := rest |}
                            :: after |}.

Inductive reachable (init : event_loop) : event_loop -> Prop :=
| reachable_start : reachable init init
| reachable_step : forall st st',
    reachable init st -> step st st' -> reachable init st'.

(** The semaphores as the module creates them. *)
Definition capacity (s : semaphore) : nat :=
  match s with
  | browser_semaphore => SCREENSHOT_CONCURRENCY
  | httpx_semaphore => HTTPX_CONCURRENCY
  end.

(** One candidate with the answers its probe will get. *)
Record job : Type := {
  job_subdomain : string;
  job_aiohttp : string -> post_stub;
  job_client : string -> outcome nat;
  job_browser : string -> capture_stub;
  job_webhook : option string
}.

Definition job_events (j : job) : list event :=
  emitted (check_subdomain (job_aiohttp j) (job_subdomain j) (job_client j)
                           (job_browser j) (job_webhook j) tt).

Definition start (jobs : list job) : event_loop :=
  {| value := capacity;
     tasks := map (fun j => {| done := []; todo := job_events j |}) jobs |}.

(** Slots of [s] a task holds after the events [evs]. *)
Definition held_after (s : semaphore) (n : nat) (ev : event) : nat :=
  match ev with
  | Acquire s' => if semaphore_eqb s s' then Datatypes.S n else n
  | Release s' => if semaphore_eqb s s' then n - 1 else n
  | _ => n
  end.

Definition held (s : semaphore) (evs : list event) : nat :=
  fold_left (held_after s) evs 0.

(** The slots of the pool [s] held over all tasks. *)
Definition in_flight (s : semaphore) (st : event_loop) : nat :=
  list_sum (map (fun t => held s (done t)) (tasks st)).

Definition finished (t : task) : bool :=
  match todo t with [] => true | _ => false end.

(** *** The locking discipline of a probe

    What a task holds: nothing, the probe slot, or the probe slot and
    the capture slot. *)
Inductive holding := Nothing | Probe | ProbeAndCapture.

(** The moves the discipline allows.  The capture slot is taken only
    under the probe slot and given back first, and every other event
    happens under the probe slot. *)
Definition move (h : holding) (ev : event) : option holding :=
  match ev, h with
  | Acquire httpx_semaphore, Nothing => Some Probe
  | Acquire browser_semaphore, Probe => Some ProbeAndCapture
  | Release browser_semaphore, ProbeAndCapture => Some Probe
  | Release httpx_semaphore, Probe => Some Nothing
  | Acquire _, _ => None
  | Release _, _ => None
  | _, Nothing => None
  | _, _ => Some h
  end.

Fixpoint walk (h : holding) (evs : list event) : option holding :=
  match evs with
  | [] => Some h
  | ev :: rest =>
      match move h ev with
      | Some h' => walk h' rest
      | None => None
      end
  end.

Definition disciplined (evs : list event) : Prop :=
  walk Nothing evs = Some Nothing.

(** *** Classes of events *)

Definition is_semaphore_event (ev : event) : bool :=
  match ev with Acquire _ | Release _ => true | _ => false end.

Definition is_get (ev : event) : bool :=
  match ev with HttpGet _ => true | _ => false end.

(** The URLs requested, in the order of the requests. *)
Definition requests (evs : list event) : list string :=
  flat_map (fun ev => match ev with HttpGet url => [url] | _ => [] end) evs.

(** The URLs [take_screenshot] was called with. *)
Definition captures (evs : list event) : list string :=
  flat_map (fun ev => match ev with CallCapture url => [url] | _ => [] end) evs.

(** The URLs [send_to_discord] was called with. *)
Definition alerts (evs : list event) : list string :=
  flat_map (fun ev => match ev with CallAlert url => [url] | _ => [] end) evs.

(** The candidates a probe task was created for. *)
Definition probed (evs : list event) : list string :=
  flat_map (fun ev => match ev with CreateTask sub => [sub] | _ => [] end) evs.

(** An event of a capture or of an alert: the call itself, the capture
    slot, the browser engine, the webhook, and what they print. *)
Definition capture_or_alert (ev : event) : bool :=
  match ev with
  | CallCapture _ | NewContext _ | NewPage _ | Goto _ _ | Screenshot _
  | PageClose _ | ContextClose _ | CallAlert _ | HttpPost _ _ _ _
  | ResponseText _ => true
  | Acquire browser_semaphore | Release browser_semaphore => true
  | Print _ (MsgAttemptScreenshot _) | Print _ (MsgScreenshotCaptured _)
  | Print _ (MsgPlaywrightError _ _) | Print _ (MsgNoteDns _)
  | Print _ (MsgNoteTimeout _) | Print _ (MsgScreenshotUnexpected _)
  | Print _ (MsgDiscordSent _) | Print _ (MsgDiscordFailed _ _ _)
  | Print _ (MsgDiscordClientError _) | Print _ (MsgDiscordUnexpected _) => true
  | _ => false
  end.

(** *** Notions of the claims *)

(** A connection-level failure of a request: [except (httpx.ConnectError,
    httpx.NetworkError)]. *)
Definition connection_failure (o : outcome nat) : Prop :=
  o = Raises ConnectError \/ o = Raises NetworkError.

(** A computation that never ends with a [SystemExit]. *)
Definition ends_without_exit {S A} (m : M S A) : Prop :=
  forall s code, result (m s) <> Exc (SystemExit code).

(** A candidate the specification calls malformed: empty, without a
    dot, or with a dot at either end. *)
Definition malformed (sub : string) : Prop :=
  sub = EmptyString
  \/ ~ In "."%char (list_ascii_of_string sub)
  \/ (exists rest, sub = String "."%char rest)
  \/ (exists front, sub = (front ++ ".")%string).

(** Tasks are created for candidates that pass the validation only. *)
Definition task_is_valid (ev : event) : bool :=
  match ev with
  | CreateTask sub => negb (skipped sub)
  | _ => true
  end.

(** The enumeration tool cannot be started for [domain] because its
    binary is not found. *)
Definition tool_not_found
    (rapiddns : string -> outcome (Z * string * string)) (domain : string)
    : bool :=
  match rapiddns domain with
  | Raises FileNotFoundError => true
  | _ => false
  end.

(** The run comes to enumerate a domain for which the tool is not
    found: the input file is read, the context managers are entered,
    the browser is launched, and some domain of the list has no tool. *)
Definition reaches_missing_tool
    (rapiddns : string -> outcome (Z * string * string)) (w : world) : bool :=
  match input_file w with
  | Returns lines =>
      succeeded (contexts w) && succeeded (launch w)
      && existsb (tool_not_found rapiddns) (read_domains lines)
  | Raises _ => false
  end.

(** ** Predicates on events, results and states *)

(** What a computation emits satisfies [Q], whatever its local
    variables. *)
Definition emits (Q : list event -> Prop) {S A} (m : M S A) : Prop :=
  forall s, Q (emitted (m s)).

(** Events that all satisfy a test. *)
Definition only (P : event -> bool) (evs : list event) : Prop :=
  Forall (fun ev => P ev = true) evs.

(** An event that touches no semaphore. *)
Definition quiet (ev : event) : bool := negb (is_semaphore_event ev).

(** Events that leave what is held as it is. *)
Definition steady (h : holding) (evs : list event) : Prop :=
  walk h evs = Some h.

(** Slots of [s] held in the state [h]. *)
Definition level (s : semaphore) (h : holding) : nat :=
  match s, h with
  | httpx_semaphore, Nothing => 0
  | httpx_semaphore, _ => 1
  | browser_semaphore, ProbeAndCapture => 1
  | browser_semaphore, _ => 0
  end.

(** Counter and slots held add up to the capacity. *)
Definition balanced (st : event_loop) : Prop :=
  forall s, value st s + in_flight s st = capacity s.

(** Each task is still the run of its job: what it has done and what it
    has left to do make up the events of its [check_subdomain]. *)
Definition runs (jobs : list job) (st : event_loop) : Prop :=
  Forall2 (fun j t => done t ++ todo t = job_events j) jobs (tasks st).

(** A task can run when its next event is enabled. *)
Definition can_run (v : semaphore -> nat) (t : task) : bool :=
  match todo t with
  | ev :: _ => enabled v ev
  | [] => false
  end.

(** An event other than a request of the HTTP client. *)
Definition not_get (ev : event) : bool := negb (is_get ev).

(** An event other than the call of a capture or of an alert. *)
Definition no_call (ev : event) : bool :=
  match ev with CallCapture _ | CallAlert _ => false | _ => true end.

(** The POSTs made to a webhook: where, with which payload and file. *)
Definition posts (evs : list event) : list (string * string * bytes) :=
  flat_map (fun ev => match ev with
                      | HttpPost w payload file1 _ => [(w, payload, file1)]
                      | _ => []
                      end) evs.

(** What a capture has in hand when it is over: the raster of
    [page.screenshot], if the calls up to it returned. *)
Definition captured (b : capture_stub) : option bytes :=
  match new_context b, new_page b, goto b, screenshot b with
  | Returns _, Returns _, Returns _, Returns shot => Some shot
  | _, _, _, _ => None
  end.

(** The request was answered 404: by a response with that status, or by
    an [HTTPStatusError] carrying it. *)
Definition is_404 (o : outcome nat) : bool :=
  match o with
  | Returns status_code => status_code =? 404
  | Raises (HTTPStatusError status_code) => status_code =? 404
  | Raises _ => false
  end.

(** The commands run as subprocesses, in the order they were run. *)
Definition spawned (evs : list event) : list (list string) :=
  flat_map (fun ev => match ev with Subprocess command _ => [command]
                                  | _ => [] end) evs.

(** An event of the enumeration: the tool is run, a task is created, a
    line is printed. *)
Definition enumerating (ev : event) : bool :=
  match ev with
  | Print _ _ | Subprocess _ _ | CreateTask _ => true
  | _ => false
  end.

(** The domains [main] reads from the input file. *)
Definition target_domains_of (w : world) : list string :=
  match input_file w with
  | Returns lines => read_domains lines
  | Raises _ => []
  end.

(** One schedule among those the loop may follow: at each round the
    first task whose next event is enabled makes that move. *)
Fixpoint first_ready (v : semaphore -> nat) (ts : list task)
    : option ((semaphore -> nat) * list task) :=
  match ts with
  | [] => None
  | t :: later =>
      let wait :=
        match first_ready v later with
        | Some (v', later') => Some (v', t :: later')
        | None => None
        end in
      match todo t with
      | ev :: rest =>
          if enabled v ev
          then Some (effect v ev,
                     {| done := done t ++ [ev]; todo := rest |} :: later)
          else wait
      | [] => wait
      end
  end.

Definition round (st : event_loop) : event_loop :=
  match first_ready (value st) (tasks st) with
  | Some (v, ts) => {| value := v; tasks := ts |}
  | None => st
  end.

Fixpoint rounds (n : nat) (st : event_loop) : event_loop :=
  match n with
  | 0 => st
  | S n' => rounds n' (round st)
  end.

(** The events the tasks have left to do. *)
Definition remaining (st : event_loop) : nat :=
  list_sum (map (fun t => List.length (todo t)) (tasks st)).

(** A call of the browser engine: the operations of a capture. *)
Definition browser_call (ev : event) : bool :=
  match ev with
  | NewContext _ | NewPage _ | Goto _ _ | Screenshot _ | PageClose _
  | ContextClose _ => true
  | _ => false
  end.

(** The task is at an operation of the class [P]: the call is the next
    thing it does, and it is in flight until the task moves on. *)
Definition at_operation (P : event -> bool) (t : task) : bool :=
  match todo t with
  | ev :: _ => P ev
  | [] => false
  end.

(** The operations of the class [P] in flight: the tasks that are at
    one.  Nothing here looks at a semaphore. *)
Definition operations (P : event -> bool) (st : event_loop) : nat :=
  List.length (filter (at_operation P) (tasks st)).

(** [guarded P s n evs]: starting with [n] slots of [s] held, every
    event of the class [P] in [evs] occurs while exactly one slot of [s]
    is held. *)
Fixpoint guarded (P : event -> bool) (s : semaphore) (n : nat)
    (evs : list event) : bool :=
  match evs with
  | [] => true
  | ev :: rest =>
      (if P ev then n =? 1 else true)
      && guarded P s (held_after s n ev) rest
  end.

(** Every operation of the class [P] is made under a slot of [s], and
    no slot of [s] is left held. *)
Definition sheltered (P : event -> bool) (s : semaphore)
    (evs : list event) : Prop :=
  guarded P s 0 evs = true /\ held s evs = 0.

(** An event that is no call of the browser engine and leaves the
    capture slots alone. *)
Definition outside_capture (ev : event) : bool :=
  negb (browser_call ev)
  && match ev with
     | Acquire browser_semaphore | Release browser_semaphore => false
     | _ => true
     end.

(** ** Sample answers

    Stubs for concrete runs: a browser engine where every call returns,
    a webhook that answers 204, and HTTP layers that answer the same
    way on both protocols or differently on HTTPS. *)

Definition sample_png : bytes := [Byte.x89; Byte.x50; Byte.x4e; Byte.x47].

Definition engine_ok : string -> capture_stub :=
  fun _ =>
    {| new_context := Returns tt;
       new_page := Returns tt;
       goto := Returns tt;
       screenshot := Returns sample_png;
       page_close := fun _ => Returns tt;
       context_close := Returns tt |}.

Definition webhook_ok : string -> post_stub :=
  fun _ => {| post := Returns 204; response_text := Returns EmptyString |}.

Definition sample_webhook_url : option string :=
  Some "https://discord.example/api/webhooks/1".

(** [on_https o other]: the HTTP layer that answers [o] to an HTTPS URL
    and [other] to any other URL. *)
Definition on_https (o other : outcome nat) : string -> outcome nat :=
  fun url => if Py.startswith url "https://" then o else other.

Definition always (o : outcome nat) : string -> outcome nat :=
  fun _ => o.

(** An enumeration tool that finds four names under any domain, two of
    them malformed. *)
Definition rapiddns_finds : string -> outcome (Z * string * string) :=
  fun _ =>
    Returns (0%Z,
             String "."%char "example.com" ++ String "010"%char
               "old.example.com" ++ String "010"%char
               "localhost" ++ String "010"%char
               "new.example.com" ++ String "010"%char EmptyString,
             EmptyString)%string.

Definition sample_world : world :=
  {| input_file :=
       Returns ["# targets" ++ String "010"%char EmptyString;
                "example.com" ++ String "010"%char EmptyString]%string;
     DISCORD_WEBHOOK_URL := sample_webhook_url;
     urlparse_scheme := fun _ => "https";
     contexts := Returns tt;
     launch := Returns tt;
     browser_close := Returns tt;
     client := on_https (Returns 404) (Returns 200);
     browser_engine := engine_ok |}.

(** An enumeration tool that exits with status 2 for one domain and is
    not installed as far as another is concerned. *)
Definition rapiddns_fails : string -> outcome (Z * string * string) :=
  fun domain =>
    if String.eqb domain "limited.example"
    then Returns (2%Z, EmptyString,
                  ("rate limited" ++ String "010"%char EmptyString)%string)
    else Raises FileNotFoundError.

Definition world_without_input : world :=
  {| input_file := Raises FileNotFoundError;
     DISCORD_WEBHOOK_URL := sample_webhook_url;
     urlparse_scheme := fun _ => "https";
     contexts := Returns tt;
     launch := Returns tt;
     browser_close := Returns tt;
     client := always (Returns 200);
     browser_engine := engine_ok |}.

(** The input file is there and cannot be read. *)
Definition world_with_unreadable_input : world :=
  {| input_file := Raises OtherException;
     DISCORD_WEBHOOK_URL := sample_webhook_url;
     urlparse_scheme := fun _ => "https";
     contexts := Returns tt;
     launch := Returns tt;
     browser_close := Returns tt;
     client := always (Returns 200);
     browser_engine := engine_ok |}.

(** The Playwright driver does not start. *)
Definition world_without_driver : world :=
  {| input_file := Returns ["example.com"];
     DISCORD_WEBHOOK_URL := sample_webhook_url;
     urlparse_scheme := fun _ => "https";
     contexts := Raises OtherException;
     launch := Returns tt;
     browser_close := Returns tt;
     client := always (Returns 200);
     browser_engine := engine_ok |}.

(** The browser is launched and does not close. *)
Definition world_with_stuck_browser : world :=
  {| input_file := Returns ["example.com"];
     DISCORD_WEBHOOK_URL := sample_webhook_url;
     urlparse_scheme := fun _ => "https";
     contexts := Returns tt;
     launch := Returns tt;
     browser_close := Raises (PlaywrightError "Target closed");
     client := always (Returns 200);
     browser_engine := engine_ok |}.

Definition world_without_browser : world :=
  {| input_file := Returns ["example.com"];
     DISCORD_WEBHOOK_URL := sample_webhook_url;
     urlparse_scheme := fun _ => "https";
     contexts := Returns tt;
     launch := Raises (PlaywrightError "Executable doesn't exist");
     browser_close := Returns tt;
     client := always (Returns 200);
     browser_engine := engine_ok |}.

(** A browser engine for which the name of the page does not resolve:
    [page.goto] raises, every other call returns. *)
Definition engine_unresolved : string -> capture_stub :=
  fun url =>
    {| new_context := Returns tt;
       new_page := Returns tt;
       goto := Raises (PlaywrightError
                         ("net::ERR_NAME_NOT_RESOLVED at " ++ url)%string);
       screenshot := Returns sample_png;
       page_close := fun _ => Returns tt;
       context_close := Returns tt |}.

(** A browser engine whose pages hang: [page.goto] times out and
    [page.close] raises as well. *)
Definition engine_stuck : string -> capture_stub :=
  fun _ =>
    {| new_context := Returns tt;
       new_page := Returns tt;
       goto := Raises (PlaywrightError "Timeout 15000ms exceeded.");
       screenshot := Returns sample_png;
       page_close := fun _ => Raises (PlaywrightError "Page crashed");
       context_close := Returns tt |}.

(** Two candidates, the first answering 404 on HTTPS. *)
Definition sample_jobs : list job :=
  [ {| job_subdomain := "old.example.com";
       job_aiohttp := webhook_ok;
       job_client := always (Returns 404);
       job_browser := engine_ok;
       job_webhook := sample_webhook_url |};
    {| job_subdomain := "new.example.com";
       job_aiohttp := webhook_ok;
       job_client := always (Returns 200);
       job_browser := engine_ok;
       job_webhook := sample_webhook_url |} ].

(** * Properties *)

Unset Implicit Arguments.

(** ** What a computation emits

    A property of event lists that holds of the empty list and is kept
    by concatenation holds of what a computation emits as soon as it
    holds of what its parts emit. *)

Section Emits.

Variable Q : list event -> Prop.
Hypothesis Q_nil : Q [].
Hypothesis Q_app : forall a b, Q a -> Q b -> Q (a ++ b).

Lemma emits_ret {S A} (a : A) : emits Q (@ret S A a).
Proof. intro s. exact Q_nil. Qed.

Lemma emits_raise {S A} (e : exn) : emits Q (@raise S A e).
Proof. intro s. exact Q_nil. Qed.

Lemma emits_sys_exit {S A} (code : nat) : emits Q (@sys_exit S A code).
Proof. apply emits_raise. Qed.

Lemma emits_get {S} : emits Q (@get S).
Proof. intro s. exact Q_nil. Qed.

Lemma emits_put {S} (s0 : S) : emits Q (put s0).
Proof. intro s. exact Q_nil. Qed.

Lemma emits_emit {S} (ev : event) : Q [ev] -> emits Q (@emit S ev).
Proof. intros H s. exact H. Qed.

Lemma emits_print {S} to m : Q [Print to m] -> emits Q (@print S to m).
Proof. apply emits_emit. Qed.

Lemma emits_external {S A} (ev : bool -> event) (o : outcome A) :
  (forall ok, Q [ev ok]) -> emits Q (@external S A ev o).
Proof. intros H s. unfold external. destruct o; simpl; apply H. Qed.

Lemma emits_bind {S A B} (m : M S A) (k : A -> M S B) :
  emits Q m -> (forall a, emits Q (k a)) -> emits Q (bind m k).
Proof.
  intros Hm Hk s. unfold bind.
  destruct (result (m s)) eqn:E; simpl.
  - apply Q_app; [apply Hm | apply Hk].
  - apply Hm.
Qed.

Lemma emits_try_except {S A} (body : M S A) handler :
  emits Q body ->
  (forall e h, handler e = Some h -> emits Q h) ->
  emits Q (try_except body handler).
Proof.
  intros Hb Hh s. unfold try_except.
  destruct (result (body s)) as [a|[e|c]] eqn:E; try apply Hb.
  destruct (handler e) as [h|] eqn:Eh; try apply Hb.
  simpl. apply Q_app; [apply Hb | eapply Hh; eassumption].
Qed.

Lemma emits_try_finally {S A} (body : M S A) cleanup :
  emits Q body -> emits Q cleanup -> emits Q (try_finally body cleanup).
Proof.
  intros Hb Hc s. unfold try_finally. simpl.
  apply Q_app; [apply Hb | apply Hc].
Qed.

Lemma emits_call {S S' A} (fresh : S') (body : M S' A) :
  emits Q body -> emits Q (@call S S' A fresh body).
Proof. intros Hb s. unfold call. simpl. apply Hb. Qed.

End Emits.

Lemma only_nil P : only P [].
Proof. constructor. Qed.

Lemma only_app P a b : only P a -> only P b -> only P (a ++ b).
Proof. intros Ha Hb. apply Forall_app. split; assumption. Qed.

Lemma only_one P ev : P ev = true -> only P [ev].
Proof. intro H. constructor; [exact H | constructor]. Qed.

(** Walks through a computation built from the combinators above. *)
Ltac emits_handler :=
  let e := fresh "e" in
  let h := fresh "h" in
  let H := fresh "H" in
  intros e h H; destruct e; inversion H; subst; clear H.

Ltac emits_step nil app one :=
  first
    [ apply emits_ret; exact nil
    | apply emits_raise; exact nil
    | apply emits_sys_exit; exact nil
    | apply emits_get; exact nil
    | apply emits_put; exact nil
    | apply emits_print; apply one; reflexivity
    | apply emits_emit; apply one; reflexivity
    | apply emits_external; intro; apply one; reflexivity
    | apply emits_bind; [ exact app | | intro ]
    | apply emits_try_except; [ exact app | | emits_handler ]
    | apply emits_try_finally; [ exact app | | ]
    | apply emits_call
    | match goal with
      | |- emits _ (match ?x with _ => _ end) => destruct x
      end ].

(** ** The shape of what a probe emits *)

Ltac emits_only P :=
  repeat emits_step (only_nil P) (@only_app P) (@only_one P).

(** A capture is its call, then the capture slot taken, events that
    touch no semaphore, and the capture slot given back. *)
Lemma take_screenshot_shape {S} browser url (s : S) :
  exists inner,
    emitted (take_screenshot browser url s)
    = CallCapture url :: Acquire browser_semaphore :: inner
      ++ [Release browser_semaphore]
    /\ only quiet inner.
Proof.
  unfold take_screenshot.
  match goal with
  | |- context [async_with _ ?b] =>
      assert (Hb : emits (only quiet) b) by emits_only quiet;
      set (body := b) in *
  end.
  exists (emitted (body {| screenshot_bytes := None; page := None |})).
  split; [ | apply Hb ].
  clearbody body.
  unfold bind, call, async_with, emit; simpl.
  destruct (result (body {| screenshot_bytes := None; page := None |}));
    simpl; rewrite ?app_nil_r; reflexivity.
Qed.

(** *** Walking along the discipline *)

Lemma walk_app h a b :
  walk h (a ++ b)
  = match walk h a with Some h' => walk h' b | None => None end.
Proof.
  revert h. induction a as [|ev a IH]; intro h; simpl.
  - reflexivity.
  - destruct (move h ev); [apply IH | reflexivity].
Qed.

Lemma steady_nil h : steady h [].
Proof. reflexivity. Qed.

Lemma steady_app h a b : steady h a -> steady h b -> steady h (a ++ b).
Proof.
  unfold steady. intros Ha Hb. rewrite walk_app, Ha. exact Hb.
Qed.

Lemma steady_one h ev : move h ev = Some h -> steady h [ev].
Proof. unfold steady. simpl. intros ->. reflexivity. Qed.

Lemma move_quiet h ev :
  h <> Nothing -> quiet ev = true -> move h ev = Some h.
Proof.
  intros Hh Hq. destruct ev; try discriminate Hq;
    destruct h; try reflexivity; contradiction.
Qed.

Lemma steady_quiet h evs :
  h <> Nothing -> only quiet evs -> steady h evs.
Proof.
  intros Hh Hq. induction Hq as [|ev evs Hev _ IH].
  - reflexivity.
  - unfold steady. simpl. rewrite move_quiet by assumption. exact IH.
Qed.

Lemma take_screenshot_steady {S} browser url :
  emits (steady Probe) (@take_screenshot S browser url).
Proof.
  intro s.
  destruct (take_screenshot_shape browser url s) as [inner [-> Hq]].
  unfold steady. simpl. rewrite walk_app.
  rewrite (@steady_quiet ProbeAndCapture inner);
    [reflexivity | discriminate | exact Hq].
Qed.

Lemma send_to_discord_quiet {S} aiohttp webhook_url url shot :
  emits (only quiet) (@send_to_discord aiohttp S webhook_url url shot).
Proof. unfold send_to_discord. emits_only quiet. Qed.

Lemma send_to_discord_steady {S} aiohttp webhook_url url shot :
  emits (steady Probe) (@send_to_discord aiohttp S webhook_url url shot).
Proof.
  intro s. apply steady_quiet; [discriminate | apply send_to_discord_quiet].
Qed.

Ltac emits_steady :=
  repeat first
    [ apply take_screenshot_steady
    | apply send_to_discord_steady
    | emits_step (steady_nil Probe) (@steady_app Probe) (@steady_one Probe) ].

(** One pass of the loop takes the probe slot, stays under it, and
    gives it back. *)
Lemma attempt_shape aiohttp subdomain client browser webhook_url proto s :
  exists inner,
    emitted (attempt aiohttp subdomain client browser webhook_url proto s)
    = Acquire httpx_semaphore :: inner ++ [Release httpx_semaphore]
    /\ steady Probe inner.
Proof.
  unfold attempt.
  match goal with
  | |- context [async_with _ ?b] =>
      assert (Hb : emits (steady Probe) b) by emits_steady;
      set (body := b) in *
  end.
  exists (emitted (body s)). split; [reflexivity | apply Hb].
Qed.

Lemma attempt_disciplined aiohttp subdomain client browser webhook_url proto s :
  disciplined
    (emitted (attempt aiohttp subdomain client browser webhook_url proto s)).
Proof.
  destruct (attempt_shape aiohttp subdomain client browser webhook_url proto s)
    as [inner [-> Hi]].
  unfold disciplined. simpl. rewrite walk_app, Hi. reflexivity.
Qed.

Lemma emitted_bind {S A B} (m : M S A) (k : A -> M S B) s :
  emitted (bind m k s)
  = match result (m s) with
    | Val a => emitted (m s) ++ emitted (k a (locals (m s)))
    | Exc _ => emitted (m s)
    end.
Proof. unfold bind. destruct (result (m s)); reflexivity. Qed.

Lemma result_bind {S A B} (m : M S A) (k : A -> M S B) s :
  result (bind m k s)
  = match result (m s) with
    | Val a => result (k a (locals (m s)))
    | Exc e => Exc e
    end.
Proof. unfold bind. destruct (result (m s)); reflexivity. Qed.

Lemma disciplined_app a b :
  disciplined a -> disciplined b -> disciplined (a ++ b).
Proof. apply steady_app. Qed.

Lemma for_each_protocol_disciplined
    aiohttp subdomain client browser webhook_url protos s :
  disciplined
    (emitted (for_each_protocol aiohttp subdomain client browser webhook_url
                                protos s)).
Proof.
  revert s. induction protos as [|proto rest IH]; intro s.
  - reflexivity.
  - cbn [for_each_protocol]. rewrite emitted_bind.
    pose proof (attempt_disciplined aiohttp subdomain client browser
                                    webhook_url proto s) as Ha.
    destruct (result (attempt aiohttp subdomain client browser webhook_url
                              proto s)) as [[| |]|e].
    + apply disciplined_app; [exact Ha | reflexivity].
    + apply disciplined_app; [exact Ha | apply IH].
    + apply disciplined_app; [exact Ha | apply IH].
    + exact Ha.
Qed.

Lemma check_subdomain_disciplined aiohttp subdomain client browser webhook_url s :
  disciplined
    (emitted (check_subdomain aiohttp subdomain client browser webhook_url s)).
Proof. unfold check_subdomain. apply for_each_protocol_disciplined. Qed.

(** *** What is held along a disciplined run *)

Lemma move_level s h ev h' :
  move h ev = Some h' -> held_after s (level s h) ev = level s h'.
Proof.
  destruct ev; destruct h;
    repeat match goal with x : semaphore |- _ => destruct x end;
    simpl; intro H; inversion H; reflexivity.
Qed.

Lemma walk_level s evs : forall h h',
  walk h evs = Some h' ->
  fold_left (held_after s) evs (level s h) = level s h'.
Proof.
  induction evs as [|ev evs IH]; intros h h' H; simpl in *.
  - inversion H. reflexivity.
  - destruct (move h ev) as [h1|] eqn:E; [|discriminate].
    rewrite (move_level s _ _ _ E). apply IH. exact H.
Qed.

Lemma walk_held s evs h :
  walk Nothing evs = Some h -> held s evs = level s h.
Proof.
  intro H. unfold held.
  pose proof (walk_level s _ _ _ H) as W.
  destruct s; exact W.
Qed.

(** Splitting a disciplined run at an event: what came before is a walk
    to a state from which the event is a legal move. *)
Lemma disciplined_split pre ev post :
  disciplined (pre ++ ev :: post) ->
  exists h h', walk Nothing pre = Some h /\ move h ev = Some h'
               /\ walk h' post = Some Nothing.
Proof.
  unfold disciplined. rewrite walk_app.
  destruct (walk Nothing pre) as [h|]; [|discriminate].
  simpl. destruct (move h ev) as [h'|] eqn:E; [|discriminate].
  intro H. exists h, h'. auto.
Qed.

Lemma capture_or_alert_moves h ev h' :
  capture_or_alert ev = true -> move h ev = Some h' ->
  h <> Nothing /\ h' <> Nothing.
Proof.
  destruct ev; destruct h;
    repeat match goal with x : semaphore |- _ => destruct x end;
    simpl; intros Hc H; try discriminate Hc; try discriminate H;
    inversion H; split; discriminate.
Qed.

Lemma level_probe h : h <> Nothing -> level httpx_semaphore h = 1.
Proof. destruct h; [contradiction | reflexivity | reflexivity]. Qed.

(** ** The event loop *)

Lemma held_snoc s evs ev :
  held s (evs ++ [ev]) = held_after s (held s evs) ev.
Proof. unfold held. rewrite fold_left_app. reflexivity. Qed.

Lemma list_sum_map_app {A} (f : A -> nat) a b :
  list_sum (map f (a ++ b)) = list_sum (map f a) + list_sum (map f b).
Proof. rewrite map_app. apply list_sum_app. Qed.

Lemma in_flight_at s v before t after :
  in_flight s {| value := v; tasks := before ++ t :: after |}
  = list_sum (map (fun t => held s (done t)) before)
    + (held s (done t)
       + list_sum (map (fun t => held s (done t)) after)).
Proof. unfold in_flight. simpl. rewrite list_sum_map_app. reflexivity. Qed.

Lemma set_value_same v s n : set_value v s n s = n.
Proof. unfold set_value. destruct s; reflexivity. Qed.

Lemma set_value_other v s n s' : s <> s' -> set_value v s n s' = v s'.
Proof.
  unfold set_value. destruct s, s'; simpl; intro H;
    try reflexivity; contradiction H; reflexivity.
Qed.

Lemma semaphore_eq_dec (a b : semaphore) : {a = b} + {a <> b}.
Proof. decide equality. Qed.

(** A legal move keeps, for each semaphore, the sum of its counter and
    of what the moving task holds. *)
Lemma move_keeps_sum v s h ev h' :
  move h ev = Some h' ->
  enabled v ev = true ->
  effect v ev s + held_after s (level s h) ev = v s + level s h.
Proof.
  intros Hm He.
  destruct ev; simpl in *; try reflexivity.
  - (* Acquire *)
    apply Nat.ltb_lt in He.
    destruct (semaphore_eq_dec s0 s) as [->|Hne].
    + rewrite set_value_same.
      replace (semaphore_eqb s s) with true by (destruct s; reflexivity).
      lia.
    + rewrite set_value_other by exact Hne.
      replace (semaphore_eqb s s0) with false
        by (destruct s, s0; try reflexivity; contradiction Hne; reflexivity).
      reflexivity.
  - (* Release *)
    destruct (semaphore_eq_dec s0 s) as [->|Hne].
    + rewrite set_value_same.
      replace (semaphore_eqb s s) with true by (destruct s; reflexivity).
      assert (level s h = 1) as ->
        by (destruct s, h; simpl in Hm; try discriminate Hm; reflexivity).
      lia.
    + rewrite set_value_other by exact Hne.
      replace (semaphore_eqb s s0) with false
        by (destruct s, s0; try reflexivity; contradiction Hne; reflexivity).
      reflexivity.
Qed.

Lemma job_events_disciplined j : disciplined (job_events j).
Proof. unfold job_events. apply check_subdomain_disciplined. Qed.

Lemma runs_disciplined jobs st t :
  runs jobs st -> In t (tasks st) -> disciplined (done t ++ todo t).
Proof.
  unfold runs. intro H. induction H as [|j t' js ts Hjt _ IH]; intro Hin.
  - contradiction.
  - destruct Hin as [->|Hin].
    + rewrite Hjt. apply job_events_disciplined.
    + apply IH. exact Hin.
Qed.

Lemma start_balanced jobs : balanced (start jobs).
Proof.
  intro s. unfold in_flight, start. simpl.
  rewrite map_map. simpl.
  replace (list_sum (map (fun _ : job => held s []) jobs)) with 0.
  - lia.
  - induction jobs as [|j js IH]; simpl; [reflexivity | exact IH].
Qed.

Lemma start_runs jobs : runs jobs (start jobs).
Proof.
  unfold runs, start. simpl.
  induction jobs as [|j js IH]; simpl; constructor; [reflexivity | exact IH].
Qed.

Lemma step_runs jobs st st' : runs jobs st -> step st st' -> runs jobs st'.
Proof.
  unfold runs. intros H Hs. destruct Hs as [v before t after ev rest Ht He].
  simpl in *.
  apply Forall2_app_inv_r in H.
  destruct H as [js1 [js2 [H1 [H2 ->]]]].
  inversion H2 as [|j t0 js2' ts Hj Hrest]; subst.
  apply Forall2_app; [exact H1|].
  constructor; [|exact Hrest].
  simpl. rewrite <- Hj, Ht, <- app_assoc. reflexivity.
Qed.

Lemma step_balanced jobs st st' :
  runs jobs st -> balanced st -> step st st' -> balanced st'.
Proof.
  intros Hr Hb Hs s.
  destruct Hs as [v before t after ev rest Ht He].
  assert (Hd : disciplined (done t ++ ev :: rest)).
  { rewrite <- Ht. apply (runs_disciplined jobs _ t Hr).
    simpl. apply in_elt. }
  apply disciplined_split in Hd.
  destruct Hd as [h [h' [Hw [Hm _]]]].
  specialize (Hb s). simpl in Hb. rewrite in_flight_at in Hb.
  simpl. rewrite in_flight_at. simpl.
  rewrite held_snoc, (walk_held s _ _ Hw).
  rewrite (walk_held s _ _ Hw) in Hb.
  pose proof (move_keeps_sum v s h ev h' Hm He) as K.
  lia.
Qed.

Lemma reachable_invariant jobs st :
  reachable (start jobs) st -> runs jobs st /\ balanced st.
Proof.
  induction 1 as [|st st' _ [IHr IHb] Hs].
  - split; [apply start_runs | apply start_balanced].
  - split; [eapply step_runs | eapply step_balanced]; eassumption.
Qed.

(** *** No task waits for ever *)

Lemma task_position jobs st t :
  runs jobs st -> In t (tasks st) ->
  exists h, walk Nothing (done t) = Some h
            /\ match todo t with
               | [] => h = Nothing
               | ev :: _ => exists h', move h ev = Some h'
               end.
Proof.
  intros Hr Hin.
  pose proof (runs_disciplined jobs st t Hr Hin) as Hd.
  destruct (todo t) as [|ev rest] eqn:Et.
  - rewrite app_nil_r in Hd. exists Nothing. split; [exact Hd | reflexivity].
  - apply disciplined_split in Hd.
    destruct Hd as [h [h' [Hw [Hm _]]]].
    exists h. split; [exact Hw | exists h'; exact Hm].
Qed.

Lemma can_run_steps st t :
  In t (tasks st) -> can_run (value st) t = true -> exists st', step st st'.
Proof.
  intros Hin Hc. unfold can_run in Hc.
  destruct (todo t) as [|ev rest] eqn:Et; [discriminate|].
  apply in_split in Hin. destruct Hin as [before [after Hsplit]].
  destruct st as [v ts]. simpl in *. subst ts.
  eexists. apply step_task with (ev := ev) (rest := rest); assumption.
Qed.

Lemma some_task_holds (f : task -> nat) ts :
  0 < list_sum (map f ts) -> exists t, In t ts /\ 0 < f t.
Proof.
  induction ts as [|t ts IH]; simpl; intro H.
  - lia.
  - destruct (f t) as [|n] eqn:E.
    + destruct (IH H) as [t' [Hin Hpos]]. exists t'. auto.
    + exists t. split; [left; reflexivity | lia].
Qed.

Lemma capacity_positive s : 0 < capacity s.
Proof. destruct s; unfold capacity, SCREENSHOT_CONCURRENCY, HTTPX_CONCURRENCY; lia. Qed.

Lemma full_pool_has_holder st s :
  balanced st -> value st s = 0 ->
  exists t, In t (tasks st) /\ 0 < held s (done t).
Proof.
  intros Hb Hv. specialize (Hb s). rewrite Hv in Hb.
  apply some_task_holds. fold (in_flight s st).
  pose proof (capacity_positive s). lia.
Qed.

Lemma not_enabled v ev :
  enabled v ev = false -> exists s, ev = Acquire s /\ v s = 0.
Proof.
  destruct ev; simpl; intro H; try discriminate H.
  exists s. split; [reflexivity|].
  apply Nat.ltb_ge in H. lia.
Qed.

(** A task inside a capture has no semaphore left to wait for. *)
Lemma capture_holder_can_run jobs st t :
  runs jobs st -> In t (tasks st) ->
  0 < held browser_semaphore (done t) ->
  can_run (value st) t = true.
Proof.
  intros Hr Hin Hh.
  destruct (task_position jobs st t Hr Hin) as [h [Hw Hnext]].
  rewrite (walk_held browser_semaphore _ _ Hw) in Hh.
  destruct h; simpl in Hh; try lia.
  unfold can_run. destruct (todo t) as [|ev rest]; [discriminate|].
  destruct Hnext as [h' Hm].
  destruct ev; try reflexivity.
  destruct s; discriminate Hm.
Qed.

(** A task inside a probe waits for the capture slot at most, and then
    some capture is running. *)
Lemma probe_holder_finds_runner jobs st t :
  runs jobs st -> balanced st -> In t (tasks st) ->
  0 < held httpx_semaphore (done t) ->
  exists t', In t' (tasks st) /\ can_run (value st) t' = true.
Proof.
  intros Hr Hb Hin Hh.
  destruct (task_position jobs st t Hr Hin) as [h [Hw Hnext]].
  rewrite (walk_held httpx_semaphore _ _ Hw) in Hh.
  destruct (can_run (value st) t) eqn:Ec; [exists t; auto|].
  unfold can_run in Ec.
  destruct (todo t) as [|ev rest].
  - subst h. simpl in Hh. lia.
  - destruct Hnext as [h' Hm].
    destruct (not_enabled _ _ Ec) as [s [-> Hv]].
    destruct h, s; simpl in Hh, Hm; try discriminate Hm; try lia.
    destruct (full_pool_has_holder st browser_semaphore Hb Hv) as [t' [Hin' Hh']].
    exists t'. split; [exact Hin'|].
    apply (capture_holder_can_run jobs st t' Hr Hin' Hh').
Qed.

Lemma unfinished_finds_runner jobs st t :
  runs jobs st -> balanced st -> In t (tasks st) -> todo t <> [] ->
  exists t', In t' (tasks st) /\ can_run (value st) t' = true.
Proof.
  intros Hr Hb Hin Hne.
  destruct (can_run (value st) t) eqn:Ec; [exists t; auto|].
  unfold can_run in Ec.
  destruct (todo t) as [|ev rest]; [contradiction Hne; reflexivity|].
  destruct (not_enabled _ _ Ec) as [s [-> Hv]].
  destruct (full_pool_has_holder st s Hb Hv) as [t' [Hin' Hh']].
  destruct s.
  - exists t'. split; [exact Hin'|].
    apply (capture_holder_can_run jobs st t' Hr Hin' Hh').
  - apply (probe_holder_finds_runner jobs st t' Hr Hb Hin' Hh').
Qed.

(** ** The requests of a probe *)

Lemma emitted_try_except {S A} (body : M S A) handler s :
  emitted (try_except body handler s)
  = emitted (body s)
    ++ match result (body s) with
       | Exc (Error e) =>
           match handler e with
           | Some h => emitted (h (locals (body s)))
           | None => []
           end
       | _ => []
       end.
Proof.
  unfold try_except.
  destruct (result (body s)) as [a|[e|c]]; rewrite ?app_nil_r; try reflexivity.
  destruct (handler e); rewrite ?app_nil_r; reflexivity.
Qed.

Lemma only_async_with P {S A} sem (m : M S A) :
  P (Acquire sem) = true -> P (Release sem) = true ->
  emits (only P) m -> emits (only P) (async_with sem m).
Proof.
  intros Ha Hr Hm s. unfold async_with. simpl.
  constructor; [exact Ha|].
  apply only_app; [apply Hm | apply only_one; exact Hr].
Qed.

Ltac emits_only_through P :=
  repeat first
    [ apply only_async_with; [ reflexivity | reflexivity | ]
    | emits_step (only_nil P) (only_app P) (only_one P) ].

Lemma requests_app a b : requests (a ++ b) = requests a ++ requests b.
Proof. unfold requests. apply flat_map_app. Qed.

Lemma only_not_get_requests evs : only not_get evs -> requests evs = [].
Proof.
  induction 1 as [|ev evs Hev _ IH]; [reflexivity|].
  destruct ev; try discriminate Hev; exact IH.
Qed.

Lemma take_screenshot_no_get {S} browser url :
  emits (only not_get) (@take_screenshot S browser url).
Proof. unfold take_screenshot. emits_only_through not_get. Qed.

Lemma send_to_discord_no_get {S} aiohttp webhook_url url shot :
  emits (only not_get) (@send_to_discord aiohttp S webhook_url url shot).
Proof. unfold send_to_discord. emits_only_through not_get. Qed.

Ltac emits_no_get :=
  repeat first
    [ apply take_screenshot_no_get
    | apply send_to_discord_no_get
    | emits_step (only_nil not_get) (only_app not_get) (only_one not_get) ].

(** One pass of the loop makes one request, to the URL of its
    protocol. *)
Lemma attempt_requests aiohttp subdomain client browser webhook_url proto s :
  requests
    (emitted (attempt aiohttp subdomain client browser webhook_url proto s))
  = [url_of proto subdomain].
Proof.
  unfold attempt.
  match goal with
  | |- context [try_except (bind _ ?k) ?handler] =>
      assert (Hk : forall a, emits (only not_get) (k a))
        by (intro; emits_no_get);
      assert (Hh : forall e h, handler e = Some h -> emits (only not_get) h)
        by (emits_handler; emits_no_get);
      set (k0 := k) in *; set (h0 := handler) in *
  end.
  clearbody k0 h0.
  unfold async_with. cbn [emitted].
  change (Acquire httpx_semaphore :: ?x) with ([Acquire httpx_semaphore] ++ x).
  rewrite !requests_app, emitted_try_except, requests_app.
  set (body := bind _ k0).
  assert (Hhandled :
    requests
      match result (body s) with
      | Exc (Error e) =>
          match h0 e with
          | Some h => emitted (h (locals (body s)))
          | None => []
          end
      | _ => []
      end = []).
  { destruct (result (body s)) as [a|[e|c]]; try reflexivity.
    destruct (h0 e) as [h|] eqn:Eh; [|reflexivity].
    apply only_not_get_requests. apply (Hh e h Eh). }
  rewrite Hhandled. subst body.
  rewrite emitted_bind. unfold external.
  destruct (client (url_of proto subdomain)) as [status|e];
    cbn [result emitted locals].
  - rewrite requests_app, (only_not_get_requests _ (Hk status s)). reflexivity.
  - reflexivity.
Qed.

(** ** What a probe does after its first request *)

Section FirstRequest.

Variable aiohttp : string -> post_stub.
Variable subdomain : string.
Variable client : string -> outcome nat.
Variable browser : string -> capture_stub.
Variable webhook_url : option string.

Let attempt_ := attempt aiohttp subdomain client browser webhook_url.
Let check_ := check_subdomain aiohttp subdomain client browser webhook_url.

Lemma attempt_timeout proto s :
  client (url_of proto subdomain) = Raises TimeoutException ->
  attempt_ proto s
  = Ran (Val Next) s
        [Acquire httpx_semaphore; HttpGet (url_of proto subdomain);
         Print Stdout (MsgTimeout (url_of proto subdomain));
         Release httpx_semaphore].
Proof.
  intro H. unfold attempt_, attempt. cbv zeta.
  unfold async_with, try_except, bind, external. rewrite H. reflexivity.
Qed.

Lemma attempt_connection_failure proto s :
  connection_failure (client (url_of proto subdomain)) ->
  attempt_ proto s
  = Ran (Val Continue) s
        [Acquire httpx_semaphore; HttpGet (url_of proto subdomain);
         Print Stdout (MsgConnectionError (url_of proto subdomain));
         Release httpx_semaphore].
Proof.
  intro H. unfold attempt_, attempt. cbv zeta.
  unfold async_with, try_except, bind, external.
  destruct H as [H|H]; rewrite H; reflexivity.
Qed.

Lemma attempt_other_status proto s status_code :
  client (url_of proto subdomain) = Returns status_code ->
  status_code <> 404 ->
  attempt_ proto s
  = Ran (Val Next) s
        [Acquire httpx_semaphore; HttpGet (url_of proto subdomain);
         Release httpx_semaphore].
Proof.
  intros H Hs. apply Nat.eqb_neq in Hs.
  unfold attempt_, attempt. cbv zeta.
  unfold async_with, try_except, bind, external. rewrite H.
  cbn [result locals emitted]. rewrite Hs. reflexivity.
Qed.

(** The loop over the two protocols, read off the result of the first
    pass. *)
Lemma check_subdomain_goes_on f :
  result (attempt_ https tt) = Val f -> f <> Return ->
  emitted (check_ tt)
  = emitted (attempt_ https tt) ++ emitted (attempt_ http tt)
  /\ result (check_ tt)
     = match result (attempt_ http tt) with
       | Val _ => Val tt
       | Exc e => Exc e
       end.
Proof.
  intros H Hf. unfold check_, check_subdomain, protocols.
  cbn [for_each_protocol].
  fold attempt_.
  rewrite emitted_bind, result_bind, H.
  assert (Hl : locals (attempt_ https tt) = tt)
    by (destruct (locals (attempt_ https tt)); reflexivity).
  rewrite Hl.
  destruct f; [contradiction Hf; reflexivity | |];
    rewrite emitted_bind, result_bind;
    destruct (result (attempt_ http tt)) as [[| |]|e];
    rewrite ?app_nil_r; split; reflexivity.
Qed.

Lemma check_subdomain_stops :
  result (attempt_ https tt) = Val Return ->
  emitted (check_ tt) = emitted (attempt_ https tt)
  /\ result (check_ tt) = Val tt.
Proof.
  intro H. unfold check_, check_subdomain, protocols.
  cbn [for_each_protocol]. fold attempt_.
  rewrite emitted_bind, result_bind, H.
  rewrite app_nil_r. split; reflexivity.
Qed.

Lemma check_subdomain_raises e :
  result (attempt_ https tt) = Exc e ->
  emitted (check_ tt) = emitted (attempt_ https tt)
  /\ result (check_ tt) = Exc e.
Proof.
  intro H. unfold check_, check_subdomain, protocols.
  cbn [for_each_protocol]. fold attempt_.
  rewrite emitted_bind, result_bind, H.
  split; reflexivity.
Qed.

Lemma check_subdomain_requests :
  requests (emitted (check_ tt)) = [url_of https subdomain]
  \/ requests (emitted (check_ tt))
     = [url_of https subdomain; url_of http subdomain].
Proof.
  destruct (result (attempt_ https tt)) as [f|e] eqn:E.
  - destruct f.
    + left. destruct (check_subdomain_stops E) as [-> _].
      apply attempt_requests.
    + right. destruct (check_subdomain_goes_on Continue E) as [-> _];
        [discriminate|].
      rewrite requests_app. unfold attempt_.
      rewrite !attempt_requests. reflexivity.
    + right. destruct (check_subdomain_goes_on Next E) as [-> _];
        [discriminate|].
      rewrite requests_app. unfold attempt_.
      rewrite !attempt_requests. reflexivity.
  - left. destruct (check_subdomain_raises e E) as [-> _].
    apply attempt_requests.
Qed.

End FirstRequest.

(** ** Claims about the probe *)

(** C1, as the script has it.  When the HTTPS request of a candidate
    times out, the timeout is printed and nothing else happens for
    HTTPS: no capture, no alert.  The loop then goes on to HTTP: the run
    is the timed-out pass followed by the whole HTTP pass, so both URLs
    are requested. *)
Theorem timeout_on_https_goes_on_to_http :
  forall aiohttp subdomain client browser webhook_url,
    client (url_of https subdomain) = Raises TimeoutException ->
    let run := check_subdomain aiohttp subdomain client browser webhook_url tt in
    emitted run
    = [Acquire httpx_semaphore; HttpGet (url_of https subdomain);
       Print Stdout (MsgTimeout (url_of https subdomain));
       Release httpx_semaphore]
      ++ emitted (attempt aiohttp subdomain client browser webhook_url http tt)
    /\ requests (emitted run)
       = [url_of https subdomain; url_of http subdomain].
Proof.
  intros aiohttp subdomain client browser webhook_url H run.
  pose proof (attempt_timeout aiohttp subdomain client browser webhook_url
                              https tt H) as Ha.
  destruct (check_subdomain_goes_on aiohttp subdomain client browser
              webhook_url Next) as [He _].
  - rewrite Ha. reflexivity.
  - discriminate.
  - subst run. rewrite He, Ha. cbn [emitted]. split; [reflexivity|].
    rewrite requests_app, attempt_requests. reflexivity.
Qed.

(** C1 at a concrete input. *)
Lemma timeout_on_https_goes_on_to_http_witness :
  requests
    (emitted (check_subdomain webhook_ok "old.example.com"
                (always (Raises TimeoutException)) engine_ok
                sample_webhook_url tt))
  = ["https://old.example.com"; "http://old.example.com"].
Proof.
  apply (timeout_on_https_goes_on_to_http webhook_ok "old.example.com"
           (always (Raises TimeoutException)) engine_ok sample_webhook_url).
  reflexivity.
Defined.

(** C1 as stated fails: with HTTPS timing out the HTTP request is still
    made, and here it even leads to a capture and an alert. *)
Lemma timeout_on_https_still_requests_http :
  let client := on_https (Raises TimeoutException) (Returns 404) in
  let run := check_subdomain webhook_ok "old.example.com" client engine_ok
                             sample_webhook_url tt in
  client "https://old.example.com" = Raises TimeoutException
  /\ In (HttpGet "http://old.example.com") (emitted run)
  /\ captures (emitted run) = ["http://old.example.com"]
  /\ alerts (emitted run) = ["http://old.example.com"].
Proof.
  cbv zeta. split; [reflexivity|]. split; [|split; reflexivity].
  vm_compute. intuition.
Qed.

(** C2, as the script has it.  When the HTTPS request of a candidate is
    answered with a status other than 404, nothing is printed, captured
    or sent for HTTPS, and the loop goes on to HTTP: the run is the
    HTTPS pass, three events long, followed by the whole HTTP pass.
    Only a 404 ends the probe. *)
Theorem other_status_on_https_goes_on_to_http :
  forall aiohttp subdomain client browser webhook_url status_code,
    client (url_of https subdomain) = Returns status_code ->
    status_code <> 404 ->
    let run := check_subdomain aiohttp subdomain client browser webhook_url tt in
    emitted run
    = [Acquire httpx_semaphore; HttpGet (url_of https subdomain);
       Release httpx_semaphore]
      ++ emitted (attempt aiohttp subdomain client browser webhook_url http tt)
    /\ requests (emitted run)
       = [url_of https subdomain; url_of http subdomain].
Proof.
  intros aiohttp subdomain client browser webhook_url status_code H Hs run.
  pose proof (attempt_other_status aiohttp subdomain client browser
                webhook_url https tt status_code H Hs) as Ha.
  destruct (check_subdomain_goes_on aiohttp subdomain client browser
              webhook_url Next) as [He _].
  - rewrite Ha. reflexivity.
  - discriminate.
  - subst run. rewrite He, Ha. cbn [emitted]. split; [reflexivity|].
    rewrite requests_app, attempt_requests. reflexivity.
Qed.

(** C2 at a concrete input: HTTPS answers 200. *)
Lemma other_status_on_https_goes_on_to_http_witness :
  requests
    (emitted (check_subdomain webhook_ok "new.example.com"
                (always (Returns 200)) engine_ok sample_webhook_url tt))
  = ["https://new.example.com"; "http://new.example.com"].
Proof.
  apply (other_status_on_https_goes_on_to_http webhook_ok "new.example.com"
           (always (Returns 200)) engine_ok sample_webhook_url 200).
  - reflexivity.
  - discriminate.
Defined.

(** C2 as stated fails: with HTTPS answering 200 the HTTP request is
    still made, and a 404 there is captured and reported. *)
Lemma other_status_on_https_still_requests_http :
  let client := on_https (Returns 200) (Returns 404) in
  let run := check_subdomain webhook_ok "new.example.com" client engine_ok
                             sample_webhook_url tt in
  client "https://new.example.com" = Returns 200
  /\ In (HttpGet "http://new.example.com") (emitted run)
  /\ captures (emitted run) = ["http://new.example.com"]
  /\ alerts (emitted run) = ["http://new.example.com"].
Proof.
  cbv zeta. split; [reflexivity|]. split; [|split; reflexivity].
  vm_compute. intuition.
Qed.

(** C6.  HTTPS is requested first and HTTP, if at all, second.  A
    connection-level failure on HTTPS is printed and the loop goes on to
    HTTP; when HTTP fails the same way no protocol remains and the probe
    ends, having captured and sent nothing. *)
Theorem https_first_and_connection_failure_goes_on :
  forall aiohttp subdomain client browser webhook_url,
    let run := check_subdomain aiohttp subdomain client browser webhook_url tt in
    (requests (emitted run) = [url_of https subdomain]
     \/ requests (emitted run)
        = [url_of https subdomain; url_of http subdomain])
    /\ (connection_failure (client (url_of https subdomain)) ->
        emitted run
        = [Acquire httpx_semaphore; HttpGet (url_of https subdomain);
           Print Stdout (MsgConnectionError (url_of https subdomain));
           Release httpx_semaphore]
          ++ emitted (attempt aiohttp subdomain client browser webhook_url
                              http tt)
        /\ requests (emitted run)
           = [url_of https subdomain; url_of http subdomain]
        /\ (connection_failure (client (url_of http subdomain)) ->
            run
            = Ran (Val tt) tt
                [Acquire httpx_semaphore; HttpGet (url_of https subdomain);
                 Print Stdout (MsgConnectionError (url_of https subdomain));
                 Release httpx_semaphore;
                 Acquire httpx_semaphore; HttpGet (url_of http subdomain);
                 Print Stdout (MsgConnectionError (url_of http subdomain));
                 Release httpx_semaphore])).
Proof.
  intros aiohttp subdomain client browser webhook_url run.
  split; [apply check_subdomain_requests|].
  intro H.
  pose proof (attempt_connection_failure aiohttp subdomain client browser
                webhook_url https tt H) as Ha.
  destruct (check_subdomain_goes_on aiohttp subdomain client browser
              webhook_url Continue) as [He Hr].
  - rewrite Ha. reflexivity.
  - discriminate.
  - subst run. split; [|split].
    + rewrite He, Ha. reflexivity.
    + rewrite He, Ha. cbn [emitted].
      rewrite requests_app, attempt_requests. reflexivity.
    + intro H'.
      pose proof (attempt_connection_failure aiohttp subdomain client browser
                    webhook_url http tt H') as Hb.
      rewrite Hb in He, Hr. rewrite Ha in He. cbn [emitted result] in He, Hr.
      destruct (check_subdomain aiohttp subdomain client browser webhook_url tt)
        as [r [] evs].
      cbn [emitted result] in He, Hr. subst. reflexivity.
Qed.

(** C6 at a concrete input: the connection is refused on both
    protocols. *)
Lemma https_first_and_connection_failure_goes_on_witness :
  check_subdomain webhook_ok "gone.example.com" (always (Raises ConnectError))
                  engine_ok sample_webhook_url tt
  = Ran (Val tt) tt
      [Acquire httpx_semaphore; HttpGet "https://gone.example.com";
       Print Stdout (MsgConnectionError "https://gone.example.com");
       Release httpx_semaphore;
       Acquire httpx_semaphore; HttpGet "http://gone.example.com";
       Print Stdout (MsgConnectionError "http://gone.example.com");
       Release httpx_semaphore].
Proof.
  apply (https_first_and_connection_failure_goes_on webhook_ok
           "gone.example.com" (always (Raises ConnectError)) engine_ok
           sample_webhook_url).
  - left. reflexivity.
  - left. reflexivity.
Defined.

(** C10.  Whenever a probe emits an event of a capture or of an alert,
    it holds one slot of the probe pool before the event and still holds
    it after: the capture slot is taken and given back, and the browser
    and the webhook are used, under the probe slot. *)
Theorem capture_and_alert_under_probe_slot :
  forall aiohttp subdomain client browser webhook_url pre ev post,
    emitted (check_subdomain aiohttp subdomain client browser webhook_url tt)
    = pre ++ ev :: post ->
    capture_or_alert ev = true ->
    held httpx_semaphore pre = 1
    /\ held httpx_semaphore (pre ++ [ev]) = 1.
Proof.
  intros aiohttp subdomain client browser webhook_url pre ev post He Hc.
  pose proof (check_subdomain_disciplined aiohttp subdomain client browser
                                          webhook_url tt) as Hd.
  rewrite He in Hd.
  destruct (disciplined_split _ _ _ Hd) as [h [h' [Hw [Hm _]]]].
  destruct (capture_or_alert_moves _ _ _ Hc Hm) as [Hh Hh'].
  split.
  - rewrite (walk_held httpx_semaphore _ _ Hw). apply level_probe. exact Hh.
  - assert (Hw' : walk Nothing (pre ++ [ev]) = Some h').
    { rewrite walk_app, Hw. simpl. rewrite Hm. reflexivity. }
    rewrite (walk_held httpx_semaphore _ _ Hw'). apply level_probe. exact Hh'.
Qed.

(** C10 at a concrete input: the capture slot is taken under the probe
    slot when HTTPS answers 404. *)
Lemma capture_and_alert_under_probe_slot_witness :
  held httpx_semaphore
    [Acquire httpx_semaphore; HttpGet "https://old.example.com";
     Print Stdout (MsgPotentialTakeover "https://old.example.com");
     CallCapture "https://old.example.com"] = 1
  /\ held httpx_semaphore
       ([Acquire httpx_semaphore; HttpGet "https://old.example.com";
         Print Stdout (MsgPotentialTakeover "https://old.example.com");
         CallCapture "https://old.example.com"]
        ++ [Acquire browser_semaphore]) = 1.
Proof.
  apply (capture_and_alert_under_probe_slot webhook_ok "old.example.com"
           (always (Returns 404)) engine_ok sample_webhook_url
           [Acquire httpx_semaphore; HttpGet "https://old.example.com";
            Print Stdout (MsgPotentialTakeover "https://old.example.com");
            CallCapture "https://old.example.com"]
           (Acquire browser_semaphore)
           [Print Stdout (MsgAttemptScreenshot "https://old.example.com");
            NewContext true; NewPage true; Goto "https://old.example.com" true;
            Screenshot true;
            Print Stdout (MsgScreenshotCaptured "https://old.example.com");
            PageClose true; ContextClose true; Release browser_semaphore;
            CallAlert "https://old.example.com";
            HttpPost "https://discord.example/api/webhooks/1"
                     (payload_json "https://old.example.com") sample_png true;
            Print Stdout (MsgDiscordSent "https://old.example.com");
            Release httpx_semaphore]).
  - reflexivity.
  - reflexivity.
Defined.

(** ** Claims about the pools *)

(** *** Operations in flight

    The operations of a pool are counted by what the tasks are doing,
    not by the slots they hold: that every operation is made under a
    slot is what the code has to show. *)

Lemma held_quiet s evs :
  only quiet evs -> forall n, fold_left (held_after s) evs n = n.
Proof.
  induction 1 as [|ev evs Hev _ IH]; intro n; [reflexivity|].
  cbn [fold_left]. rewrite IH.
  destruct ev; try discriminate Hev; reflexivity.
Qed.

Lemma first_ready_moves v ts v' ts' :
  first_ready v ts = Some (v', ts') ->
  exists before t after ev rest,
    ts = before ++ t :: after
    /\ todo t = ev :: rest
    /\ enabled v ev = true
    /\ v' = effect v ev
    /\ ts' = before ++ {| done := done t ++ [ev]; todo := rest |} :: after.
Proof.
  revert ts'. induction ts as [|t later IH]; intros ts' H;
    cbn [first_ready] in H; [discriminate H|].
  cbv zeta in H.
  assert (W : match first_ready v later with
              | Some (v', later') => Some (v', t :: later')
              | None => None
              end = Some (v', ts') ->
              exists before t0 after ev rest,
                t :: later = before ++ t0 :: after
                /\ todo t0 = ev :: rest
                /\ enabled v ev = true
                /\ v' = effect v ev
                /\ ts' = before
                         ++ {| done := done t0 ++ [ev]; todo := rest |}
                         :: after).
  { destruct (first_ready v later) as [[v1 later1]|]; [|discriminate].
    intro K. injection K as -> <-.
    destruct (IH later1 eq_refl)
      as [before [t0 [after [ev [rest [E1 [E2 [E3 [E4 E5]]]]]]]]].
    exists (t :: before), t0, after, ev, rest.
    subst. auto. }
  destruct (todo t) as [|ev rest] eqn:Et; [exact (W H)|].
  destruct (enabled v ev) eqn:Ee; [|exact (W H)].
  injection H as <- <-.
  exists [], t, later, ev, rest. auto.
Qed.

Lemma round_steps st :
  round st = st \/ step st (round st).
Proof.
  unfold round. destruct st as [v ts]. cbn [value tasks].
  destruct (first_ready v ts) as [[v' ts']|] eqn:E; [right | left; reflexivity].
  destruct (first_ready_moves v ts v' ts' E)
    as [before [t [after [ev [rest [-> [Ht [He [-> ->]]]]]]]]].
  apply step_task with (ev := ev) (rest := rest); assumption.
Qed.

Lemma rounds_reachable init n : forall st,
  reachable init st -> reachable init (rounds n st).
Proof.
  induction n as [|n IH]; intros st H; cbn [rounds]; [exact H|].
  apply IH. destruct (round_steps st) as [->|Hs]; [exact H|].
  apply reachable_step with (st := st); assumption.
Qed.

Lemma guarded_app P s a : forall n b,
  guarded P s n (a ++ b)
  = guarded P s n a && guarded P s (fold_left (held_after s) a n) b.
Proof.
  induction a as [|ev a IH]; intros n b; cbn [app guarded fold_left].
  - reflexivity.
  - rewrite IH, andb_assoc. reflexivity.
Qed.

Lemma sheltered_nil P s : sheltered P s [].
Proof. split; reflexivity. Qed.

Lemma sheltered_app P s a b :
  sheltered P s a -> sheltered P s b -> sheltered P s (a ++ b).
Proof.
  unfold sheltered, held. intros [Ga Ha] [Gb Hb].
  rewrite guarded_app, fold_left_app, Ha, Ga, Gb, Hb. split; reflexivity.
Qed.

Lemma sheltered_outside ev :
  outside_capture ev = true ->
  sheltered browser_call browser_semaphore [ev].
Proof.
  unfold outside_capture, sheltered, held. intro H.
  apply andb_true_iff in H. destruct H as [Hb Hs].
  cbn [guarded fold_left]. destruct (browser_call ev); [discriminate Hb|].
  destruct ev; try (split; reflexivity);
    destruct s; try discriminate Hs; split; reflexivity.
Qed.

(** Under the capture slot, events that touch no semaphore keep it. *)
Lemma guarded_quiet P s evs :
  only quiet evs -> guarded P s 1 evs = true.
Proof.
  induction 1 as [|ev evs Hev _ IH]; [reflexivity|].
  cbn [guarded].
  replace (held_after s 1 ev) with 1
    by (destruct ev; try discriminate Hev; reflexivity).
  rewrite IH. destruct (P ev); reflexivity.
Qed.

Lemma take_screenshot_sheltered {S} browser url :
  emits (sheltered browser_call browser_semaphore)
    (@take_screenshot S browser url).
Proof.
  intro s.
  destruct (take_screenshot_shape browser url s) as [inner [-> Hq]].
  unfold sheltered, held.
  cbn [guarded fold_left held_after semaphore_eqb browser_call andb].
  rewrite guarded_app, fold_left_app, (held_quiet _ _ Hq),
    (guarded_quiet _ _ _ Hq).
  split; reflexivity.
Qed.

Lemma send_to_discord_sheltered {S} aiohttp webhook_url url shot :
  emits (sheltered browser_call browser_semaphore)
    (@send_to_discord aiohttp S webhook_url url shot).
Proof.
  unfold send_to_discord.
  repeat emits_step (sheltered_nil browser_call browser_semaphore)
                    (sheltered_app browser_call browser_semaphore)
                    sheltered_outside.
Qed.

Lemma sheltered_async_with_probe {S A} (m : M S A) :
  emits (sheltered browser_call browser_semaphore) m ->
  emits (sheltered browser_call browser_semaphore)
    (async_with httpx_semaphore m).
Proof.
  intros Hm s. unfold async_with. cbn [emitted].
  change (Acquire httpx_semaphore :: ?x)
    with ([Acquire httpx_semaphore] ++ x).
  apply sheltered_app; [apply sheltered_outside; reflexivity|].
  apply sheltered_app; [apply Hm | apply sheltered_outside; reflexivity].
Qed.

Lemma attempt_sheltered aiohttp subdomain client browser webhook_url proto :
  emits (sheltered browser_call browser_semaphore)
    (attempt aiohttp subdomain client browser webhook_url proto).
Proof.
  unfold attempt. apply sheltered_async_with_probe.
  repeat first
    [ apply take_screenshot_sheltered
    | apply send_to_discord_sheltered
    | emits_step (sheltered_nil browser_call browser_semaphore)
                 (sheltered_app browser_call browser_semaphore)
                 sheltered_outside ].
Qed.

Lemma check_subdomain_sheltered
    aiohttp subdomain client browser webhook_url s :
  sheltered browser_call browser_semaphore
    (emitted (check_subdomain aiohttp subdomain client browser webhook_url
                s)).
Proof.
  unfold check_subdomain. generalize protocols. intro protos.
  revert s. induction protos as [|proto rest IH]; intro s.
  - apply sheltered_nil.
  - cbn [for_each_protocol]. rewrite emitted_bind.
    pose proof (attempt_sheltered aiohttp subdomain client browser
                  webhook_url proto s) as Ha.
    destruct (result (attempt aiohttp subdomain client browser webhook_url
                        proto s)) as [[| |]|e].
    + apply sheltered_app; [exact Ha | apply sheltered_nil].
    + apply sheltered_app; [exact Ha | apply IH].
    + apply sheltered_app; [exact Ha | apply IH].
    + exact Ha.
Qed.

(** A task at a call of the browser engine holds a capture slot. *)
Lemma capture_in_flight_holds_slot jobs st t :
  runs jobs st -> In t (tasks st) ->
  at_operation browser_call t = true ->
  held browser_semaphore (done t) = 1.
Proof.
  unfold runs. intros Hr Hin Hat.
  assert (Hs : sheltered browser_call browser_semaphore (done t ++ todo t)).
  { induction Hr as [|j t' js ts Hjt _ IH]; [contradiction|].
    destruct Hin as [->|Hin]; [|exact (IH Hin)].
    rewrite Hjt. unfold job_events. apply check_subdomain_sheltered. }
  unfold at_operation in Hat.
  destruct (todo t) as [|ev rest]; [discriminate Hat|].
  destruct Hs as [G _]. rewrite guarded_app in G.
  apply andb_true_iff in G. destruct G as [_ G].
  cbn [guarded] in G. rewrite Hat in G.
  apply andb_true_iff in G. destruct G as [G _].
  apply Nat.eqb_eq in G. exact G.
Qed.

(** A task at a request of the HTTP client holds a probe slot. *)
Lemma request_in_flight_holds_slot jobs st t :
  runs jobs st -> In t (tasks st) ->
  at_operation is_get t = true ->
  held httpx_semaphore (done t) = 1.
Proof.
  intros Hr Hin Hat.
  destruct (task_position jobs st t Hr Hin) as [h [Hw Hnext]].
  rewrite (walk_held httpx_semaphore _ _ Hw).
  unfold at_operation in Hat.
  destruct (todo t) as [|ev rest]; [discriminate Hat|].
  destruct Hnext as [h' Hm].
  destruct ev; try discriminate Hat.
  destruct h; [discriminate Hm | reflexivity | reflexivity].
Qed.

Lemma operations_le_in_flight P s st :
  (forall t, In t (tasks st) -> at_operation P t = true ->
             held s (done t) = 1) ->
  operations P st <= in_flight s st.
Proof.
  unfold operations, in_flight.
  induction (tasks st) as [|t ts IH]; intro H; [apply Nat.le_refl|].
  cbn [filter map].
  change (list_sum (?x :: ?l)) with (x + list_sum l).
  assert (IH' : List.length (filter (at_operation P) ts)
                <= list_sum (map (fun t0 => held s (done t0)) ts))
    by (apply IH; intros t0 Hin; apply H; right; exact Hin).
  destruct (at_operation P t) eqn:E.
  - rewrite (H t (or_introl eq_refl) E). cbn [List.length]. lia.
  - lia.
Qed.

(** C8.  In every state the event loop can reach from the start of the
    probes, whatever the candidates and the answers they get, the
    requests of the HTTP client in flight are at most
    [HTTPX_CONCURRENCY] and the calls of the browser engine in flight at
    most [SCREENSHOT_CONCURRENCY]: a task at a request holds a probe
    slot, a task at a call of the browser engine holds a capture slot,
    and the slots held never exceed the capacity.  Waiting for a slot
    changes nothing in a task: each task remains the run of its probe,
    and as long as a task has something left to do some task can take a
    step, so that no acquisition fails or waits for ever in a loop that
    keeps running its tasks. *)
Theorem pools_never_exceed_capacity :
  forall jobs st,
    reachable (start jobs) st ->
    operations is_get st <= HTTPX_CONCURRENCY
    /\ operations browser_call st <= SCREENSHOT_CONCURRENCY
    /\ (forall t, In t (tasks st) ->
          (at_operation is_get t = true ->
           held httpx_semaphore (done t) = 1)
          /\ (at_operation browser_call t = true ->
              held browser_semaphore (done t) = 1))
    /\ in_flight httpx_semaphore st <= HTTPX_CONCURRENCY
    /\ in_flight browser_semaphore st <= SCREENSHOT_CONCURRENCY
    /\ runs jobs st
    /\ ((exists t, In t (tasks st) /\ todo t <> []) ->
        exists st', step st st').
Proof.
  intros jobs st Hreach.
  destruct (reachable_invariant jobs st Hreach) as [Hr Hb].
  assert (Hp : in_flight httpx_semaphore st <= HTTPX_CONCURRENCY)
    by (pose proof (Hb httpx_semaphore) as H; simpl in H; lia).
  assert (Hc : in_flight browser_semaphore st <= SCREENSHOT_CONCURRENCY)
    by (pose proof (Hb browser_semaphore) as H; simpl in H; lia).
  repeat split; try assumption.
  - apply Nat.le_trans with (m := in_flight httpx_semaphore st);
      [|exact Hp].
    apply operations_le_in_flight. intros t Hin.
    apply (request_in_flight_holds_slot jobs st t Hr Hin).
  - apply Nat.le_trans with (m := in_flight browser_semaphore st);
      [|exact Hc].
    apply operations_le_in_flight. intros t Hin.
    apply (capture_in_flight_holds_slot jobs st t Hr Hin).
  - apply (request_in_flight_holds_slot jobs st t Hr H).
  - apply (capture_in_flight_holds_slot jobs st t Hr H).
  - intros [t [Hin Hne]].
    destruct (unfinished_finds_runner jobs st t Hr Hb Hin Hne)
      as [t' [Hin' Hc']].
    apply (can_run_steps st t' Hin' Hc').
Qed.

(** C8 at a concrete input: the first of the two sample probes is at
    [browser.new_context], inside its capture, and the second has not
    started. *)
Lemma pools_never_exceed_capacity_witness :
  let st := rounds 6 (start sample_jobs) in
  operations browser_call st = 1
  /\ operations browser_call st <= SCREENSHOT_CONCURRENCY
  /\ operations is_get st <= HTTPX_CONCURRENCY
  /\ in_flight browser_semaphore st <= SCREENSHOT_CONCURRENCY
  /\ exists st', step st st'.
Proof.
  destruct (pools_never_exceed_capacity sample_jobs
              (rounds 6 (start sample_jobs))
              (rounds_reachable _ 6 _ (reachable_start _)))
    as [Hg [Hc [_ [_ [Hb [_ Hs]]]]]].
  split; [reflexivity|]. split; [exact Hc|]. split; [exact Hg|].
  split; [exact Hb|].
  apply Hs. eexists. split; [left; reflexivity | discriminate].
Defined.

(** ** How a computation ends

    A property of results that holds of every returned value and of
    every [Exception] holds of the result of a computation as soon as it
    holds of the results of its parts: only [sys.exit] ends a
    computation with a [SystemExit]. *)

Lemma ends_ret {S A} (a : A) : ends_without_exit (@ret S A a).
Proof. intros s c H. discriminate H. Qed.

Lemma ends_raise_error {S A} (e : error) :
  ends_without_exit (@raise S A (Error e)).
Proof. intros s c H. discriminate H. Qed.

Lemma ends_get {S} : ends_without_exit (@get S).
Proof. intros s c H. discriminate H. Qed.

Lemma ends_put {S} (s0 : S) : ends_without_exit (put s0).
Proof. intros s c H. discriminate H. Qed.

Lemma ends_emit {S} (ev : event) : ends_without_exit (@emit S ev).
Proof. intros s c H. discriminate H. Qed.

Lemma ends_print {S} to m : ends_without_exit (@print S to m).
Proof. apply ends_emit. Qed.

Lemma ends_external {S A} ev (o : outcome A) :
  ends_without_exit (@external S A ev o).
Proof. intros s c. unfold external. destruct o; simpl; discriminate. Qed.

Lemma ends_bind {S A B} (m : M S A) (k : A -> M S B) :
  ends_without_exit m -> (forall a, ends_without_exit (k a)) ->
  ends_without_exit (bind m k).
Proof.
  intros Hm Hk s c. rewrite result_bind.
  destruct (result (m s)) as [a|e] eqn:E.
  - apply Hk.
  - intro H. injection H as ->. apply (Hm s c E).
Qed.

Lemma ends_try_except {S A} (body : M S A) handler :
  ends_without_exit body ->
  (forall e h, handler e = Some h -> ends_without_exit h) ->
  ends_without_exit (try_except body handler).
Proof.
  intros Hb Hh s c. unfold try_except.
  destruct (result (body s)) as [a|[e|c']] eqn:E.
  - rewrite E. discriminate.
  - destruct (handler e) as [h|] eqn:Eh.
    + simpl. apply (Hh e h Eh).
    + rewrite E. discriminate.
  - exfalso. apply (Hb s c'). exact E.
Qed.

Lemma ends_try_finally {S A} (body : M S A) cleanup :
  ends_without_exit body -> ends_without_exit cleanup ->
  ends_without_exit (try_finally body cleanup).
Proof.
  intros Hb Hc s c. unfold try_finally. simpl.
  destruct (result (cleanup (locals (body s)))) as [u|e] eqn:E.
  - apply Hb.
  - intro H. injection H as ->. apply (Hc _ c E).
Qed.

Lemma ends_async_with {S A} sem (body : M S A) :
  ends_without_exit body -> ends_without_exit (async_with sem body).
Proof. intros Hb s c. unfold async_with. simpl. apply Hb. Qed.

Lemma ends_call {S S' A} (fresh : S') (body : M S' A) :
  ends_without_exit body -> ends_without_exit (@call S S' A fresh body).
Proof. intros Hb s c. unfold call. simpl. apply Hb. Qed.

Ltac ends_step :=
  first
    [ apply ends_ret
    | apply ends_raise_error
    | apply ends_get
    | apply ends_put
    | apply ends_print
    | apply ends_emit
    | apply ends_external
    | apply ends_bind; [ | intro ]
    | apply ends_try_except; [ | emits_handler ]
    | apply ends_try_finally
    | apply ends_async_with
    | apply ends_call
    | match goal with
      | |- ends_without_exit (match ?x with _ => _ end) => destruct x
      end ].

Lemma take_screenshot_no_exit {S} browser url :
  ends_without_exit (@take_screenshot S browser url).
Proof. unfold take_screenshot, close_page. repeat ends_step. Qed.

Lemma send_to_discord_no_exit {S} aiohttp webhook_url url shot :
  ends_without_exit (@send_to_discord aiohttp S webhook_url url shot).
Proof. unfold send_to_discord. repeat ends_step. Qed.

Lemma attempt_no_exit aiohttp subdomain client browser webhook_url proto :
  ends_without_exit
    (attempt aiohttp subdomain client browser webhook_url proto).
Proof.
  unfold attempt.
  repeat first
    [ apply take_screenshot_no_exit
    | apply send_to_discord_no_exit
    | ends_step ].
Qed.

Lemma check_subdomain_no_exit aiohttp subdomain client browser webhook_url :
  ends_without_exit
    (check_subdomain aiohttp subdomain client browser webhook_url).
Proof.
  unfold check_subdomain.
  induction protocols as [|proto rest IH]; cbn [for_each_protocol].
  - apply ends_ret.
  - apply ends_bind; [apply attempt_no_exit|].
    intros [| |]; [apply ends_ret | exact IH | exact IH].
Qed.

(** ** The orchestrator *)

Lemma schedule_checks_valid subdomains :
  emits (only task_is_valid) (schedule_checks subdomains).
Proof.
  induction subdomains as [|sub rest IH]; cbn [schedule_checks].
  - apply emits_ret. apply only_nil.
  - apply emits_bind; [apply only_app | | intro; exact IH].
    destruct (skipped sub) eqn:E.
    + apply emits_ret. apply only_nil.
    + apply emits_bind; [apply only_app | | intro].
      * apply emits_emit. apply only_one. simpl. rewrite E. reflexivity.
      * unfold set_tasks.
        repeat emits_step (only_nil task_is_valid) (only_app task_is_valid)
                          (only_one task_is_valid).
Qed.

Lemma run_rapiddns_valid {S} rapiddns domain :
  emits (only task_is_valid) (@run_rapiddns rapiddns S domain).
Proof. unfold run_rapiddns. emits_only_through task_is_valid. Qed.

Lemma enumerate_domains_valid rapiddns target_domains :
  emits (only task_is_valid) (enumerate_domains rapiddns target_domains).
Proof.
  induction target_domains as [|domain rest IH]; cbn [enumerate_domains].
  - apply emits_ret. apply only_nil.
  - apply emits_bind; [apply only_app | apply run_rapiddns_valid | intro subs].
    apply emits_bind; [apply only_app | | intro; exact IH].
    destruct subs.
    + apply emits_ret. apply only_nil.
    + apply schedule_checks_valid.
Qed.

Lemma gather_valid {S} aiohttp w tasks :
  emits (only task_is_valid) (@gather aiohttp S w tasks).
Proof. unfold gather. emits_only_through task_is_valid. Qed.

Lemma main_valid aiohttp rapiddns w :
  emits (only task_is_valid) (main aiohttp rapiddns w).
Proof.
  unfold main, scan, set_browser, set_tasks, awaited.
  repeat first
    [ apply enumerate_domains_valid
    | apply gather_valid
    | emits_step (only_nil task_is_valid) (only_app task_is_valid)
                 (only_one task_is_valid) ].
Qed.

Lemma probed_in sub evs : In sub (probed evs) <-> In (CreateTask sub) evs.
Proof.
  unfold probed. rewrite in_flat_map. split.
  - intros [ev [Hin Hsub]]. destruct ev; try contradiction.
    destruct Hsub as [->|[]]. exact Hin.
  - intro Hin. exists (CreateTask sub). split; [exact Hin | left; reflexivity].
Qed.

(** *** The validation against the words of the specification *)

Lemma rev_onto_app a b acc :
  Py.rev_onto (a ++ b)%string acc = Py.rev_onto b (Py.rev_onto a acc).
Proof.
  revert acc. induction a as [|c a IH]; intro acc; simpl.
  - reflexivity.
  - apply IH.
Qed.

Lemma contains_dot sub :
  Py.contains "." sub = true -> In "."%char (list_ascii_of_string sub).
Proof.
  induction sub as [|c sub IH].
  - discriminate.
  - cbn [Py.contains String.prefix list_ascii_of_string].
    destruct (ascii_dec "." c) as [<-|Hne].
    + intros _. left. reflexivity.
    + cbn [orb]. intro H. right. apply IH. exact H.
Qed.

Lemma malformed_skipped sub : malformed sub -> skipped sub = true.
Proof.
  unfold skipped. intros [->|[Hno|[[rest ->]|[front ->]]]].
  - reflexivity.
  - destruct (Py.contains "." sub) eqn:E.
    + contradiction Hno. apply contains_dot. exact E.
    + simpl. rewrite orb_true_r. reflexivity.
  - replace (Py.startswith (String "."%char rest) ".") with true.
    + rewrite orb_true_r. reflexivity.
    + unfold Py.startswith. cbn [String.prefix].
      destruct (ascii_dec "." ".") as [_|n]; [|contradiction n; reflexivity].
      destruct rest; reflexivity.
  - replace (Py.endswith (front ++ ".") ".") with true.
    + rewrite orb_true_r. reflexivity.
    + unfold Py.endswith, Py.reversed. rewrite rev_onto_app.
      cbn [Py.rev_onto String.prefix].
      destruct (ascii_dec "." ".") as [_|n]; [|contradiction n; reflexivity].
      destruct (Py.rev_onto front ""); reflexivity.
Qed.

(** C7.  A malformed candidate is skipped by the validation of [main]:
    no task is created for it in any run, so [check_subdomain] is never
    called on it, and skipping it leaves no trace at all, neither an
    event nor a change of state, so that nothing counts it as a
    failure. *)
Theorem malformed_candidates_are_never_probed :
  forall aiohttp rapiddns w sub,
    malformed sub ->
    skipped sub = true
    /\ ~ In sub (probed (main_events aiohttp rapiddns w))
    /\ (forall rest s,
          schedule_checks (sub :: rest) s = schedule_checks rest s).
Proof.
  intros aiohttp rapiddns w sub Hm.
  pose proof (malformed_skipped sub Hm) as Hs.
  split; [exact Hs|]. split.
  - rewrite probed_in. intro Hin.
    pose proof (main_valid aiohttp rapiddns w
                  {| browser := false; all_subdomain_check_tasks := [] |}) as Hv.
    unfold only in Hv. rewrite Forall_forall in Hv.
    specialize (Hv _ Hin). simpl in Hv. rewrite Hs in Hv. discriminate Hv.
  - intros rest s. cbn [schedule_checks]. rewrite Hs.
    unfold bind, ret. cbn [result locals emitted app].
    destruct (schedule_checks rest s) as [r l evs]. reflexivity.
Qed.

(** C7 at a concrete input: a name with a leading dot, which the sample
    tool does report. *)
Lemma malformed_candidates_are_never_probed_witness :
  skipped ".example.com" = true
  /\ ~ In ".example.com"
          (probed (main_events webhook_ok rapiddns_finds sample_world))
  /\ (forall rest s,
        schedule_checks (".example.com" :: rest) s = schedule_checks rest s).
Proof.
  apply (malformed_candidates_are_never_probed webhook_ok rapiddns_finds
           sample_world ".example.com").
  right. right. left. exists "example.com". reflexivity.
Defined.

(** The sample run creates tasks for the two well-formed names only. *)
Example sample_world_probes :
  probed (main_events webhook_ok rapiddns_finds sample_world)
  = ["old.example.com"; "new.example.com"].
Proof. vm_compute. reflexivity. Qed.

(** ** Enumeration *)

Section Enumeration.

Variable rapiddns : string -> outcome (Z * string * string).

(** [run_rapiddns] asks the tool about its own domain only. *)
Lemma run_rapiddns_asks_once {S} domain (s : S) :
  run_rapiddns rapiddns domain s
  = run_rapiddns (fun _ => rapiddns domain) domain s.
Proof. reflexivity. Qed.

Lemma run_rapiddns_nonzero_exit {S} domain returncode stdout stderr (s : S) :
  rapiddns domain = Returns (returncode, stdout, stderr) ->
  returncode <> 0%Z ->
  run_rapiddns rapiddns domain s
  = Ran (Val []) s
        [Print Stdout (MsgEnumerating domain);
         Subprocess [RAPIDDNS_PATH; "-s"; domain] true;
         Print Stderr (MsgRapiddnsError domain (Py.strip stderr))].
Proof.
  intros H Hrc. rewrite run_rapiddns_asks_once, H.
  destruct returncode; [contradiction Hrc; reflexivity | | ]; reflexivity.
Qed.

Lemma run_rapiddns_not_found {S} domain (s : S) :
  rapiddns domain = Raises FileNotFoundError ->
  run_rapiddns rapiddns domain s
  = Ran (Exc (SystemExit 1)) s
        [Print Stdout (MsgEnumerating domain);
         Subprocess [RAPIDDNS_PATH; "-s"; domain] false;
         Print Stderr MsgRapiddnsNotFound].
Proof.
  intro H. rewrite run_rapiddns_asks_once, H. reflexivity.
Qed.

Lemma run_rapiddns_returns {S} domain (s : S) :
  tool_not_found rapiddns domain = false ->
  exists subdomains, result (run_rapiddns rapiddns domain s) = Val subdomains.
Proof.
  unfold tool_not_found. intro H. rewrite run_rapiddns_asks_once.
  destruct (rapiddns domain) as [[[returncode stdout] stderr]|e].
  - destruct returncode;
      [ cbv -[Py.strip Py.truthy Py.splitlines Py.set_update nonempty_stripped];
        destruct (Py.truthy (Py.strip stdout))
      | | ];
      eexists; reflexivity.
  - destruct e; try discriminate H; eexists; reflexivity.
Qed.

Lemma schedule_checks_returns subdomains s :
  result (schedule_checks subdomains s) = Val tt.
Proof.
  revert s. induction subdomains as [|sub rest IH]; intro s;
    cbn [schedule_checks].
  - reflexivity.
  - rewrite result_bind.
    destruct (skipped sub); cbn; apply IH.
Qed.

Lemma enumerate_domains_result target_domains s :
  result (enumerate_domains rapiddns target_domains s)
  = if existsb (tool_not_found rapiddns) target_domains
    then Exc (SystemExit 1) else Val tt.
Proof.
  revert s. induction target_domains as [|domain rest IH]; intro s;
    cbn [enumerate_domains existsb].
  - reflexivity.
  - rewrite result_bind.
    destruct (tool_not_found rapiddns domain) eqn:E.
    + unfold tool_not_found in E.
      destruct (rapiddns domain) as [|e] eqn:Er; [discriminate|].
      destruct e; try discriminate E.
      rewrite (run_rapiddns_not_found domain s Er). reflexivity.
    + destruct (run_rapiddns_returns domain s E) as [subs ->].
      rewrite result_bind. cbn [orb].
      destruct subs as [|sub subs'].
      * cbn [ret result locals]. apply IH.
      * rewrite schedule_checks_returns. apply IH.
Qed.

Lemma enumerate_domains_nonzero_exit
    domain rest returncode stdout stderr s :
  rapiddns domain = Returns (returncode, stdout, stderr) ->
  returncode <> 0%Z ->
  let after := enumerate_domains rapiddns rest s in
  enumerate_domains rapiddns (domain :: rest) s
  = Ran (result after) (locals after)
        ([Print Stdout (MsgEnumerating domain);
          Subprocess [RAPIDDNS_PATH; "-s"; domain] true;
          Print Stderr (MsgRapiddnsError domain (Py.strip stderr))]
         ++ emitted after).
Proof.
  intros H Hrc after. cbn [enumerate_domains].
  unfold bind at 1.
  rewrite (run_rapiddns_nonzero_exit domain returncode stdout stderr s H Hrc).
  cbn [result locals emitted].
  unfold bind, ret. cbn [result locals emitted].
  subst after. destruct (enumerate_domains rapiddns rest s) as [r l evs].
  cbn [result locals emitted]. destruct r; reflexivity.
Qed.

Lemma enumerate_domains_not_found domain rest s :
  rapiddns domain = Raises FileNotFoundError ->
  enumerate_domains rapiddns (domain :: rest) s
  = Ran (Exc (SystemExit 1)) s
        [Print Stdout (MsgEnumerating domain);
         Subprocess [RAPIDDNS_PATH; "-s"; domain] false;
         Print Stderr MsgRapiddnsNotFound].
Proof.
  intro H. cbn [enumerate_domains]. unfold bind at 1.
  rewrite (run_rapiddns_not_found domain s H). reflexivity.
Qed.

End Enumeration.

(** ** Local variables and tasks along the enumeration *)

Lemma locals_call {S S' A} (fresh : S') (body : M S' A) (s : S) :
  locals (call fresh body s) = s.
Proof. reflexivity. Qed.

Lemma locals_bind {S A B} (m : M S A) (k : A -> M S B) s :
  locals (bind m k s)
  = match result (m s) with
    | Val a => locals (k a (locals (m s)))
    | Exc _ => locals (m s)
    end.
Proof. unfold bind. destruct (result (m s)); reflexivity. Qed.

Lemma locals_try_except {S A} (body : M S A) handler s :
  locals (try_except body handler s)
  = match result (body s) with
    | Exc (Error e) =>
        match handler e with
        | Some h => locals (h (locals (body s)))
        | None => locals (body s)
        end
    | _ => locals (body s)
    end.
Proof.
  unfold try_except.
  destruct (result (body s)) as [a|[e|c]]; try reflexivity.
  destruct (handler e); reflexivity.
Qed.

Lemma probed_app a b : probed (a ++ b) = probed a ++ probed b.
Proof. unfold probed. apply flat_map_app. Qed.

Lemma spawned_app a b : spawned (a ++ b) = spawned a ++ spawned b.
Proof. unfold spawned. apply flat_map_app. Qed.

Lemma emitted_try_finally {S A} (body : M S A) cleanup s :
  emitted (try_finally body cleanup s)
  = emitted (body s) ++ emitted (cleanup (locals (body s))).
Proof. reflexivity. Qed.

Section Tasks.

Variable rapiddns : string -> outcome (Z * string * string).

Lemma schedule_checks_locals subdomains : forall s,
  let r := schedule_checks subdomains s in
  browser (locals r) = browser s
  /\ all_subdomain_check_tasks (locals r)
     = all_subdomain_check_tasks s ++ probed (emitted r)
  /\ spawned (emitted r) = [].
Proof.
  induction subdomains as [|sub rest IH]; intro s; cbv zeta;
    cbn [schedule_checks].
  - cbn. rewrite app_nil_r. auto.
  - rewrite locals_bind, emitted_bind.
    destruct (skipped sub).
    + cbn [ret result locals emitted app]. apply IH.
    + cbn [bind emit get set_tasks put ret result locals emitted app].
      match goal with
      | |- context [schedule_checks rest ?s1] =>
          destruct (IH s1) as [Hb [Ht Hs]]
      end.
      cbn [browser all_subdomain_check_tasks] in Hb, Ht.
      rewrite Hb, Ht, <- app_assoc. cbn [probed spawned flat_map app].
      fold (probed (emitted (schedule_checks rest
             {| browser := browser s;
                all_subdomain_check_tasks :=
                  all_subdomain_check_tasks s ++ [sub] |}))).
      auto.
Qed.

Lemma run_rapiddns_spawned {S} domain (s : S) :
  let r := run_rapiddns rapiddns domain s in
  spawned (emitted r) = [[RAPIDDNS_PATH; "-s"; domain]]
  /\ probed (emitted r) = [].
Proof.
  cbv zeta. rewrite run_rapiddns_asks_once.
  destruct (rapiddns domain) as [[[returncode stdout] stderr]|e].
  - destruct returncode;
      [ cbv -[Py.strip Py.truthy Py.splitlines Py.set_update nonempty_stripped];
        destruct (Py.truthy (Py.strip stdout))
      | | ];
      split; reflexivity.
  - destruct e; split; reflexivity.
Qed.

Lemma enumerate_domains_locals target_domains : forall s,
  let r := enumerate_domains rapiddns target_domains s in
  browser (locals r) = browser s
  /\ all_subdomain_check_tasks (locals r)
     = all_subdomain_check_tasks s ++ probed (emitted r).
Proof.
  induction target_domains as [|domain rest IH]; intro s; cbv zeta;
    cbn [enumerate_domains].
  - cbn. rewrite app_nil_r. auto.
  - rewrite locals_bind, emitted_bind.
    destruct (run_rapiddns_spawned domain s) as [_ Hp]. cbv zeta in Hp.
    pose proof (@locals_call main_locals (list string)) as Hl.
    assert (L : locals (run_rapiddns rapiddns domain s) = s)
      by apply locals_call.
    rewrite L.
    destruct (result (run_rapiddns rapiddns domain s)) as [subs|e].
    2: { rewrite Hp, app_nil_r. auto. }
    rewrite locals_bind, emitted_bind, probed_app, Hp. cbn [app].
    destruct subs as [|sub subs].
    + cbn [ret result locals emitted app]. apply IH.
    + assert (R : result (schedule_checks (sub :: subs) s) = Val tt)
        by apply schedule_checks_returns.
      rewrite R.
      destruct (schedule_checks_locals (sub :: subs) s) as [Hb [Ht _]].
      cbv zeta in Hb, Ht.
      match goal with
      | |- context [enumerate_domains rapiddns rest ?s1] =>
          destruct (IH s1) as [Hb' Ht']
      end.
      rewrite Hb', Ht', Hb, Ht, probed_app, app_assoc. auto.
Qed.

End Tasks.

(** ** How [main] ends *)

Lemma result_try_except {S A} (body : M S A) handler s :
  result (try_except body handler s)
  = match result (body s) with
    | Exc (Error e) =>
        match handler e with
        | Some h => result (h (locals (body s)))
        | None => Exc (Error e)
        end
    | r => r
    end.
Proof.
  unfold try_except.
  destruct (result (body s)) as [a|[e|c]] eqn:E; try exact E.
  destruct (handler e); [reflexivity | exact E].
Qed.

Lemma result_try_finally {S A} (body : M S A) cleanup s :
  result (try_finally body cleanup s)
  = match result (cleanup (locals (body s))) with
    | Val _ => result (body s)
    | Exc e => Exc e
    end.
Proof. reflexivity. Qed.

Lemma set_browser_run b s :
  set_browser b s
  = Ran (Val tt)
        {| browser := b;
           all_subdomain_check_tasks := all_subdomain_check_tasks s |} [].
Proof. reflexivity. Qed.

Lemma set_tasks_run tasks s :
  set_tasks tasks s
  = Ran (Val tt) {| browser := browser s; all_subdomain_check_tasks := tasks |} [].
Proof. reflexivity. Qed.

Lemma first_raised_not_exit aiohttp w tasks code :
  first_raised aiohttp w tasks <> Some (SystemExit code).
Proof.
  induction tasks as [|sub rest IH]; cbn [first_raised fold_right].
  - discriminate.
  - destruct (result (check_subdomain aiohttp sub (client w) (browser_engine w)
                                      (DISCORD_WEBHOOK_URL w) tt))
      as [u|e] eqn:E.
    + exact IH.
    + intro H. injection H as ->.
      apply (check_subdomain_no_exit aiohttp sub (client w) (browser_engine w)
               (DISCORD_WEBHOOK_URL w) tt code E).
Qed.

Lemma gather_result {S} aiohttp w tasks (s : S) :
  result (gather aiohttp w tasks s)
  = match first_raised aiohttp w tasks with
    | Some e => Exc e
    | None => Val tt
    end.
Proof.
  unfold gather. rewrite result_bind. cbn [emit result locals].
  destruct (first_raised aiohttp w tasks); reflexivity.
Qed.

(** How the scan ends.  An exception of entering the context managers
    or of [browser.close()] leaves [main]; otherwise the scan ends with
    [SystemExit(1)] exactly when the browser was launched and the tool
    is missing for one of the domains, and returns in every other
    case. *)
Lemma scan_result aiohttp rapiddns w target_domains s :
  result (scan aiohttp rapiddns w target_domains s)
  = match contexts w with
    | Raises e => Exc (Error e)
    | Returns _ =>
        match launch w with
        | Raises _ => Val tt
        | Returns _ =>
            match browser_close w with
            | Raises e => Exc (Error e)
            | Returns _ =>
                if existsb (tool_not_found rapiddns) target_domains
                then Exc (SystemExit 1) else Val tt
            end
        end
    end.
Proof.
  unfold scan.
  rewrite result_bind.
  assert (Hw : forall s0 : main_locals,
             result ((if webhook_invalid w
                      then print Stderr MsgInvalidWebhook else ret tt) s0)
             = Val tt) by (intro; destruct (webhook_invalid w); reflexivity).
  rewrite Hw.
  rewrite result_bind. cbn [print emit result locals].
  rewrite result_bind. unfold awaited at 1.
  destruct (contexts w) as [[]|ec]; cbn [ret raise result locals];
    [|reflexivity].
  rewrite result_bind, set_browser_run. cbn [result locals].
  rewrite result_bind, result_try_finally.
  match goal with
  | |- context [try_finally (try_except ?b ?h) ?c] =>
      set (body := b); set (handler := h); set (cleanup := c)
  end.
  assert (Hc : forall l,
             result (cleanup l)
             = if browser l
               then match browser_close w with
                    | Raises e => Exc (Error e)
                    | Returns _ => Val tt
                    end
               else Val tt).
  { intro l. unfold cleanup. rewrite result_bind.
    cbn [get result locals]. destruct (browser l); [|reflexivity].
    rewrite result_bind. cbn [emit result locals].
    rewrite result_bind. unfold awaited.
    destruct (browser_close w) as [[]|e]; reflexivity. }
  rewrite Hc, result_try_except, locals_try_except.
  match goal with
  | |- context [body ?s0] => set (s1 := s0)
  end.
  assert (Hb : match launch w with
               | Raises e => body s1 = Ran (Exc (Error e)) s1 [Launch false]
               | Returns _ =>
                   browser (locals (body s1)) = true
                   /\ (result (body s1) = Exc (SystemExit 1)
                       /\ existsb (tool_not_found rapiddns) target_domains
                          = true
                       \/ (forall code,
                              result (body s1) <> Exc (SystemExit code))
                          /\ existsb (tool_not_found rapiddns) target_domains
                             = false)
               end).
  { unfold body, external.
    destruct (launch w) as [[]|e]; [|reflexivity].
    rewrite locals_bind, result_bind. cbn [result locals].
    rewrite locals_bind, result_bind, set_browser_run. cbn [result locals].
    rewrite locals_bind, result_bind. cbn [print emit result locals].
    rewrite locals_bind, result_bind, set_tasks_run.
    cbn [result locals browser].
    rewrite locals_bind, result_bind.
    match goal with
    | |- context [enumerate_domains rapiddns target_domains ?s0] =>
        set (s2 := s0)
    end.
    destruct (enumerate_domains_locals rapiddns target_domains s2)
      as [Hbr _].
    cbv zeta in Hbr. cbn [browser s2] in Hbr.
    rewrite enumerate_domains_result.
    destruct (existsb (tool_not_found rapiddns) target_domains).
    - split; [exact Hbr | left; split; reflexivity].
    - rewrite locals_bind, result_bind. cbn [get result locals].
      assert (G : forall l : main_locals,
                 browser l = true ->
                 browser
                   (locals
                      (match all_subdomain_check_tasks l with
                       | [] => print Stdout MsgNoValidSubdomains
                       | t :: ts =>
                           print Stdout (MsgChecking
                                           (List.length (t :: ts))) ;;
                           gather aiohttp w (t :: ts)
                       end l)) = true
                 /\ forall code,
                      result
                        (match all_subdomain_check_tasks l with
                         | [] => print Stdout MsgNoValidSubdomains
                         | t :: ts =>
                             print Stdout (MsgChecking
                                             (List.length (t :: ts))) ;;
                             gather aiohttp w (t :: ts)
                         end l) <> Exc (SystemExit code)).
      { intros l Hl.
        destruct (all_subdomain_check_tasks l) as [|t ts].
        - split; [exact Hl | discriminate].
        - rewrite locals_bind, result_bind.
          cbn [print emit result locals].
          unfold gather. rewrite locals_bind, result_bind.
          cbn [emit result locals].
          destruct (first_raised aiohttp w (t :: ts)) as [e|] eqn:E;
            cbn [raise ret result locals]; (split; [exact Hl|]).
          + intros code H. injection H as ->.
            contradiction (first_raised_not_exit aiohttp w (t :: ts) code E).
          + discriminate. }
      destruct (G _ Hbr) as [G1 G2].
      split; [exact G1 | right; split; [exact G2 | reflexivity]]. }
  clearbody body.
  destruct (launch w) as [[]|e].
  - destruct Hb as [Hbr [[Hr He]|[Hr He]]]; rewrite He.
    + rewrite Hr, Hbr.
      destruct (browser_close w) as [[]|e]; reflexivity.
    + destruct (result (body s1)) as [u|[e|code]] eqn:Eb.
      * rewrite Hbr. destruct (browser_close w) as [[]|e]; reflexivity.
      * assert (Hh : exists m, handler e = Some (print Stderr m))
          by (unfold handler; destruct e; eauto).
        destruct Hh as [m ->]. cbn [print emit result locals].
        rewrite Hbr. destruct (browser_close w) as [[]|e']; reflexivity.
      * contradiction (Hr code eq_refl).
  - rewrite Hb. cbn [result locals].
    assert (Hh : exists m, handler e = Some (print Stderr m))
      by (unfold handler; destruct e; eauto).
    destruct Hh as [m ->]. cbn [print emit result locals].
    subst s1. cbn [browser]. reflexivity.
Qed.

Lemma exit_status_value aiohttp rapiddns w :
  exit_status aiohttp rapiddns w
  = match input_file w with
    | Raises FileNotFoundError => 0
    | Raises _ => 1
    | Returns lines =>
        match read_domains lines with
        | [] => 0
        | target_domains =>
            match contexts w with
            | Raises _ => 1
            | Returns _ =>
                match launch w with
                | Raises _ => 0
                | Returns _ =>
                    match browser_close w with
                    | Raises _ => 1
                    | Returns _ =>
                        if existsb (tool_not_found rapiddns) target_domains
                        then 1 else 0
                    end
                end
            end
        end
    end.
Proof.
  unfold exit_status, main.
  destruct (input_file w) as [lines|e]; [|destruct e; reflexivity].
  rewrite result_bind. cbn [emit result locals].
  destruct (read_domains lines) as [|domain rest] eqn:E; [reflexivity|].
  rewrite scan_result.
  destruct (contexts w) as [[]|ec]; [|reflexivity].
  destruct (launch w) as [[]|el]; [|reflexivity].
  destruct (browser_close w) as [[]|eb]; [|reflexivity].
  destruct (existsb (tool_not_found rapiddns) (domain :: rest));
    reflexivity.
Qed.

(** ** Claims about the orchestrator *)

(** C4, as the script has it.  The exit status is 0 or 1.  It is 1
    exactly when an exception leaves [main]: the input file cannot be
    opened or read for another reason than [FileNotFoundError], the
    context managers cannot be entered, the run comes to enumerate a
    domain for which the tool is not found, or the browser that was
    launched does not close.  A missing input file and a browser that
    fails to launch are reported and give status 0. *)
Theorem exit_status_is_nonzero_exactly_when_an_exception_leaves_main :
  forall aiohttp rapiddns w,
    (exit_status aiohttp rapiddns w = 0
     \/ exit_status aiohttp rapiddns w = 1)
    /\ (exit_status aiohttp rapiddns w <> 0
        <-> (exists e, input_file w = Raises e /\ e <> FileNotFoundError)
            \/ (target_domains_of w <> []
                /\ succeeded (contexts w) = false)
            \/ reaches_missing_tool rapiddns w = true
            \/ (target_domains_of w <> []
                /\ succeeded (contexts w) = true
                /\ succeeded (launch w) = true
                /\ succeeded (browser_close w) = false))
    /\ (input_file w = Raises FileNotFoundError ->
        exit_status aiohttp rapiddns w = 0)
    /\ (succeeded (contexts w) = true ->
        succeeded (launch w) = false ->
        (forall e, input_file w = Raises e -> e = FileNotFoundError) ->
        exit_status aiohttp rapiddns w = 0).
Proof.
  intros aiohttp rapiddns w.
  rewrite exit_status_value.
  unfold reaches_missing_tool, target_domains_of.
  destruct (input_file w) as [lines|e].
  - destruct (read_domains lines) as [|domain rest].
    + split; [left; reflexivity|]. split; [|split; [discriminate|auto]].
      split; [intro H; contradiction H; reflexivity|].
      intros [[e [H _]]|[[H _]|[H|[H _]]]];
        try discriminate H; try (contradiction H; reflexivity).
      cbn [existsb] in H. rewrite andb_false_r in H. discriminate H.
    + destruct (contexts w) as [[]|ec]; cbn [succeeded andb].
      * destruct (launch w) as [[]|el]; cbn [succeeded andb].
        -- destruct (browser_close w) as [[]|eb]; cbn [succeeded].
           ++ destruct (existsb (tool_not_found rapiddns) (domain :: rest)).
              ** split; [right; reflexivity|].
                 split; [|split; discriminate].
                 split; [intros _; right; right; left; reflexivity
                        | discriminate].
              ** split; [left; reflexivity|].
                 split; [|split; [discriminate | reflexivity]].
                 split; [intro H; contradiction H; reflexivity|].
                 intros [[e [H _]]|[[_ H]|[H|[_ [_ [_ H]]]]]];
                   discriminate H.
           ++ split; [right; reflexivity|].
              split; [|split; discriminate].
              split; [|discriminate].
              intros _. right. right. right.
              repeat split; discriminate.
        -- split; [left; reflexivity|].
           split; [|split; [discriminate | reflexivity]].
           split; [intro H; contradiction H; reflexivity|].
           intros [[e [H _]]|[[_ H]|[H|[_ [_ [H _]]]]]]; discriminate H.
      * split; [right; reflexivity|].
        split; [|split; discriminate].
        split; [|discriminate].
        intros _. right. left. split; [discriminate | reflexivity].
  - destruct e;
      try (split; [right; reflexivity|]; split; [|split];
           [ split; [|discriminate]; intros _; left; eexists;
             split; [reflexivity | discriminate]
           | discriminate
           | intros _ _ H; specialize (H _ eq_refl); discriminate H ];
           fail).
    split; [left; reflexivity|]. split; [|split; reflexivity].
    split; [intro H; contradiction H; reflexivity|].
    intros [[e [H Hne]]|[[H _]|[H|[H _]]]];
      try discriminate H; try (contradiction H; reflexivity).
    injection H as <-. contradiction Hne. reflexivity.
Qed.

(** C4 at concrete inputs: without an input file, and with a browser
    that does not launch, the exit status is 0; with an input file that
    cannot be read it is not. *)
Lemma exit_status_is_nonzero_exactly_when_an_exception_leaves_main_witness :
  exit_status webhook_ok rapiddns_finds world_without_input = 0
  /\ exit_status webhook_ok rapiddns_finds world_without_browser = 0
  /\ exit_status webhook_ok rapiddns_finds world_with_unreadable_input <> 0.
Proof.
  split; [|split].
  - destruct (exit_status_is_nonzero_exactly_when_an_exception_leaves_main
                webhook_ok rapiddns_finds world_without_input)
      as [_ [_ [H _]]].
    apply H. reflexivity.
  - destruct (exit_status_is_nonzero_exactly_when_an_exception_leaves_main
                webhook_ok rapiddns_finds world_without_browser)
      as [_ [_ [_ H]]].
    apply H; [reflexivity | reflexivity | discriminate].
  - destruct (exit_status_is_nonzero_exactly_when_an_exception_leaves_main
                webhook_ok rapiddns_finds world_with_unreadable_input)
      as [_ [[_ H] _]].
    apply H. left. exists OtherException.
    split; [reflexivity | discriminate].
Defined.

(** C4 as stated fails: a missing input file is a fatal startup
    condition for the specification, and the process exits with
    status 0. *)
Lemma missing_input_file_exits_with_zero :
  input_file world_without_input = Raises FileNotFoundError
  /\ main_events webhook_ok rapiddns_finds world_without_input
     = [OpenFile false; Print Stderr MsgInputNotFound]
  /\ exit_status webhook_ok rapiddns_finds world_without_input = 0.
Proof. repeat split. Qed.

(** The other startup condition the specification calls fatal: a
    browser that fails to launch is reported, and the process exits
    with status 0. *)
Example browser_not_launched_exits_with_zero :
  main_events webhook_ok rapiddns_finds world_without_browser
  = [OpenFile true;
     Print Stdout (MsgBanner 1 true);
     Launch false;
     Print Stderr MsgLaunchFailed;
     Print Stdout MsgScanComplete]
  /\ exit_status webhook_ok rapiddns_finds world_without_browser = 0.
Proof. repeat split. Qed.

(** What the specification does not list: a driver that does not
    start and a browser that does not close end the process with
    status 1. *)
Example uncaught_exceptions_exit_with_one :
  exit_status webhook_ok rapiddns_finds world_without_driver = 1
  /\ exit_status webhook_ok rapiddns_finds world_with_stuck_browser = 1
  /\ In BrowserClose
        (main_events webhook_ok rapiddns_finds world_with_stuck_browser).
Proof. repeat split. vm_compute. tauto. Qed.

(** C9.  When the tool exits with a status other than 0 for a domain,
    [run_rapiddns] prints what the tool wrote on its standard error and
    returns no subdomain, and the enumeration goes on with the domains
    that remain.  When the tool is not found, [run_rapiddns] exits: the
    domains that remain are not enumerated and the process ends with
    status 1. *)
Theorem tool_failure_is_local_and_missing_tool_is_fatal :
  forall aiohttp rapiddns,
    (forall domain rest returncode stdout stderr (s : main_locals),
        rapiddns domain = Returns (returncode, stdout, stderr) ->
        returncode <> 0%Z ->
        run_rapiddns rapiddns domain s
        = Ran (Val []) s
              [Print Stdout (MsgEnumerating domain);
               Subprocess [RAPIDDNS_PATH; "-s"; domain] true;
               Print Stderr (MsgRapiddnsError domain (Py.strip stderr))]
        /\ enumerate_domains rapiddns (domain :: rest) s
           = Ran (result (enumerate_domains rapiddns rest s))
                 (locals (enumerate_domains rapiddns rest s))
                 ([Print Stdout (MsgEnumerating domain);
                   Subprocess [RAPIDDNS_PATH; "-s"; domain] true;
                   Print Stderr (MsgRapiddnsError domain (Py.strip stderr))]
                  ++ emitted (enumerate_domains rapiddns rest s)))
    /\ (forall domain rest (s : main_locals),
        rapiddns domain = Raises FileNotFoundError ->
        enumerate_domains rapiddns (domain :: rest) s
        = Ran (Exc (SystemExit 1)) s
              [Print Stdout (MsgEnumerating domain);
               Subprocess [RAPIDDNS_PATH; "-s"; domain] false;
               Print Stderr MsgRapiddnsNotFound]
        /\ (forall w lines,
              input_file w = Returns lines ->
              In domain (read_domains lines) ->
              succeeded (launch w) = true ->
              exit_status aiohttp rapiddns w = 1)).
Proof.
  intros aiohttp rapiddns. split.
  - intros domain rest returncode stdout stderr s H Hrc. split.
    + apply (run_rapiddns_nonzero_exit rapiddns domain returncode stdout
               stderr s H Hrc).
    + apply (enumerate_domains_nonzero_exit rapiddns domain rest returncode
               stdout stderr s H Hrc).
  - intros domain rest s H. split.
    + apply (enumerate_domains_not_found rapiddns domain rest s H).
    + intros w lines Hf Hin Hl.
      rewrite exit_status_value, Hf.
      assert (He : existsb (tool_not_found rapiddns) (read_domains lines)
                   = true).
      { apply existsb_exists. exists domain. split; [exact Hin|].
        unfold tool_not_found. rewrite H. reflexivity. }
      destruct (read_domains lines) as [|d ds]; [contradiction Hin|].
      rewrite He.
      destruct (contexts w) as [[]|ec]; [|reflexivity].
      destruct (launch w) as [[]|el]; [|discriminate Hl].
      destruct (browser_close w) as [[]|eb]; reflexivity.
Qed.

(** C9 at a concrete input: the tool exits with status 2 for one domain
    and is not found for the next. *)
Lemma tool_failure_is_local_and_missing_tool_is_fatal_witness :
  run_rapiddns rapiddns_fails "limited.example"
               {| browser := true; all_subdomain_check_tasks := [] |}
  = Ran (Val [])
        {| browser := true; all_subdomain_check_tasks := [] |}
        [Print Stdout (MsgEnumerating "limited.example");
         Subprocess ["rapiddns"; "-s"; "limited.example"] true;
         Print Stderr (MsgRapiddnsError "limited.example" "rate limited")]
  /\ enumerate_domains rapiddns_fails ["example.com"; "limited.example"]
                       {| browser := true; all_subdomain_check_tasks := [] |}
     = Ran (Exc (SystemExit 1))
           {| browser := true; all_subdomain_check_tasks := [] |}
           [Print Stdout (MsgEnumerating "example.com");
            Subprocess ["rapiddns"; "-s"; "example.com"] false;
            Print Stderr MsgRapiddnsNotFound].
Proof.
  destruct (tool_failure_is_local_and_missing_tool_is_fatal webhook_ok
              rapiddns_fails) as [Hlocal Hfatal].
  split.
  - apply (Hlocal "limited.example" [] 2%Z EmptyString
                  ("rate limited" ++ String "010"%char EmptyString)%string).
    + reflexivity.
    + discriminate.
  - apply (Hfatal "example.com" ["limited.example"]). reflexivity.
Defined.

(** ** Captures and alerts of a probe *)

Lemma captures_app a b : captures (a ++ b) = captures a ++ captures b.
Proof. unfold captures. apply flat_map_app. Qed.

Lemma alerts_app a b : alerts (a ++ b) = alerts a ++ alerts b.
Proof. unfold alerts. apply flat_map_app. Qed.

Lemma only_no_call evs :
  only no_call evs -> captures evs = [] /\ alerts evs = [].
Proof.
  induction 1 as [|ev evs Hev _ [IHc IHa]]; [split; reflexivity|].
  destruct ev; try discriminate Hev; split; assumption.
Qed.

Lemma take_screenshot_calls {S} browser url (s : S) :
  captures (emitted (take_screenshot browser url s)) = [url]
  /\ alerts (emitted (take_screenshot browser url s)) = [].
Proof.
  unfold take_screenshot. rewrite emitted_bind. cbn [emit result emitted locals].
  match goal with
  | |- context [call ?f ?b] =>
      assert (Hb : emits (only no_call) (@call S _ _ f b))
        by emits_only_through no_call;
      set (body := call f b) in *
  end.
  destruct (only_no_call _ (Hb s)) as [Hc Ha].
  rewrite captures_app, alerts_app, Hc, Ha. split; reflexivity.
Qed.

Lemma send_to_discord_calls {S} aiohttp webhook_url url shot (s : S) :
  captures (emitted (send_to_discord aiohttp webhook_url url shot s)) = []
  /\ alerts (emitted (send_to_discord aiohttp webhook_url url shot s)) = [url].
Proof.
  unfold send_to_discord. rewrite emitted_bind. cbn [emit result emitted locals].
  match goal with
  | |- context [if ?c then ?a else ?b] =>
      assert (Hb : emits (only no_call) (if c then a else b))
        by emits_only_through no_call;
      set (rest := if c then a else b) in *
  end.
  destruct (only_no_call _ (Hb s)) as [Hc Ha].
  rewrite captures_app, alerts_app, Hc, Ha. split; reflexivity.
Qed.

Lemma send_to_discord_returns {S} aiohttp webhook_url url shot (s : S) :
  result (send_to_discord aiohttp webhook_url url shot s) = Val tt.
Proof.
  unfold send_to_discord. rewrite result_bind. cbn [emit result locals].
  destruct (negb (webhook_truthy webhook_url) || negb (bytes_truthy shot));
    [reflexivity|].
  rewrite result_try_except, result_bind. unfold external.
  destruct (post (aiohttp url)) as [status|e]; cbn [result locals].
  - destruct ((200 <=? status) && (status <? 300)); [reflexivity|].
    rewrite result_bind.
    destruct (response_text (aiohttp url)) as [text|e]; cbn [result locals];
      [reflexivity | destruct e; reflexivity].
  - destruct e; reflexivity.
Qed.

(** [take_screenshot] returns as long as closing the page does not
    raise: every other exception is caught inside it. *)
Lemma take_screenshot_returns {S} browser url (s : S) :
  (forall n, page_close (browser url) n = Returns tt) ->
  exists shot, result (take_screenshot browser url s) = Val shot.
Proof.
  intro H.
  change (take_screenshot browser url s)
    with (take_screenshot (fun _ => browser url) url s).
  destruct (browser url) as [nc np g sh pc cc]. simpl in H.
  destruct nc as [[]|e1]; [destruct np as [[]|e2];
    [destruct g as [[]|e3]; [destruct sh as [shot|e4];
      [destruct cc as [[]|e5]|]|]|]|];
    try match goal with e : error |- _ => destruct e end;
    cbv -[Py.contains];
    repeat (first
              [ match goal with
                | |- context [Py.contains ?p ?t] => destruct (Py.contains p t)
                end
              | rewrite (H 0)
              | rewrite (H 1) ];
            cbv -[Py.contains]);
    eexists; reflexivity.
Qed.

(** While [take_screenshot] returns, a probe calls it at most once and
    sends at most one alert: a pass that calls it ends the probe. *)
Section OneCapture.

Variable aiohttp : string -> post_stub.
Variable subdomain : string.
Variable client : string -> outcome nat.
Variable browser : string -> capture_stub.
Variable webhook_url : option string.

Hypothesis capture_returns :
  forall url (s : unit),
    exists shot, result (take_screenshot browser url s) = Val shot.

Lemma handled_404 msg url (s : unit) :
  let m : M unit flow :=
    print Stdout msg ;;
    shot <- take_screenshot browser url ;;
    (if screenshot_truthy shot
     then send_to_discord aiohttp webhook_url url (screenshot_data shot)
     else ret tt) ;;
    ret Return in
  result (m s) = Val Return
  /\ captures (emitted (m s)) = [url]
  /\ List.length (alerts (emitted (m s))) <= 1.
Proof.
  cbv zeta.
  rewrite result_bind, emitted_bind. cbn [print emit result locals emitted].
  rewrite result_bind, emitted_bind.
  destruct (capture_returns url s) as [shot Hs]. rewrite Hs.
  destruct (take_screenshot_calls browser url s) as [Hc Ha].
  rewrite result_bind, emitted_bind.
  destruct (screenshot_truthy shot).
  - rewrite send_to_discord_returns. cbn [ret result emitted].
    match goal with
    | |- context [send_to_discord ?a ?w ?u ?b ?l] =>
        destruct (send_to_discord_calls a w u b l) as [Hc' Ha']
    end.
    rewrite !captures_app, !alerts_app, Hc, Ha, Hc', Ha'.
    cbn. repeat split; lia.
  - cbn [ret result emitted locals].
    rewrite !captures_app, !alerts_app, Hc, Ha.
    cbn. repeat split; lia.
Qed.

Lemma attempt_one_capture proto (s : unit) :
  let r := attempt aiohttp subdomain client browser webhook_url proto s in
  (captures (emitted r) = [] /\ alerts (emitted r) = [])
  \/ (result r = Val Return
      /\ captures (emitted r) = [url_of proto subdomain]
      /\ List.length (alerts (emitted r)) <= 1).
Proof.
  cbv zeta. unfold attempt. cbv zeta. unfold async_with.
  cbn [result emitted locals].
  set (url := url_of proto subdomain).
  change (Acquire httpx_semaphore :: ?x) with ([Acquire httpx_semaphore] ++ x).
  rewrite !captures_app, !alerts_app. cbn [captures alerts flat_map app].
  rewrite !app_nil_r.
  rewrite emitted_try_except, result_try_except, emitted_bind, result_bind.
  unfold external.
  destruct (client url) as [status|e]; cbn [result emitted locals].
  - destruct (status =? 404).
    + destruct (handled_404 (MsgPotentialTakeover url) url s) as [Hr [Hc Ha]].
      cbv zeta in Hr, Hc, Ha. rewrite Hr.
      rewrite !captures_app, !alerts_app, Hc. cbn [captures alerts flat_map app].
      rewrite !app_nil_r.
      right. repeat split. exact Ha.
    + left. split; reflexivity.
  - destruct e; cbn [result emitted locals];
      try (left; split; reflexivity).
    destruct (status_code =? 404); cbn [result emitted locals].
    + match goal with
      | |- context [locals ?r] => generalize (locals r); intro s'
      end.
      destruct (handled_404 (MsgPotentialTakeoverCaught url) url s')
        as [Hr [Hc Ha]].
      cbv zeta in Hr, Hc, Ha. rewrite Hr.
      rewrite !captures_app, !alerts_app, Hc. cbn [captures alerts flat_map app].
      right. repeat split. exact Ha.
    + left. split; reflexivity.
Qed.

Lemma check_subdomain_one_capture :
  let run := check_subdomain aiohttp subdomain client browser webhook_url tt in
  List.length (captures (emitted run)) <= 1
  /\ List.length (alerts (emitted run)) <= 1.
Proof.
  cbv zeta.
  pose proof (attempt_one_capture https tt) as H1.
  pose proof (attempt_one_capture http tt) as H2.
  cbv zeta in H1, H2.
  set (first_pass := attempt aiohttp subdomain client browser webhook_url
                             https tt) in *.
  set (second_pass := attempt aiohttp subdomain client browser webhook_url
                              http tt) in *.
  assert (B1 : List.length (captures (emitted first_pass)) <= 1
               /\ List.length (alerts (emitted first_pass)) <= 1).
  { destruct H1 as [[Hc Ha]|[_ [Hc Ha]]]; rewrite Hc; [rewrite Ha|];
      cbn [List.length]; lia. }
  assert (B2 : List.length (captures (emitted second_pass)) <= 1
               /\ List.length (alerts (emitted second_pass)) <= 1).
  { destruct H2 as [[Hc Ha]|[_ [Hc Ha]]]; rewrite Hc; [rewrite Ha|];
      cbn [List.length]; lia. }
  destruct (result first_pass) as [f|e] eqn:E.
  - destruct f.
    + destruct (check_subdomain_stops aiohttp subdomain client browser
                  webhook_url E) as [-> _].
      exact B1.
    + destruct (check_subdomain_goes_on aiohttp subdomain client browser
                  webhook_url Continue E) as [-> _]; [discriminate|].
      destruct H1 as [[Hc Ha]|[Hr _]]; [|discriminate Hr].
      fold first_pass second_pass.
      rewrite captures_app, alerts_app, Hc, Ha. exact B2.
    + destruct (check_subdomain_goes_on aiohttp subdomain client browser
                  webhook_url Next E) as [-> _]; [discriminate|].
      destruct H1 as [[Hc Ha]|[Hr _]]; [|discriminate Hr].
      fold first_pass second_pass.
      rewrite captures_app, alerts_app, Hc, Ha. exact B2.
  - destruct (check_subdomain_raises aiohttp subdomain client browser
                webhook_url e E) as [-> _].
    exact B1.
Qed.

End OneCapture.

(** After a navigation error the context is never closed, whatever the
    error and whatever the other answers of the browser engine. *)
Lemma navigation_error_never_closes_context {S} browser url (s : S) e ok :
  new_context (browser url) = Returns tt ->
  new_page (browser url) = Returns tt ->
  goto (browser url) = Raises e ->
  ~ In (ContextClose ok) (emitted (take_screenshot browser url s)).
Proof.
  change (take_screenshot browser url s)
    with (take_screenshot (fun _ => browser url) url s).
  destruct (browser url) as [nc np g sh pc cc].
  cbn [new_context new_page goto]. intros -> -> ->.
  destruct (pc 0) as [[]|e0] eqn:E0;
    destruct e;
    cbv -[Py.contains In];
    repeat (first
              [ match goal with
                | |- context [Py.contains ?p ?t] => destruct (Py.contains p t)
                end
              | rewrite E0 ];
            cbv -[Py.contains In]);
    intro H; cbn [In] in H;
    repeat match goal with
           | H : _ \/ _ |- _ => destruct H as [H|H]
           end; try discriminate H; contradiction.
Qed.

(** ** Claims about capture *)

(** When every call of the browser engine returns, the page is closed,
    then the context, then the capture slot is released. *)
Lemma capture_success_closes_page_then_context {S} browser url (s : S) shot :
  new_context (browser url) = Returns tt ->
  new_page (browser url) = Returns tt ->
  goto (browser url) = Returns tt ->
  screenshot (browser url) = Returns shot ->
  page_close (browser url) 0 = Returns tt ->
  context_close (browser url) = Returns tt ->
  take_screenshot browser url s
  = Ran (Val (Some shot)) s
        [CallCapture url; Acquire browser_semaphore;
         Print Stdout (MsgAttemptScreenshot url);
         NewContext true; NewPage true; Goto url true; Screenshot true;
         Print Stdout (MsgScreenshotCaptured url);
         PageClose true; ContextClose true; Release browser_semaphore].
Proof.
  intros H1 H2 H3 H4 H5 H6.
  change (take_screenshot browser url s)
    with (take_screenshot (fun _ => browser url) url s).
  destruct (browser url) as [nc np g sh pc cc]. simpl in *.
  subst nc np g sh cc.
  cbv -[Py.contains]. rewrite H5. reflexivity.
Qed.

(** C3 fails on the path of a navigation error.  With a name that does
    not resolve, [take_screenshot] closes the page in its [finally]
    block and releases the capture slot, and the context it opened is
    never closed. *)
Theorem navigation_error_leaves_context_open :
  take_screenshot engine_unresolved "https://old.example.com" tt
  = Ran (Val None) tt
        [CallCapture "https://old.example.com"; Acquire browser_semaphore;
         Print Stdout (MsgAttemptScreenshot "https://old.example.com");
         NewContext true; NewPage true;
         Goto "https://old.example.com" false;
         Print Stderr
           (MsgPlaywrightError "https://old.example.com"
              "net::ERR_NAME_NOT_RESOLVED at https://old.example.com");
         Print Stdout (MsgNoteDns "https://old.example.com");
         PageClose true; Release browser_semaphore]
  /\ In (NewContext true)
        (emitted (take_screenshot engine_unresolved
                    "https://old.example.com" tt))
  /\ forall ok,
       ~ In (ContextClose ok)
            (emitted (take_screenshot engine_unresolved
                        "https://old.example.com" tt)).
Proof.
  split; [reflexivity|]. split.
  - vm_compute. intuition.
  - intros ok H. vm_compute in H.
    repeat match goal with
           | H : _ \/ _ |- _ => destruct H as [H|H]
           end; try discriminate H; contradiction.
Qed.

(** C5 fails when a capture raises.  With 404 on both protocols and a
    page that neither loads nor closes, the exception of [page.close]
    leaves [take_screenshot] from its [finally] block, the last
    [except] clause of [check_subdomain] takes it for a failed request
    and goes on to HTTP, and [take_screenshot] is called a second time
    for the same candidate. *)
Theorem capture_called_twice_when_page_close_raises :
  let run := check_subdomain webhook_ok "old.example.com"
               (always (Returns 404)) engine_stuck sample_webhook_url tt in
  requests (emitted run)
  = ["https://old.example.com"; "http://old.example.com"]
  /\ captures (emitted run)
     = ["https://old.example.com"; "http://old.example.com"]
  /\ alerts (emitted run) = []
  /\ result run = Val tt.
Proof. cbv zeta. repeat split. Qed.

(** * Further properties *)

(** ** send_to_discord *)

Lemma send_to_discord_asks_once {S} aiohttp webhook_url url shot (s : S) :
  send_to_discord aiohttp webhook_url url shot s
  = send_to_discord (fun _ => aiohttp url) webhook_url url shot s.
Proof. reflexivity. Qed.

Ltac send_to_discord_cases aiohttp url webhook_url shot :=
  rewrite send_to_discord_asks_once;
  destruct (aiohttp url) as [[status|e] [text|e']];
  destruct webhook_url as [[|c w']|]; destruct shot as [|x shot'];
  try match goal with e : error |- _ => destruct e end;
  try match goal with e : error |- _ => destruct e end;
  cbv -[Nat.leb Nat.ltb andb payload_json In];
  try match goal with
      | |- context [(200 <=? ?n) && (?n <? 300)] =>
          destruct ((200 <=? n) && (n <? 300)) eqn:E2xx;
          cbv -[Nat.leb Nat.ltb andb payload_json In]
      end.

(** X1.  [send_to_discord] never raises: whatever the webhook answers,
    and whether or not one is configured, it returns, leaves the local
    variables of its caller alone and counts as one alert. *)
Theorem send_to_discord_never_raises :
  forall {S} aiohttp webhook_url url shot (s : S),
    result (send_to_discord aiohttp webhook_url url shot s) = Val tt
    /\ locals (send_to_discord aiohttp webhook_url url shot s) = s
    /\ alerts (emitted (send_to_discord aiohttp webhook_url url shot s)) = [url].
Proof.
  intros S aiohttp webhook_url url shot s.
  send_to_discord_cases aiohttp url webhook_url shot;
    repeat split; reflexivity.
Qed.

(** X2.  [send_to_discord] posts at most once, to the configured
    webhook, with the payload naming the URL and the screenshot as the
    file; it posts exactly when a webhook is configured and the
    screenshot is not empty. *)
Theorem send_to_discord_posts_once_to_the_webhook :
  forall {S} aiohttp webhook_url url shot (s : S),
    let evs := emitted (send_to_discord aiohttp webhook_url url shot s) in
    (posts evs = []
     \/ posts evs = [(webhook_text webhook_url, payload_json url, shot)])
    /\ (posts evs <> [] <->
        webhook_truthy webhook_url = true /\ bytes_truthy shot = true).
Proof.
  intros S aiohttp webhook_url url shot s. cbv zeta.
  send_to_discord_cases aiohttp url webhook_url shot;
    (split; [first [left; reflexivity | right; reflexivity]|]);
    (split; [intro H; try (contradiction H; reflexivity); split; reflexivity
            | intros [H1 H2]; try discriminate H1; try discriminate H2;
              discriminate]).
Qed.

(** X3.  The notification is reported as sent exactly when the POST
    returned with a status from 200 to 299. *)
Theorem send_to_discord_reports_success_on_2xx :
  forall {S} aiohttp webhook_url url shot (s : S),
    In (Print Stdout (MsgDiscordSent url))
       (emitted (send_to_discord aiohttp webhook_url url shot s))
    <-> (webhook_truthy webhook_url = true /\ bytes_truthy shot = true
         /\ exists status, post (aiohttp url) = Returns status
                           /\ 200 <= status < 300).
Proof.
  intros S aiohttp webhook_url url shot s.
  assert (R : forall n, (200 <=? n) && (n <? 300) = true <-> 200 <= n < 300).
  { intro n. rewrite andb_true_iff, Nat.leb_le, Nat.ltb_lt. reflexivity. }
  send_to_discord_cases aiohttp url webhook_url shot;
    (split;
     [ intro H; cbn [In] in H;
       repeat match goal with
              | H : _ \/ _ |- _ => destruct H as [H|H]
              end; try discriminate H; try contradiction;
       (split; [reflexivity | split; [reflexivity|]]);
       eexists; (split; [reflexivity | apply R; assumption])
     | intros [H1 [H2 [n [Hp Hn]]]];
       try discriminate H1; try discriminate H2; try discriminate Hp;
       injection Hp as <-; apply R in Hn;
       try (rewrite Hn in E2xx; discriminate E2xx);
       cbn [In]; auto 10 ]).
Qed.

(** ** take_screenshot *)


Lemma take_screenshot_locals {S} browser url (s : S) :
  locals (take_screenshot browser url s) = s.
Proof.
  unfold take_screenshot. rewrite locals_bind. cbn [emit result locals].
  apply locals_call.
Qed.

(** X4.  On every path [take_screenshot] takes the capture slot once and
    gives it back as its last event, touches no other semaphore, and
    leaves the local variables of its caller alone. *)
Theorem capture_slot_is_always_released :
  forall {S} browser url (s : S),
    let r := take_screenshot browser url s in
    held browser_semaphore (emitted r) = 0
    /\ held httpx_semaphore (emitted r) = 0
    /\ locals r = s
    /\ exists inner,
         emitted r = CallCapture url :: Acquire browser_semaphore :: inner
                     ++ [Release browser_semaphore]
         /\ only quiet inner.
Proof.
  intros S browser url s r.
  destruct (take_screenshot_shape browser url s) as [inner [E Hq]].
  pose proof (take_screenshot_locals browser url s) as L. fold r in L.
  subst r. rewrite E. unfold held.
  cbn [fold_left held_after semaphore_eqb].
  rewrite !fold_left_app, !(held_quiet _ _ Hq).
  cbn [fold_left held_after semaphore_eqb].
  repeat split; try reflexivity; try exact L.
  exists inner. split; [reflexivity | exact Hq].
Qed.


Lemma locals_try_finally {S A} (body : M S A) cleanup s :
  locals (try_finally body cleanup s) = locals (cleanup (locals (body s))).
Proof. reflexivity. Qed.

Lemma locals_async_with {S A} sem (body : M S A) s :
  locals (async_with sem body s) = locals (body s).
Proof. reflexivity. Qed.

Lemma result_async_with {S A} sem (body : M S A) s :
  result (async_with sem body s) = result (body s).
Proof. reflexivity. Qed.

Lemma result_call {S S' A} (init : S') (body : M S' A) (s : S) :
  result (call init body s) = result (body init).
Proof. reflexivity. Qed.

(** Closing a page leaves the screenshot in hand as it is. *)
Lemma close_page_keeps_screenshot b l :
  screenshot_bytes (locals (close_page b l)) = screenshot_bytes l.
Proof.
  destruct l as [shot [[closed calls]|]]; unfold close_page.
  - cbv -[page_close]. destruct (page_close b calls); reflexivity.
  - reflexivity.
Qed.

(** X5.  When [take_screenshot] returns, it returns the raster of
    [page.screenshot] if the four calls up to it returned, and [None]
    otherwise: an exception of [page.close] or [context.close] after the
    screenshot does not lose it. *)
Theorem capture_returns_what_was_captured :
  forall {S} browser url (s : S) v,
    result (take_screenshot browser url s) = Val v ->
    v = captured (browser url).
Proof.
  intros S browser url s v.
  unfold take_screenshot.
  rewrite result_bind. cbn [emit result locals].
  rewrite result_call, result_bind, result_async_with, locals_async_with.
  match goal with
  | |- context [try_finally (try_except ?b ?h) ?c] =>
      set (body := b); set (handler := h); set (cleanup := c)
  end.
  assert (Hh : forall e l, exists h,
             handler e = Some h /\ locals (h l) = l).
  { intros e l. unfold handler. destruct e; eexists; (split; [reflexivity|]);
      try reflexivity.
    rewrite locals_bind. cbn [print emit result locals].
    destruct (Py.contains "net::ERR_NAME_NOT_RESOLVED" text); [reflexivity|].
    destruct (Py.contains "Timeout" text); reflexivity. }
  assert (Hc : forall l,
             screenshot_bytes (locals (cleanup l)) = screenshot_bytes l).
  { intro l. unfold cleanup. rewrite locals_bind. cbn [get result locals].
    destruct (page l) as [pg|]; [|reflexivity].
    destruct (negb (is_closed pg)); [|reflexivity].
    apply close_page_keeps_screenshot. }
  assert (Hb : screenshot_bytes (locals (body {| screenshot_bytes := None; page := None |})) = captured (browser url)).
  { unfold body, captured.
    change (browser url) with ((fun _ : string => browser url) url).
    destruct (browser url) as [nc np g sh pc cc].
    cbn [new_context new_page goto screenshot page_close context_close].
    destruct nc as [[]|e1]; [|reflexivity].
    destruct np as [[]|e2]; [|reflexivity].
    destruct g as [[]|e3]; [|reflexivity].
    destruct sh as [shot|e4]; [|reflexivity].
    cbv -[page_close]. cbn [page_close].
    destruct (pc 0) as [[]|e5]; [|reflexivity].
    destruct cc; reflexivity. }
  set (P := bind _ _).
  assert (HP : screenshot_bytes (locals (P {| screenshot_bytes := None; page := None |})) = captured (browser url)).
  { subst P. rewrite locals_bind. cbn [print emit result locals].
    rewrite locals_bind. cbn [set_page bind get put result locals screenshot_bytes].
    rewrite locals_try_finally, Hc, locals_try_except.
    destruct (result (body {| screenshot_bytes := None; page := None |})) as [a|[e|c]]; try exact Hb.
    match goal with
    | |- context [handler ?e0] =>
        destruct (Hh e0 (locals (body {| screenshot_bytes := None; page := None |}))) as [h [-> ->]]
    end.
    exact Hb. }
  clearbody P.
  destruct (result (P {| screenshot_bytes := None; page := None |})) as [u|e]; cbn [get ret bind result locals];
    intro H; [injection H as <-; exact HP | discriminate H].
Qed.

(** X5 at a concrete input: every call of the browser returns. *)
Lemma capture_returns_what_was_captured_witness :
  Some sample_png = captured (engine_ok "https://old.example.com").
Proof.
  apply (@capture_returns_what_was_captured unit engine_ok
           "https://old.example.com" tt (Some sample_png)).
  reflexivity.
Defined.

(** X6.  When [page.close] does not raise, [take_screenshot] does not
    raise either: every other exception is caught and the function
    returns what it has captured. *)
Theorem capture_never_raises_when_page_closes :
  forall {S} browser url (s : S),
    (forall n, page_close (browser url) n = Returns tt) ->
    result (take_screenshot browser url s) = Val (captured (browser url)).
Proof.
  intros S browser url s H.
  destruct (take_screenshot_returns browser url s H) as [v Hv].
  rewrite Hv. f_equal.
  apply (capture_returns_what_was_captured browser url s v Hv).
Qed.

(** X6 at a concrete input: the name of the page does not resolve. *)
Lemma capture_never_raises_when_page_closes_witness :
  result (take_screenshot engine_unresolved "https://old.example.com" tt)
  = Val (captured (engine_unresolved "https://old.example.com")).
Proof.
  apply (@capture_never_raises_when_page_closes unit engine_unresolved
           "https://old.example.com" tt).
  reflexivity.
Defined.

(** ** check_subdomain *)

Section Passes.

Variable aiohttp : string -> post_stub.
Variable subdomain : string.
Variable client : string -> outcome nat.
Variable browser : string -> capture_stub.
Variable webhook_url : option string.

(** What the branch of a 404 does, by the result of the capture. *)
Lemma handled_404_by_capture msg url (s : unit) :
  let m : M unit flow :=
    print Stdout msg ;;
    shot <- take_screenshot browser url ;;
    (if screenshot_truthy shot
     then send_to_discord aiohttp webhook_url url (screenshot_data shot)
     else ret tt) ;;
    ret Return in
  captures (emitted (m s)) = [url]
  /\ match result (take_screenshot browser url tt) with
     | Val shot =>
         result (m s) = Val Return
         /\ alerts (emitted (m s))
            = if screenshot_truthy shot then [url] else []
     | Exc e => result (m s) = Exc e /\ alerts (emitted (m s)) = []
     end.
Proof.
  destruct s. cbv zeta.
  rewrite result_bind, emitted_bind. cbn [print emit result locals emitted].
  rewrite result_bind, emitted_bind.
  destruct (take_screenshot_calls browser url tt) as [Hc Ha].
  destruct (result (take_screenshot browser url tt)) as [shot|e].
  - rewrite result_bind, emitted_bind.
    destruct (screenshot_truthy shot).
    + rewrite send_to_discord_returns. cbn [ret result emitted].
      match goal with
      | |- context [send_to_discord ?a ?w ?u ?b ?l] =>
          destruct (send_to_discord_calls a w u b l) as [Hc' Ha']
      end.
      rewrite !captures_app, !alerts_app, Hc, Ha, Hc', Ha'.
      repeat split.
    + cbn [ret result emitted locals].
      rewrite !captures_app, !alerts_app, Hc, Ha. repeat split.
  - rewrite !captures_app, !alerts_app, Hc, Ha. repeat split.
Qed.

Lemma attempt_cases proto :
  let r := attempt aiohttp subdomain client browser webhook_url proto tt in
  let url := url_of proto subdomain in
  let t := result (take_screenshot browser url tt) in
  (is_404 (client url) = false
   /\ captures (emitted r) = [] /\ alerts (emitted r) = []
   /\ (result r = Val Next \/ result r = Val Continue))
  \/ (is_404 (client url) = true
      /\ exists shot, t = Val shot
         /\ result r = Val Return
         /\ captures (emitted r) = [url]
         /\ alerts (emitted r) = if screenshot_truthy shot then [url] else [])
  \/ (is_404 (client url) = true
      /\ exists e, t = Exc e
         /\ alerts (emitted r) = []
         /\ (captures (emitted r) = [url] \/ captures (emitted r) = [url; url])
         /\ (result r = Exc e \/ result r = Val Next
             \/ result r = Val Continue)).
Proof.
  cbv zeta. unfold attempt. cbv zeta. unfold async_with.
  cbn [result emitted locals].
  set (url := url_of proto subdomain).
  change (Acquire httpx_semaphore :: ?x) with ([Acquire httpx_semaphore] ++ x).
  rewrite !captures_app, !alerts_app. cbn [captures alerts flat_map app].
  rewrite !app_nil_r.
  rewrite emitted_try_except, result_try_except, emitted_bind, result_bind.
  unfold external, is_404.
  pose proof (handled_404_by_capture (MsgPotentialTakeover url) url tt) as H1.
  pose proof (handled_404_by_capture (MsgPotentialTakeoverCaught url) url tt)
    as H2.
  cbv zeta in H1, H2.
  destruct H1 as [Hc1 Hr1]. destruct H2 as [Hc2 Hr2].
  assert (Hst : forall (l : unit), l = tt) by (intros []; reflexivity).
  destruct (client url) as [status|e]; cbn [result emitted locals].
  - destruct (status =? 404).
    + (* 404 in the response *)
      rewrite !captures_app, !alerts_app, Hc1.
      destruct (result (take_screenshot browser url tt)) as [shot|e0].
      * destruct Hr1 as [-> ->]. right. left.
        split; [reflexivity|]. exists shot.
        rewrite !app_nil_r. repeat split.
      * destruct Hr1 as [-> Ha1]. rewrite Ha1. right. right.
        split; [reflexivity|]. exists e0. split; [reflexivity|].
        destruct e0 as [err|code].
        -- destruct err; cbn [result emitted locals captures alerts flat_map app];
             try (repeat split; auto; fail).
           destruct (status_code =? 404); cbn [result emitted locals].
           ++ match goal with
              | |- context [locals ?r] => rewrite (Hst (locals r))
              end.
              destruct Hr2 as [-> ->]. rewrite Hc2.
              repeat split; auto.
           ++ repeat split; auto.
        -- rewrite !app_nil_r. repeat split; auto.
    + left. repeat split; auto.
  - destruct e; cbn [result emitted locals];
      try (left; repeat split; auto; fail).
    destruct (status_code =? 404); cbn [result emitted locals].
    + match goal with
      | |- context [locals ?r] => rewrite (Hst (locals r))
      end.
      rewrite !captures_app, !alerts_app, Hc2.
      destruct (result (take_screenshot browser url tt)) as [shot|e0].
      * destruct Hr2 as [-> ->]. right. left.
        split; [reflexivity|]. exists shot. repeat split.
      * destruct Hr2 as [-> ->]. right. right.
        split; [reflexivity|]. exists e0. repeat split; auto.
    + left. repeat split; auto.
Qed.


Let attempt_ := attempt aiohttp subdomain client browser webhook_url.
Let check_ := check_subdomain aiohttp subdomain client browser webhook_url.

(** A probe is its HTTPS pass, followed by its HTTP pass unless the
    HTTPS pass returned from the function or raised. *)
Lemma check_subdomain_passes :
  (emitted (check_ tt) = emitted (attempt_ https tt)
   /\ (result (attempt_ https tt) = Val Return
       \/ exists e, result (attempt_ https tt) = Exc e)
   /\ result (check_ tt)
      = match result (attempt_ https tt) with
        | Val _ => Val tt
        | Exc e => Exc e
        end)
  \/ (emitted (check_ tt)
      = emitted (attempt_ https tt) ++ emitted (attempt_ http tt)
      /\ (result (attempt_ https tt) = Val Next
          \/ result (attempt_ https tt) = Val Continue)
      /\ result (check_ tt)
         = match result (attempt_ http tt) with
           | Val _ => Val tt
           | Exc e => Exc e
           end).
Proof.
  destruct (result (attempt_ https tt)) as [f|e] eqn:E.
  - destruct f.
    + left.
      destruct (check_subdomain_stops aiohttp subdomain client browser
                  webhook_url E) as [He Hr].
      fold check_ in He, Hr. auto.
    + right.
      destruct (check_subdomain_goes_on aiohttp subdomain client browser
                  webhook_url Continue E) as [He Hr]; [discriminate|].
      fold check_ attempt_ in He, Hr. auto.
    + right.
      destruct (check_subdomain_goes_on aiohttp subdomain client browser
                  webhook_url Next E) as [He Hr]; [discriminate|].
      fold check_ attempt_ in He, Hr. auto.
  - left.
    destruct (check_subdomain_raises aiohttp subdomain client browser
                webhook_url e E) as [He Hr].
    fold check_ in He, Hr. eauto.
Qed.

End Passes.

(** X7.  A 404 on HTTPS ends the probe when the capture returns: HTTP
    is not requested, [take_screenshot] is called once, for the HTTPS
    URL, and [send_to_discord] is called exactly when the capture
    returned a raster that is not empty. *)
Theorem a_404_on_https_ends_the_probe :
  forall aiohttp subdomain client browser webhook_url shot,
    let url := url_of https subdomain in
    let run := check_subdomain aiohttp subdomain client browser webhook_url
                 tt in
    is_404 (client url) = true ->
    result (take_screenshot browser url tt) = Val shot ->
    result run = Val tt
    /\ requests (emitted run) = [url]
    /\ captures (emitted run) = [url]
    /\ alerts (emitted run) = if screenshot_truthy shot then [url] else [].
Proof.
  intros aiohttp subdomain client browser webhook_url shot url run H4 Ht.
  pose proof (attempt_cases aiohttp subdomain client browser webhook_url
                https) as A.
  cbv zeta in A. fold url in A.
  destruct A as [[F _]|[[_ [shot' [Ht' [Hr [Hc Ha]]]]]|[_ [e [Ht' _]]]]].
  - rewrite H4 in F. discriminate F.
  - rewrite Ht in Ht'. injection Ht' as <-.
    destruct (check_subdomain_stops aiohttp subdomain client browser
                webhook_url Hr) as [He Hres].
    subst run. rewrite He, Hres, attempt_requests, Hc, Ha.
    repeat split.
  - rewrite Ht in Ht'. discriminate Ht'.
Qed.

(** X7 at a concrete input: 404 on both protocols, a browser where
    every call returns. *)
Lemma a_404_on_https_ends_the_probe_witness :
  let run := check_subdomain webhook_ok "old.example.com"
               (always (Returns 404)) engine_ok sample_webhook_url tt in
  result run = Val tt
  /\ requests (emitted run) = ["https://old.example.com"]
  /\ captures (emitted run) = ["https://old.example.com"]
  /\ alerts (emitted run) = ["https://old.example.com"].
Proof.
  exact (a_404_on_https_ends_the_probe webhook_ok "old.example.com"
           (always (Returns 404)) engine_ok sample_webhook_url
           (Some sample_png) eq_refl eq_refl).
Defined.

(** X8.  Whatever else HTTPS answers, a status other than 404 or any
    exception, the probe goes on to HTTP, and its HTTPS pass neither
    captures nor alerts. *)
Theorem any_other_answer_on_https_goes_on_to_http :
  forall aiohttp subdomain client browser webhook_url,
    let run := check_subdomain aiohttp subdomain client browser webhook_url
                 tt in
    is_404 (client (url_of https subdomain)) = false ->
    requests (emitted run)
    = [url_of https subdomain; url_of http subdomain]
    /\ emitted run
       = emitted (attempt aiohttp subdomain client browser webhook_url
                    https tt)
         ++ emitted (attempt aiohttp subdomain client browser webhook_url
                       http tt)
    /\ captures (emitted (attempt aiohttp subdomain client browser
                            webhook_url https tt)) = []
    /\ alerts (emitted (attempt aiohttp subdomain client browser
                          webhook_url https tt)) = [].
Proof.
  intros aiohttp subdomain client browser webhook_url run H.
  pose proof (attempt_cases aiohttp subdomain client browser webhook_url
                https) as A.
  cbv zeta in A.
  destruct A as [[_ [Hc [Ha Hr]]]|[[F _]|[F _]]];
    try (rewrite H in F; discriminate F).
  assert (He : emitted run
               = emitted (attempt aiohttp subdomain client browser
                            webhook_url https tt)
                 ++ emitted (attempt aiohttp subdomain client browser
                               webhook_url http tt)).
  { destruct Hr as [Hr|Hr].
    - destruct (check_subdomain_goes_on aiohttp subdomain client browser
                  webhook_url Next Hr) as [He _]; [discriminate|]. exact He.
    - destruct (check_subdomain_goes_on aiohttp subdomain client browser
                  webhook_url Continue Hr) as [He _]; [discriminate|].
      exact He. }
  split; [|auto].
  rewrite He, requests_app, !attempt_requests. reflexivity.
Qed.

(** X8 at a concrete input: too many redirects on both protocols. *)
Lemma any_other_answer_on_https_goes_on_to_http_witness :
  requests
    (emitted (check_subdomain webhook_ok "new.example.com"
                (always (Raises TooManyRedirects)) engine_ok
                sample_webhook_url tt))
  = ["https://new.example.com"; "http://new.example.com"].
Proof.
  exact (proj1 (any_other_answer_on_https_goes_on_to_http webhook_ok
                  "new.example.com" (always (Raises TooManyRedirects))
                  engine_ok sample_webhook_url eq_refl)).
Defined.

Lemma attempt_captures_follow_404
  aiohttp subdomain client browser webhook_url proto :
  Forall (fun url => url = url_of proto subdomain
                     /\ is_404 (client url) = true)
    (captures (emitted (attempt aiohttp subdomain client browser webhook_url
                          proto tt))).
Proof.
  pose proof (attempt_cases aiohttp subdomain client browser webhook_url
                proto) as A.
  cbv zeta in A.
  destruct A as [[_ [Hc _]]|[[H4 [shot [_ [_ [Hc _]]]]]
                            |[H4 [e [_ [_ [[Hc|Hc] _]]]]]]];
    rewrite Hc; repeat constructor; exact H4.
Qed.

(** X9.  [take_screenshot] is only ever called with a URL the probe
    requested and that was answered 404. *)
Theorem every_capture_follows_a_404 :
  forall aiohttp subdomain client browser webhook_url,
    let run := check_subdomain aiohttp subdomain client browser webhook_url
                 tt in
    Forall (fun url => In url (requests (emitted run))
                       /\ is_404 (client url) = true)
      (captures (emitted run)).
Proof.
  intros aiohttp subdomain client browser webhook_url run.
  pose proof (attempt_captures_follow_404 aiohttp subdomain client browser
                webhook_url https) as C1.
  pose proof (attempt_captures_follow_404 aiohttp subdomain client browser
                webhook_url http) as C2.
  destruct (check_subdomain_passes aiohttp subdomain client browser
              webhook_url) as [[He _]|[He _]];
    subst run; rewrite He.
  - rewrite attempt_requests.
    eapply Forall_impl; [|exact C1].
    intros url [-> H4]. split; [left; reflexivity | exact H4].
  - rewrite requests_app, captures_app, !attempt_requests.
    apply Forall_app. split.
    + eapply Forall_impl; [|exact C1].
      intros url [-> H4]. split; [left; reflexivity | exact H4].
    + eapply Forall_impl; [|exact C2].
      intros url [-> H4]. split; [right; left; reflexivity | exact H4].
Qed.

(** X10.  A probe calls [send_to_discord] at most once, also when
    captures raise; when it does, the URL is one it captured, the
    capture returned a raster that is not empty, and the probe returns. *)
Theorem a_probe_alerts_at_most_once :
  forall aiohttp subdomain client browser webhook_url,
    let run := check_subdomain aiohttp subdomain client browser webhook_url
                 tt in
    alerts (emitted run) = []
    \/ exists url shot,
         alerts (emitted run) = [url]
         /\ In url (captures (emitted run))
         /\ result (take_screenshot browser url tt) = Val (Some shot)
         /\ shot <> []
         /\ result run = Val tt.
Proof.
  intros aiohttp subdomain client browser webhook_url run.
  assert (P : forall proto,
             let r := attempt aiohttp subdomain client browser webhook_url
                        proto tt in
             alerts (emitted r) = []
             \/ exists shot,
                  alerts (emitted r) = [url_of proto subdomain]
                  /\ captures (emitted r) = [url_of proto subdomain]
                  /\ result (take_screenshot browser
                               (url_of proto subdomain) tt)
                     = Val (Some shot)
                  /\ shot <> []
                  /\ result r = Val Return).
  { intro proto. cbv zeta.
    pose proof (attempt_cases aiohttp subdomain client browser webhook_url
                  proto) as A.
    cbv zeta in A.
    destruct A as [[_ [_ [Ha _]]]|[[_ [shot [Ht [Hr [Hc Ha]]]]]
                                  |[_ [e [_ [Ha _]]]]]]; auto.
    destruct shot as [b|]; [|left; exact Ha].
    destruct b as [|x b]; [left; exact Ha|].
    right. exists (x :: b). repeat split; auto. discriminate. }
  pose proof (P https) as P1. pose proof (P http) as P2. cbv zeta in P1, P2.
  destruct (check_subdomain_passes aiohttp subdomain client browser
              webhook_url) as [[He [_ Hres]]|[He [Hr Hres]]];
    subst run; rewrite He.
  - destruct P1 as [Ha|[shot [Ha [Hc [Ht [Hn Hr]]]]]]; [left; exact Ha|].
    right. exists (url_of https subdomain), shot.
    rewrite Hres, Hr, Hc. repeat split; auto. left; reflexivity.
  - rewrite alerts_app, captures_app.
    destruct P1 as [Ha|[shot [_ [_ [_ [_ F]]]]]];
      [|destruct Hr as [Hr|Hr]; rewrite Hr in F; discriminate F].
    rewrite Ha. cbn [app].
    destruct P2 as [Ha2|[shot [Ha2 [Hc [Ht [Hn Hr2]]]]]]; [left; exact Ha2|].
    right. exists (url_of http subdomain), shot.
    rewrite Hres, Hr2, Hc. repeat split; auto.
    apply in_or_app. right. left. reflexivity.
Qed.

(** X11.  The only exceptions that leave [check_subdomain] are those
    that left [take_screenshot] after a 404: every exception of the
    request itself is caught. *)
Theorem a_probe_raises_only_what_a_capture_raised :
  forall aiohttp subdomain client browser webhook_url e,
    result (check_subdomain aiohttp subdomain client browser webhook_url tt)
    = Exc e ->
    exists proto,
      is_404 (client (url_of proto subdomain)) = true
      /\ result (take_screenshot browser (url_of proto subdomain) tt) = Exc e.
Proof.
  intros aiohttp subdomain client browser webhook_url e H.
  assert (P : forall proto,
             result (attempt aiohttp subdomain client browser webhook_url
                       proto tt) = Exc e ->
             is_404 (client (url_of proto subdomain)) = true
             /\ result (take_screenshot browser (url_of proto subdomain) tt)
                = Exc e).
  { intros proto Hr.
    pose proof (attempt_cases aiohttp subdomain client browser webhook_url
                  proto) as A.
    cbv zeta in A.
    destruct A as [[_ [_ [_ [F|F]]]]|[[_ [shot [_ [F _]]]]
                                     |[H4 [e' [Ht [_ [_ [F|[F|F]]]]]]]]];
      rewrite Hr in F; try discriminate F.
    injection F as <-. auto. }
  destruct (check_subdomain_passes aiohttp subdomain client browser
              webhook_url) as [[_ [_ Hres]]|[_ [_ Hres]]];
    rewrite H in Hres.
  - exists https. apply P.
    destruct (result (attempt aiohttp subdomain client browser webhook_url
                        https tt)); [discriminate Hres|].
    injection Hres as <-. reflexivity.
  - exists http. apply P.
    destruct (result (attempt aiohttp subdomain client browser webhook_url
                        http tt)); [discriminate Hres|].
    injection Hres as <-. reflexivity.
Qed.

(** X11 at a concrete input: the request raises an [HTTPStatusError]
    of status 404 and the page neither loads nor closes. *)
Lemma a_probe_raises_only_what_a_capture_raised_witness :
  exists proto,
    is_404 (always (Raises (HTTPStatusError 404))
              (url_of proto "old.example.com")) = true
    /\ result (take_screenshot engine_stuck
                 (url_of proto "old.example.com") tt)
       = Exc (Error (PlaywrightError "Page crashed")).
Proof.
  exact (a_probe_raises_only_what_a_capture_raised webhook_ok
           "old.example.com" (always (Raises (HTTPStatusError 404)))
           engine_stuck sample_webhook_url
           (Error (PlaywrightError "Page crashed")) eq_refl).
Defined.

Lemma disciplined_prefix evs n :
  disciplined evs -> exists h, walk Nothing (firstn n evs) = Some h.
Proof.
  unfold disciplined. rewrite <- (firstn_skipn n evs) at 1.
  rewrite walk_app.
  destruct (walk Nothing (firstn n evs)) as [h|]; [eauto | discriminate].
Qed.

(** X12.  At every point of a probe it holds at most one slot of each
    semaphore, the capture slot only together with the probe slot; when
    the probe is over, returned or raised, it holds none. *)
Theorem a_probe_holds_one_slot_of_each_at_most_and_none_at_the_end :
  forall aiohttp subdomain client browser webhook_url s n,
    let evs := emitted (check_subdomain aiohttp subdomain client browser
                          webhook_url tt) in
    held s (firstn n evs) <= 1
    /\ held browser_semaphore (firstn n evs)
       <= held httpx_semaphore (firstn n evs)
    /\ held s evs = 0.
Proof.
  intros aiohttp subdomain client browser webhook_url s n evs.
  pose proof (check_subdomain_disciplined aiohttp subdomain client browser
                webhook_url tt) as D.
  fold evs in D.
  destruct (disciplined_prefix evs n D) as [h W].
  rewrite !(walk_held _ _ _ W), (walk_held _ _ _ D).
  destruct s, h; cbn [level]; repeat split; lia.
Qed.

(** ** run_rapiddns *)

Lemma set_add_spec x s :
  NoDup s ->
  NoDup (Py.set_add x s) /\ forall y, In y (Py.set_add x s) <-> In y s \/ y = x.
Proof.
  intro H. unfold Py.set_add.
  destruct (in_dec string_dec x s) as [Hin|Hnin].
  - split; [exact H|]. intro y. split; [auto|].
    intros [Hy| ->]; assumption.
  - split.
    + apply NoDup_app; [exact H | repeat constructor; intros [] |].
      intros y Hy [<-|[]]. contradiction.
    + intro y. rewrite in_app_iff. cbn [In]. intuition.
Qed.

Lemma set_update_spec xs : forall s,
  NoDup s ->
  NoDup (Py.set_update s xs)
  /\ forall y, In y (Py.set_update s xs) <-> In y s \/ In y xs.
Proof.
  unfold Py.set_update.
  induction xs as [|x xs IH]; intros s H; cbn [fold_left].
  - split; [exact H|]. intro y. cbn [In]. intuition.
  - destruct (set_add_spec x s H) as [Hn Hi].
    destruct (IH _ Hn) as [Hn' Hi'].
    split; [exact Hn'|].
    intro y. rewrite Hi', Hi. cbn [In]. intuition.
Qed.

Lemma truthy_nonempty x : Py.truthy x = true <-> x <> EmptyString.
Proof.
  destruct x; cbn; split; intro H; try reflexivity; try discriminate;
    contradiction H; reflexivity.
Qed.

Lemma nonempty_stripped_in found x :
  In x (nonempty_stripped found)
  <-> x <> EmptyString /\ exists line, In line found /\ x = Py.strip line.
Proof.
  unfold nonempty_stripped. rewrite filter_In, in_map_iff, truthy_nonempty.
  split.
  - intros [[line [<- Hin]] Hx]. split; [exact Hx|]. exists line. auto.
  - intros [Hx [line [Hin ->]]]. split; [exists line; auto | exact Hx].
Qed.

(** X13.  What [run_rapiddns] returns.  When the tool exits with status
    0, the names returned are distinct and are exactly the lines of its
    output, stripped, that are not blank; with any other status, or any
    exception but [FileNotFoundError], the list is empty; with
    [FileNotFoundError] the process exits with status 1.  The local
    variables of the caller are left alone. *)
Theorem run_rapiddns_returns_the_distinct_names_of_the_output :
  forall {S} rapiddns domain (s : S),
    let r := run_rapiddns rapiddns domain s in
    locals r = s
    /\ match rapiddns domain with
       | Returns (returncode, stdout, stderr) =>
           exists subdomains,
             result r = Val subdomains
             /\ NoDup subdomains
             /\ forall x,
                  In x subdomains
                  <-> returncode = 0%Z
                      /\ x <> EmptyString
                      /\ exists line,
                           In line (Py.splitlines (Py.strip stdout))
                           /\ x = Py.strip line
       | Raises FileNotFoundError => result r = Exc (SystemExit 1)
       | Raises _ => result r = Val []
       end.
Proof.
  intros S rapiddns domain s r. subst r.
  split; [apply locals_call|].
  rewrite run_rapiddns_asks_once.
  destruct (rapiddns domain) as [[[returncode stdout] stderr]|e].
  - destruct returncode as [|p|p].
    + cbv -[Py.strip Py.truthy Py.splitlines Py.set_update nonempty_stripped
            In].
      destruct (Py.strip stdout) as [|c out] eqn:E;
        cbv -[Py.strip Py.truthy Py.splitlines Py.set_update
              nonempty_stripped In].
      * exists []. split; [reflexivity|]. split; [constructor|].
        intro x. split; [intros []|].
        intros [_ [_ [line [[] _]]]].
      * eexists. split; [reflexivity|].
        destruct (set_update_spec
                    (nonempty_stripped (Py.splitlines (String c out))) []
                    (NoDup_nil _)) as [Hn Hi].
        split; [exact Hn|].
        intro x. rewrite Hi, nonempty_stripped_in. cbn [In].
        intuition.
    + exists []. split; [reflexivity|]. split; [constructor|].
      intro x. split; [intros [] | intros [F _]; discriminate F].
    + exists []. split; [reflexivity|]. split; [constructor|].
      intro x. split; [intros [] | intros [F _]; discriminate F].
  - destruct e; reflexivity.
Qed.

(** ** main *)


Section Scan.

Variable aiohttp : string -> post_stub.
Variable rapiddns : string -> outcome (Z * string * string).


Lemma enumerate_domains_enumerating target_domains :
  emits (only enumerating)
    (enumerate_domains rapiddns target_domains).
Proof.
  induction target_domains as [|domain rest IH]; cbn [enumerate_domains].
  - apply emits_ret. apply only_nil.
  - apply emits_bind; [apply only_app | | intro subs].
    + unfold run_rapiddns. emits_only_through enumerating.
    + apply emits_bind; [apply only_app | | intro; exact IH].
      destruct subs as [|sub subs]; [apply emits_ret; apply only_nil|].
      generalize (sub :: subs). intro l.
      induction l as [|x l IHl]; cbn [schedule_checks].
      * apply emits_ret. apply only_nil.
      * apply emits_bind; [apply only_app | | intro; exact IHl].
        unfold set_tasks. emits_only_through enumerating.
Qed.


(** What [main] emits from the banner on. *)
Lemma scan_emitted w target_domains s :
  emitted (scan aiohttp rapiddns w target_domains s)
  = (if webhook_invalid w then [Print Stderr MsgInvalidWebhook] else [])
    ++ Print Stdout (MsgBanner (List.length target_domains)
                               (webhook_truthy (DISCORD_WEBHOOK_URL w)))
    :: match contexts w, launch w with
       | Raises _, _ => []
       | Returns _, Raises e =>
           [Launch false;
            Print Stderr (match e with
                          | PlaywrightError _ => MsgLaunchFailed
                          | _ => MsgMainUnexpected
                          end);
            Print Stdout MsgScanComplete]
       | Returns _, Returns _ =>
           let r := enumerate_domains rapiddns target_domains
                      {| browser := true; all_subdomain_check_tasks := [] |} in
           Launch true :: Print Stdout MsgBrowserLaunched :: emitted r
           ++ match result r with
              | Exc _ =>
                  BrowserClose
                  :: match browser_close w with
                     | Returns _ => [Print Stdout MsgBrowserClosed]
                     | Raises _ => []
                     end
              | Val _ =>
                  match probed (emitted r) with
                  | [] => [Print Stdout MsgNoValidSubdomains]
                  | tasks =>
                      Print Stdout (MsgChecking (List.length tasks))
                      :: Gather (List.length tasks)
                      :: match first_raised aiohttp w tasks with
                         | Some (Error (PlaywrightError _)) =>
                             [Print Stderr MsgLaunchFailed]
                         | Some (Error _) => [Print Stderr MsgMainUnexpected]
                         | _ => []
                         end
                  end
                  ++ BrowserClose
                     :: match browser_close w with
                        | Returns _ =>
                            [Print Stdout MsgBrowserClosed;
                             Print Stdout MsgScanComplete]
                        | Raises _ => []
                        end
              end
       end.
Proof.
  unfold scan.
  rewrite emitted_bind.
  assert (Hw : forall s0 : main_locals,
             (if webhook_invalid w
              then print Stderr MsgInvalidWebhook else ret tt) s0
             = Ran (Val tt) s0
                   (if webhook_invalid w
                    then [Print Stderr MsgInvalidWebhook] else []))
    by (intro; destruct (webhook_invalid w); reflexivity).
  rewrite Hw. cbn [result locals emitted]. f_equal.
  rewrite emitted_bind. cbn [print emit ret result locals emitted app].
  f_equal.
  rewrite emitted_bind. unfold awaited at 1.
  destruct (contexts w) as [[]|ec];
    cbn [ret raise result locals emitted app]; [|reflexivity].
  rewrite emitted_bind, set_browser_run. cbn [result locals emitted app].
  rewrite emitted_bind, result_try_finally,
    emitted_try_finally, emitted_try_except, result_try_except,
    locals_try_except.
  match goal with
  | |- context [try_finally (try_except ?b ?h) ?c] =>
      set (body := b); set (cleanup := c)
  end.
  match goal with
  | |- context [body ?s0] => set (s1 := s0)
  end.
  set (r := enumerate_domains rapiddns target_domains
              {| browser := true; all_subdomain_check_tasks := [] |}).
  assert (Hc : forall l,
             cleanup l
             = if browser l
               then match browser_close w with
                    | Returns _ =>
                        Ran (Val tt) l
                            [BrowserClose; Print Stdout MsgBrowserClosed]
                    | Raises e => Ran (Exc (Error e)) l [BrowserClose]
                    end
               else Ran (Val tt) l [])
    by (intro l; unfold cleanup, bind, awaited;
        cbn [get result locals emitted];
        destruct (browser l); [|reflexivity];
        destruct (browser_close w) as [[]|e]; reflexivity).
  assert (B : match launch w with
              | Raises e => body s1 = Ran (Exc (Error e)) s1 [Launch false]
              | Returns _ =>
                  browser (locals (body s1)) = true
                  /\ emitted (body s1)
                     = Launch true :: Print Stdout MsgBrowserLaunched
                       :: emitted r
                       ++ match result r with
                          | Exc _ => []
                          | Val _ =>
                              match probed (emitted r) with
                              | [] => [Print Stdout MsgNoValidSubdomains]
                              | tasks =>
                                  [Print Stdout
                                     (MsgChecking (List.length tasks));
                                   Gather (List.length tasks)]
                              end
                          end
                  /\ result (body s1)
                     = match result r with
                       | Exc e => Exc e
                       | Val _ =>
                           match probed (emitted r) with
                           | [] => Val tt
                           | tasks =>
                               match first_raised aiohttp w tasks with
                               | Some e => Exc e
                               | None => Val tt
                               end
                           end
                       end
              end).
  { unfold body, external.
    destruct (launch w) as [[]|e]; [|reflexivity].
    rewrite locals_bind, emitted_bind, result_bind.
    cbn [result locals emitted].
    rewrite locals_bind, emitted_bind, result_bind, set_browser_run.
    cbn [result locals emitted app].
    rewrite locals_bind, emitted_bind, result_bind.
    cbn [print emit result locals emitted app].
    rewrite locals_bind, emitted_bind, result_bind, set_tasks_run.
    cbn [result locals emitted app browser].
    rewrite locals_bind, emitted_bind, result_bind.
    fold r.
    destruct (enumerate_domains_locals rapiddns target_domains
                {| browser := true; all_subdomain_check_tasks := [] |})
      as [Hb Ht].
    cbv zeta in Hb, Ht. fold r in Hb, Ht.
    cbn [browser all_subdomain_check_tasks app] in Hb, Ht.
    destruct (result r) as [[]|e].
    2: { rewrite app_nil_r. auto. }
    rewrite locals_bind, emitted_bind, result_bind.
    cbn [get result locals emitted app]. rewrite Ht.
    destruct (probed (emitted r)) as [|t ts].
    - cbn [print emit result locals emitted]. auto.
    - rewrite locals_bind, emitted_bind, result_bind.
      cbn [print emit result locals emitted app].
      unfold gather.
      rewrite locals_bind, emitted_bind, result_bind.
      cbn [emit result locals emitted app].
      destruct (first_raised aiohttp w (t :: ts)) as [e|];
        cbn [raise ret result locals emitted]; rewrite ?app_nil_r; auto. }
  clearbody body.
  destruct (launch w) as [[]|e].
  - destruct B as [Bb [Be Br]]. rewrite Be, Br.
    cbv zeta. fold r.
    destruct (result r) as [[]|e] eqn:Er.
    + destruct (probed (emitted r)) as [|t ts].
      * rewrite !Hc, Bb.
        destruct (browser_close w) as [[]|eb];
          cbn [result locals emitted app];
          rewrite <- ?app_assoc; reflexivity.
      * destruct (first_raised aiohttp w (t :: ts)) as [[err|code]|] eqn:E.
        -- assert (Hl : forall (m : message),
                     print Stderr m (locals (body s1))
                     = Ran (Val tt) (locals (body s1)) [Print Stderr m])
             by reflexivity.
           destruct err; rewrite Hl, !Hc; cbn [result locals emitted app];
             rewrite Bb;
             (destruct (browser_close w) as [[]|eb];
              cbn [result locals emitted app];
              rewrite <- ?app_assoc; reflexivity).
        -- contradiction (first_raised_not_exit aiohttp w (t :: ts) code E).
        -- rewrite !Hc, Bb.
           destruct (browser_close w) as [[]|eb];
             cbn [result locals emitted app];
             rewrite <- ?app_assoc; reflexivity.
    + pose proof (enumerate_domains_result rapiddns target_domains
                    {| browser := true; all_subdomain_check_tasks := [] |})
        as Hr.
      fold r in Hr. rewrite Er in Hr.
      destruct (existsb (tool_not_found rapiddns) target_domains);
        [|discriminate Hr].
      injection Hr as ->.
      rewrite !Hc, Bb.
      destruct (browser_close w) as [[]|eb];
        cbn [result locals emitted app];
        rewrite <- ?app_assoc; reflexivity.
  - rewrite B. cbn [result locals emitted app].
    destruct e; cbn [print emit result locals emitted app];
      rewrite !Hc; reflexivity.
Qed.


Lemma main_emitted w :
  main_events aiohttp rapiddns w
  = match input_file w with
    | Raises FileNotFoundError =>
        [OpenFile false; Print Stderr MsgInputNotFound]
    | Raises _ => [OpenFile false]
    | Returns lines =>
        OpenFile true
        :: match read_domains lines with
           | [] => [Print Stdout MsgNoDomains]
           | target_domains =>
               emitted (scan aiohttp rapiddns w target_domains
                          {| browser := false;
                             all_subdomain_check_tasks := [] |})
           end
    end.
Proof.
  unfold main_events, main.
  destruct (input_file w) as [lines|e]; [|destruct e; reflexivity].
  rewrite emitted_bind. cbn [emit result locals emitted app].
  destruct (read_domains lines); reflexivity.
Qed.

Lemma enumerating_probed_spawned_only evs :
  only enumerating evs ->
  ~ In BrowserClose evs
  /\ (forall ok, ~ In (Launch ok) evs)
  /\ (forall n, ~ In (Gather n) evs).
Proof.
  unfold only. rewrite Forall_forall. intro H.
  repeat split; repeat intro;
    match goal with
    | Hin : In _ evs |- _ => apply H in Hin; discriminate Hin
    end.
Qed.

Lemma enumerate_domains_spawned target_domains : forall s,
  existsb (tool_not_found rapiddns) target_domains = false ->
  spawned (emitted (enumerate_domains rapiddns target_domains s))
  = map (fun domain => [RAPIDDNS_PATH; "-s"; domain]) target_domains.
Proof.
  induction target_domains as [|domain rest IH]; intros s H;
    cbn [enumerate_domains map].
  - reflexivity.
  - cbn [existsb] in H. apply orb_false_iff in H. destruct H as [Hd Hrest].
    rewrite emitted_bind.
    destruct (run_rapiddns_spawned rapiddns domain s) as [Hs _].
    cbv zeta in Hs.
    destruct (run_rapiddns_returns rapiddns domain s Hd) as [subs Hr].
    rewrite Hr, spawned_app, Hs. cbn [app]. f_equal.
    rewrite emitted_bind.
    destruct subs as [|sub subs].
    + cbn [ret result locals emitted app]. apply IH. exact Hrest.
    + assert (R : result (schedule_checks (sub :: subs)
                            (locals (run_rapiddns rapiddns domain s)))
                  = Val tt) by apply schedule_checks_returns.
      rewrite R, spawned_app.
      destruct (schedule_checks_locals (sub :: subs)
                  (locals (run_rapiddns rapiddns domain s))) as [_ [_ Hn]].
      cbv zeta in Hn. rewrite Hn. cbn [app]. apply IH. exact Hrest.
Qed.

End Scan.

(** The events of a run in which the browser was launched: the
    enumeration between what comes before and what comes after. *)
Lemma main_emitted_launched aiohttp rapiddns w lines d ds c u :
  input_file w = Returns lines -> read_domains lines = d :: ds ->
  contexts w = Returns c -> launch w = Returns u ->
  let r := enumerate_domains rapiddns (d :: ds)
             {| browser := true; all_subdomain_check_tasks := [] |} in
  exists opening awaiting,
    main_events aiohttp rapiddns w
    = opening ++ [Launch true; Print Stdout MsgBrowserLaunched]
      ++ emitted r ++ awaiting
      ++ BrowserClose
         :: (if succeeded (browser_close w)
             then Print Stdout MsgBrowserClosed
                  :: (if reaches_missing_tool rapiddns w then []
                      else [Print Stdout MsgScanComplete])
             else [])
    /\ only enumerating (emitted r)
    /\ Forall (fun ev => exists to m, ev = Print to m \/ ev = OpenFile true)
              opening
    /\ reaches_missing_tool rapiddns w
       = existsb (tool_not_found rapiddns) (d :: ds)
    /\ if reaches_missing_tool rapiddns w then awaiting = []
       else match probed (emitted r) with
            | [] => awaiting = [Print Stdout MsgNoValidSubdomains]
            | tasks =>
                exists caught,
                  awaiting = Print Stdout (MsgChecking (List.length tasks))
                             :: Gather (List.length tasks) :: caught
                  /\ (caught = [] \/ exists m, caught = [Print Stderr m])
            end.
Proof.
  intros Hi Hd Hc Hl r.
  rewrite main_emitted, Hi, Hd, scan_emitted, Hc, Hl. cbv zeta. fold r.
  unfold reaches_missing_tool. rewrite Hi, Hd, Hc, Hl. cbn [succeeded andb].
  pose proof (enumerate_domains_result rapiddns (d :: ds)
                {| browser := true; all_subdomain_check_tasks := [] |}) as Hr.
  fold r in Hr. rewrite Hr.
  pose proof (enumerate_domains_enumerating rapiddns (d :: ds)
                {| browser := true; all_subdomain_check_tasks := [] |}) as He.
  fold r in He. clearbody r.
  exists (OpenFile true
          :: (if webhook_invalid w then [Print Stderr MsgInvalidWebhook]
              else [])
          ++ [Print Stdout (MsgBanner (List.length (d :: ds))
                              (webhook_truthy (DISCORD_WEBHOOK_URL w)))]).
  assert (Ho : Forall (fun ev => exists to m,
                           ev = Print to m \/ ev = OpenFile true)
                 (OpenFile true
                  :: (if webhook_invalid w
                      then [Print Stderr MsgInvalidWebhook] else [])
                  ++ [Print Stdout (MsgBanner (List.length (d :: ds))
                                      (webhook_truthy
                                         (DISCORD_WEBHOOK_URL w)))])).
  { constructor; [exists Stdout, MsgScanComplete; auto|].
    apply Forall_app. split.
    - destruct (webhook_invalid w); repeat constructor.
      exists Stderr, MsgInvalidWebhook. auto.
    - repeat constructor. eexists _, _. left. reflexivity. }
  destruct (existsb (tool_not_found rapiddns) (d :: ds)).
  - exists []. repeat split; try assumption.
    destruct (browser_close w) as [[]|eb]; cbn [succeeded app];
      rewrite <- !app_assoc; reflexivity.
  - destruct (probed (emitted r)) as [|t ts].
    + exists [Print Stdout MsgNoValidSubdomains].
      repeat split; try assumption.
      destruct (browser_close w) as [[]|eb]; cbn [succeeded app];
        rewrite <- !app_assoc; reflexivity.
    + set (caught := match first_raised aiohttp w (t :: ts) with
                     | Some (Error (PlaywrightError _)) =>
                         [Print Stderr MsgLaunchFailed]
                     | Some (Error _) => [Print Stderr MsgMainUnexpected]
                     | _ => []
                     end).
      exists (Print Stdout (MsgChecking (List.length (t :: ts)))
              :: Gather (List.length (t :: ts)) :: caught).
      split; [|split; [exact He|split; [exact Ho|split; [reflexivity|]]]].
      * destruct (browser_close w) as [[]|eb]; cbn [succeeded app];
          rewrite <- !app_assoc; cbn [app]; reflexivity.
      * exists caught. split; [reflexivity|]. unfold caught.
        destruct (first_raised aiohttp w (t :: ts)) as [[[]|]|]; eauto.
Qed.

(** In every other run [main] only opens the file, tries to launch the
    browser and prints. *)
Lemma main_emitted_not_launched aiohttp rapiddns w :
  target_domains_of w = [] \/ succeeded (contexts w) = false
  \/ succeeded (launch w) = false ->
  reaches_missing_tool rapiddns w = false
  /\ Forall (fun ev => (exists to m, ev = Print to m)
                       \/ (exists ok, ev = OpenFile ok)
                       \/ ev = Launch false)
       (main_events aiohttp rapiddns w).
Proof.
  unfold target_domains_of, reaches_missing_tool.
  rewrite main_emitted.
  assert (Hp : forall to m,
             (exists to' m', Print to m = Print to' m')
             \/ (exists ok, Print to m = OpenFile ok)
             \/ Print to m = Launch false) by (intros; left; eauto).
  assert (Ho : forall ok,
             (exists to' m', OpenFile ok = Print to' m')
             \/ (exists ok', OpenFile ok = OpenFile ok')
             \/ OpenFile ok = Launch false) by (intros; right; left; eauto).
  destruct (input_file w) as [lines|e].
  2: { intros _. split; [reflexivity|].
       destruct e; repeat (constructor; auto). }
  destruct (read_domains lines) as [|d ds].
  { intros _. split; [apply andb_false_r|]. repeat (constructor; auto). }
  intros [F|[H|H]]; [discriminate F | |];
    rewrite H; (split; [rewrite ?andb_false_r; reflexivity|]);
    rewrite scan_emitted.
  - destruct (contexts w) as [c|e]; [discriminate H|].
    constructor; [auto|].
    apply Forall_app. split.
    + destruct (webhook_invalid w); repeat (constructor; auto).
    + repeat (constructor; auto).
  - destruct (launch w) as [u|e]; [discriminate H|].
    constructor; [auto|].
    apply Forall_app. split.
    + destruct (webhook_invalid w); repeat (constructor; auto).
    + destruct (contexts w); repeat (constructor; auto).
Qed.

Lemma main_launched_or_not w :
  (exists lines d ds c u,
     input_file w = Returns lines /\ read_domains lines = d :: ds
     /\ contexts w = Returns c /\ launch w = Returns u)
  \/ target_domains_of w = [] \/ succeeded (contexts w) = false
  \/ succeeded (launch w) = false.
Proof.
  unfold target_domains_of.
  destruct (input_file w) as [lines|]; [|right; left; reflexivity].
  destruct (read_domains lines) as [|d ds] eqn:Ed;
    [right; left; reflexivity|].
  destruct (contexts w) as [c|e]; [|right; right; left; reflexivity].
  destruct (launch w) as [u|e]; [|right; right; right; reflexivity].
  left. exists lines, d, ds, c, u. auto.
Qed.

Lemma idle_events_spawn_nothing evs :
  Forall (fun ev => (exists to m, ev = Print to m)
                    \/ (exists ok, ev = OpenFile ok)
                    \/ ev = Launch false) evs ->
  spawned evs = [] /\ probed evs = [].
Proof.
  induction 1 as [|ev evs [[to [m ->]]|[[ok ->]| ->]] _ IH];
    [split; reflexivity | exact IH | exact IH | exact IH].
Qed.

Lemma opening_events_spawn_nothing evs :
  Forall (fun ev => exists to m, ev = Print to m \/ ev = OpenFile true)
    evs ->
  spawned evs = [] /\ probed evs = [].
Proof.
  induction 1 as [|ev evs [to [m [->| ->]]] _ IH];
    [split; reflexivity | exact IH | exact IH].
Qed.

(** X14.  When the tool is installed, [main] runs it once for each
    domain of the input file, in the order of the file, as
    [rapiddns -s domain], provided the context managers were entered
    and the browser was launched; it is never run otherwise. *)
Theorem tool_is_run_once_for_each_domain_in_order :
  forall aiohttp rapiddns w,
    existsb (tool_not_found rapiddns) (target_domains_of w) = false ->
    spawned (main_events aiohttp rapiddns w)
    = if succeeded (contexts w) && succeeded (launch w)
      then map (fun domain => [RAPIDDNS_PATH; "-s"; domain])
               (target_domains_of w)
      else [].
Proof.
  intros aiohttp rapiddns w H.
  destruct (main_launched_or_not w)
    as [[lines [d [ds [c [u [Hi [Hd [Hc Hl]]]]]]]]|N].
  - destruct (main_emitted_launched aiohttp rapiddns w lines d ds c u
                Hi Hd Hc Hl)
      as [opening [awaiting [E [He [Ho [Hm Ha]]]]]].
    rewrite E. clear E.
    unfold target_domains_of in *. rewrite Hi, Hd in *.
    rewrite Hc, Hl. cbn [succeeded andb].
    rewrite H in Hm. rewrite Hm in *.
    destruct (opening_events_spawn_nothing _ Ho) as [So _].
    rewrite !spawned_app, So, (enumerate_domains_spawned rapiddns _ _ H).
    cbn [spawned flat_map app].
    match goal with
    | |- ?l ++ ?x = ?l => replace x with (@nil (list string));
                            [apply app_nil_r|]
    end.
    assert (Sa : spawned awaiting = []).
    { destruct (probed _); [subst awaiting; reflexivity|].
      destruct Ha as [caught [-> [->|[m ->]]]]; reflexivity. }
    fold (spawned awaiting). rewrite Sa.
    destruct (succeeded (browser_close w)); reflexivity.
  - destruct (main_emitted_not_launched aiohttp rapiddns w N) as [_ Hf].
    destruct (idle_events_spawn_nothing _ Hf) as [-> _].
    destruct N as [-> | [-> | ->]];
      [destruct (succeeded (contexts w) && succeeded (launch w))
      | | rewrite andb_false_r]; reflexivity.
Qed.

(** X14 at a concrete input: one domain in the input file. *)
Lemma tool_is_run_once_for_each_domain_in_order_witness :
  spawned (main_events webhook_ok rapiddns_finds sample_world)
  = [[RAPIDDNS_PATH; "-s"; "example.com"]].
Proof.
  exact (tool_is_run_once_for_each_domain_in_order webhook_ok rapiddns_finds
           sample_world eq_refl).
Defined.

(** X15.  [main] closes the browser exactly when it launched it, once,
    after everything else but its last lines of output, also when
    [sys.exit] ends the scan.  When [browser.close()] raises, nothing
    follows it. *)
Theorem browser_is_closed_exactly_when_it_was_launched :
  forall aiohttp rapiddns w,
    let evs := main_events aiohttp rapiddns w in
    (In BrowserClose evs <-> In (Launch true) evs)
    /\ (In (Launch true) evs ->
        exists before,
          ~ In BrowserClose before
          /\ evs = before
                   ++ BrowserClose
                      :: (if succeeded (browser_close w)
                          then Print Stdout MsgBrowserClosed
                               :: (if reaches_missing_tool rapiddns w
                                   then []
                                   else [Print Stdout MsgScanComplete])
                          else [])).
Proof.
  intros aiohttp rapiddns w evs. subst evs.
  destruct (main_launched_or_not w)
    as [[lines [d [ds [c [u [Hi [Hd [Hc Hl]]]]]]]]|H].
  - destruct (main_emitted_launched aiohttp rapiddns w lines d ds c u
                Hi Hd Hc Hl)
      as [opening [awaiting [E [He [Ho [_ Ha]]]]]].
    rewrite E. clear E.
    split.
    + split; intros _; rewrite !in_app_iff; cbn [In]; auto 10.
    + intros _.
      exists (opening ++ [Launch true; Print Stdout MsgBrowserLaunched]
              ++ emitted (enumerate_domains rapiddns (d :: ds)
                            {| browser := true;
                               all_subdomain_check_tasks := [] |})
              ++ awaiting).
      split; [|rewrite <- !app_assoc; reflexivity].
      rewrite !in_app_iff. cbn [In].
      destruct (enumerating_probed_spawned_only _ He) as [Hn _].
      intros [F|[[F|[F|[]]]|[F|F]]]; try discriminate F.
      * rewrite Forall_forall in Ho.
        destruct (Ho _ F) as [to [m [K|K]]]; discriminate K.
      * exact (Hn F).
      * destruct (reaches_missing_tool rapiddns w); [subst; contradiction|].
        destruct (probed _).
        -- subst. destruct F as [F|[]]. discriminate F.
        -- destruct Ha as [caught [-> [->|[m ->]]]]; cbn [In] in F;
             intuition discriminate.
  - destruct (main_emitted_not_launched aiohttp rapiddns w H) as [_ Hf].
    rewrite Forall_forall in Hf.
    assert (N : forall ev, ev = BrowserClose \/ ev = Launch true ->
                ~ In ev (main_events aiohttp rapiddns w)).
    { intros ev Hev Hin.
      destruct (Hf _ Hin) as [[to [m K]]|[[ok K]|K]];
        destruct Hev; subst; discriminate. }
    split.
    + split; intro F; exfalso;
        [ apply (N BrowserClose (or_introl eq_refl) F)
        | apply (N (Launch true) (or_intror eq_refl) F) ].
    + intro F. exfalso. apply (N (Launch true) (or_intror eq_refl) F).
Qed.

(** X16.  [asyncio.gather] awaits as many tasks as were created, and
    at least one; it is reached whenever a task was created, unless the
    tool is missing for a domain: then the tasks created so far are
    never awaited. *)
Theorem every_task_created_is_awaited :
  forall aiohttp rapiddns w,
    let evs := main_events aiohttp rapiddns w in
    (forall n, In (Gather n) evs ->
       n = List.length (probed evs) /\ 0 < n
       /\ reaches_missing_tool rapiddns w = false)
    /\ (reaches_missing_tool rapiddns w = false -> probed evs <> [] ->
        In (Gather (List.length (probed evs))) evs).
Proof.
  intros aiohttp rapiddns w evs. subst evs.
  destruct (main_launched_or_not w)
    as [[lines [d [ds [c [u [Hi [Hd [Hc Hl]]]]]]]]|H].
  - destruct (main_emitted_launched aiohttp rapiddns w lines d ds c u
                Hi Hd Hc Hl)
      as [opening [awaiting [E [He [Ho [_ Ha]]]]]].
    rewrite E. clear E.
    set (r := enumerate_domains rapiddns (d :: ds)
                {| browser := true; all_subdomain_check_tasks := [] |}) in *.
    clearbody r.
    set (closing := if succeeded (browser_close w)
                    then Print Stdout MsgBrowserClosed
                         :: (if reaches_missing_tool rapiddns w then []
                             else [Print Stdout MsgScanComplete])
                    else []).
    assert (Pc : probed closing = []
                 /\ forall n, ~ In (Gather n) closing).
    { unfold closing.
      destruct (succeeded (browser_close w));
        [destruct (reaches_missing_tool rapiddns w)|];
        (split; [reflexivity|]); intros n F; cbn [In] in F;
        intuition discriminate. }
    destruct Pc as [Pc Gc]. clearbody closing.
    destruct (opening_events_spawn_nothing _ Ho) as [_ Po].
    assert (No : forall n, ~ In (Gather n) opening).
    { intros n F. rewrite Forall_forall in Ho.
      destruct (Ho _ F) as [to [m [K|K]]]; discriminate K. }
    destruct (enumerating_probed_spawned_only _ He) as [_ [_ Hg]].
    assert (Pa : probed awaiting = []
                 /\ forall n, In (Gather n) awaiting ->
                      reaches_missing_tool rapiddns w = false
                      /\ n = List.length (probed (emitted r))
                      /\ 0 < n).
    { destruct (reaches_missing_tool rapiddns w).
      - subst awaiting. split; [reflexivity | intros n []].
      - destruct (probed (emitted r)) as [|t ts].
        + subst awaiting. split; [reflexivity|].
          intros n [F|[]]. discriminate F.
        + destruct Ha as [caught [-> [->|[m ->]]]]; (split; [reflexivity|]);
            intros n F; cbn [In] in F;
            (destruct F as [F|[F|F]]; [discriminate F | | ]);
            try (injection F as <-; cbn [List.length];
                 repeat split; lia);
            try contradiction;
            destruct F as [F|[]]; discriminate F. }
    destruct Pa as [Pa Ga].
    assert (P : probed (opening
                        ++ [Launch true; Print Stdout MsgBrowserLaunched]
                        ++ emitted r ++ awaiting
                        ++ BrowserClose :: closing)
                = probed (emitted r)).
    { rewrite !probed_app, Po, Pa. cbn [probed flat_map app].
      fold (probed closing). rewrite Pc. apply app_nil_r. }
    rewrite P. split.
    + intros n F. rewrite !in_app_iff in F. cbn [In] in F.
      destruct F as [F|[[F|[F|[]]]|[F|[F|[F|F]]]]];
        try discriminate F.
      * contradiction (No n F).
      * contradiction (Hg n F).
      * destruct (Ga n F) as [G1 [G2 G3]]. auto.
      * contradiction (Gc n F).
    + intros Hm Hp. rewrite Hm in Ha.
      rewrite !in_app_iff. right. right. right. left.
      destruct (probed (emitted r)) as [|t ts];
        [contradiction Hp; reflexivity|].
      destruct Ha as [caught [-> _]]. right. left. reflexivity.
  - destruct (main_emitted_not_launched aiohttp rapiddns w H) as [Hm Hf].
    destruct (idle_events_spawn_nothing _ Hf) as [_ P].
    rewrite P. split.
    + intros n F. rewrite Forall_forall in Hf.
      destruct (Hf _ F) as [[to [m K]]|[[ok K]|K]]; discriminate K.
    + intros _ F. contradiction F. reflexivity.
Qed.

(** ** The end of a scan *)


Lemma first_ready_none v ts :
  first_ready v ts = None -> forall t, In t ts -> can_run v t = false.
Proof.
  induction ts as [|t later IH]; intros H t0 Hin; [contradiction|].
  cbn [first_ready] in H. cbv zeta in H.
  assert (L : first_ready v later = None).
  { destruct (first_ready v later) as [[v1 l1]|]; [|reflexivity].
    destruct (todo t) as [|ev rest]; [discriminate H|].
    destruct (enabled v ev); discriminate H. }
  destruct Hin as [<-|Hin]; [|exact (IH L t0 Hin)].
  unfold can_run. destruct (todo t) as [|ev rest]; [reflexivity|].
  destruct (enabled v ev); [discriminate H | reflexivity].
Qed.


Lemma remaining_zero st :
  remaining st = 0 <-> forallb finished (tasks st) = true.
Proof.
  unfold remaining. induction (tasks st) as [|t ts IH];
    cbn [map list_sum forallb].
  - split; reflexivity.
  - unfold finished at 1. destruct (todo t); cbn [List.length andb Nat.add].
    + exact IH.
    + split; intro H; discriminate H.
Qed.

Lemma step_remaining st st' :
  step st st' -> remaining st = S (remaining st').
Proof.
  intros [v before t after ev rest Ht He]. unfold remaining. cbn [tasks].
  rewrite !map_app, !list_sum_app. cbn [map list_sum todo].
  rewrite Ht. cbn [List.length list_sum fold_right]. lia.
Qed.

Lemma finished_in_done jobs st :
  runs jobs st -> forallb finished (tasks st) = true ->
  Forall2 (fun j t => done t = job_events j /\ todo t = []) jobs (tasks st).
Proof.
  unfold runs. intros H. induction H as [|j t js ts Hjt _ IH]; intro F.
  - constructor.
  - cbn [forallb] in F. apply andb_true_iff in F. destruct F as [Ft F].
    constructor; [|exact (IH F)].
    unfold finished in Ft. destruct (todo t); [|discriminate Ft].
    rewrite app_nil_r in Hjt. auto.
Qed.

Lemma finished_holds_nothing jobs st s :
  runs jobs st -> forallb finished (tasks st) = true -> in_flight s st = 0.
Proof.
  intros Hr F. pose proof (finished_in_done jobs st Hr F) as D.
  unfold in_flight. clear Hr F. revert D.
  generalize (tasks st). intros l D.
  induction D as [|j t js ts [Hd _] _ IH]; [reflexivity|].
  cbn [map]. change (list_sum (?x :: ?l)) with (x + list_sum l).
  rewrite IH, Hd, (walk_held s _ _ (job_events_disciplined j)).
  destruct s; reflexivity.
Qed.

(** X17.  When every probe is over, every slot of both semaphores has
    been given back, each task has emitted the events of its probe, and
    the loop has nothing left to run. *)
Theorem all_slots_are_back_when_every_probe_is_over :
  forall jobs st,
    reachable (start jobs) st ->
    forallb finished (tasks st) = true ->
    (forall s, value st s = capacity s)
    /\ Forall2 (fun j t => done t = job_events j /\ todo t = [])
         jobs (tasks st)
    /\ forall st', ~ step st st'.
Proof.
  intros jobs st Hreach F.
  destruct (reachable_invariant jobs st Hreach) as [Hr Hb].
  split; [|split].
  - intro s. specialize (Hb s).
    rewrite (finished_holds_nothing jobs st s Hr F) in Hb. lia.
  - exact (finished_in_done jobs st Hr F).
  - intros st' Hs. apply remaining_zero in F.
    rewrite (step_remaining st st' Hs) in F. discriminate F.
Qed.

(** X17 at a concrete input: the two sample probes run to their end. *)
Lemma all_slots_are_back_when_every_probe_is_over_witness :
  value (rounds 64 (start sample_jobs)) browser_semaphore
  = SCREENSHOT_CONCURRENCY
  /\ value (rounds 64 (start sample_jobs)) httpx_semaphore
     = HTTPX_CONCURRENCY.
Proof.
  exact (conj
           (proj1 (all_slots_are_back_when_every_probe_is_over sample_jobs
                     (rounds 64 (start sample_jobs))
                     (rounds_reachable _ 64 _ (reachable_start _))
                     eq_refl) browser_semaphore)
           (proj1 (all_slots_are_back_when_every_probe_is_over sample_jobs
                     (rounds 64 (start sample_jobs))
                     (rounds_reachable _ 64 _ (reachable_start _))
                     eq_refl) httpx_semaphore)).
Defined.

Lemma rounds_finish jobs n : forall st,
  reachable (start jobs) st -> remaining st <= n ->
  forallb finished (tasks (rounds n st)) = true.
Proof.
  induction n as [|n IH]; intros st Hreach Hn; cbn [rounds].
  - apply remaining_zero. lia.
  - destruct (round_steps st) as [E|Hs].
    + rewrite E. apply IH; [exact Hreach|].
      destruct (remaining st) as [|k] eqn:Ek; [lia|].
      exfalso.
      destruct (reachable_invariant jobs st Hreach) as [Hr Hb].
      assert (U : exists t, In t (tasks st) /\ todo t <> []).
      { destruct (forallb finished (tasks st)) eqn:Ff.
        - apply remaining_zero in Ff. lia.
        - assert (X : exists t, In t (tasks st) /\ finished t = false).
          { clear -Ff. induction (tasks st) as [|t ts IHt];
              [discriminate Ff|].
            cbn [forallb] in Ff. apply andb_false_iff in Ff.
            destruct Ff as [Ff|Ff].
            - exists t. split; [left; reflexivity | exact Ff].
            - destruct (IHt Ff) as [t' [Hin Ht']].
              exists t'. split; [right; exact Hin | exact Ht']. }
          destruct X as [t [Hin Hf]]. exists t. split; [exact Hin|].
          unfold finished in Hf. destruct (todo t); [discriminate Hf|].
          discriminate. }
      destruct U as [t [Hin Hne]].
      destruct (unfinished_finds_runner jobs st t Hr Hb Hin Hne)
        as [t' [Hin' Hc]].
      unfold round in E.
      destruct (first_ready (value st) (tasks st)) as [[v' ts']|] eqn:Ef.
      * destruct (first_ready_moves _ _ _ _ Ef)
          as [before [t0 [after [ev [rest [E1 [E2 [E3 [E4 E5]]]]]]]]].
        assert (Hs : step st {| value := v'; tasks := ts' |}).
        { destruct st as [v ts]. cbn [value tasks] in *. subst.
          apply step_task with (ev := ev) (rest := rest); assumption. }
        apply step_remaining in Hs. rewrite E in Hs. lia.
      * rewrite (first_ready_none _ _ Ef t' Hin') in Hc. discriminate Hc.
    + apply IH.
      * apply reachable_step with (st := st); assumption.
      * apply step_remaining in Hs. lia.
Qed.

(** X18.  No scan hangs on its semaphores: scheduling the first task
    that can run, every probe has come to its end after as many rounds
    as the probes have events. *)
Theorem every_probe_comes_to_its_end :
  forall jobs n,
    list_sum (map (fun j => List.length (job_events j)) jobs) <= n ->
    let st := rounds n (start jobs) in
    reachable (start jobs) st
    /\ forallb finished (tasks st) = true
    /\ Forall2 (fun j t => done t = job_events j /\ todo t = [])
         jobs (tasks st).
Proof.
  intros jobs n Hn st.
  assert (Hreach : reachable (start jobs) st)
    by (apply rounds_reachable; apply reachable_start).
  assert (F : forallb finished (tasks st) = true).
  { apply (rounds_finish jobs); [apply reachable_start|].
    unfold remaining, start. cbn [tasks]. rewrite map_map. cbn [todo].
    exact Hn. }
  split; [exact Hreach|]. split; [exact F|].
  destruct (reachable_invariant jobs st Hreach) as [Hr _].
  exact (finished_in_done jobs st Hr F).
Qed.

(** X18 at a concrete input: the two sample probes, 64 rounds. *)
Lemma every_probe_comes_to_its_end_witness :
  forallb finished (tasks (rounds 64 (start sample_jobs))) = true.
Proof.
  exact (proj1 (proj2 (every_probe_comes_to_its_end sample_jobs 64
                         (proj1 (Nat.leb_le
                                   (list_sum
                                      (map (fun j =>
                                              List.length (job_events j))
                                           sample_jobs)) 64)
                                eq_refl)))).
Defined.

(** ** The candidates that are probed *)

Lemma schedule_checks_probed subdomains : forall s,
  probed (emitted (schedule_checks subdomains s))
  = filter (fun sub => negb (skipped sub)) subdomains.
Proof.
  induction subdomains as [|sub rest IH]; intro s;
    cbn [schedule_checks filter]; [reflexivity|].
  rewrite emitted_bind.
  destruct (skipped sub); cbn [negb].
  - cbn [ret result locals emitted app]. apply IH.
  - cbn [bind emit get set_tasks put ret result locals emitted app].
    cbn [probed flat_map app]. f_equal. apply IH.
Qed.

Lemma run_rapiddns_result_anywhere {S S'} rapiddns domain (s : S) (s' : S') :
  result (run_rapiddns rapiddns domain s)
  = result (run_rapiddns rapiddns domain s').
Proof. unfold run_rapiddns. rewrite !result_call. reflexivity. Qed.

Lemma enumerate_domains_probed rapiddns target_domains : forall s,
  existsb (tool_not_found rapiddns) target_domains = false ->
  probed (emitted (enumerate_domains rapiddns target_domains s))
  = flat_map
      (fun domain =>
         match result (run_rapiddns rapiddns domain tt) with
         | Val subdomains =>
             filter (fun sub => negb (skipped sub)) subdomains
         | Exc _ => []
         end)
      target_domains.
Proof.
  induction target_domains as [|domain rest IH]; intros s H;
    cbn [enumerate_domains flat_map]; [reflexivity|].
  cbn [existsb] in H. apply orb_false_iff in H. destruct H as [Hd Hrest].
  rewrite emitted_bind.
  destruct (run_rapiddns_spawned rapiddns domain s) as [_ Hp].
  cbv zeta in Hp.
  rewrite (run_rapiddns_result_anywhere rapiddns domain tt s).
  destruct (result (run_rapiddns rapiddns domain s)) as [subs|e] eqn:Hr.
  2: { destruct (run_rapiddns_returns rapiddns domain s Hd) as [subs K].
       rewrite K in Hr. discriminate Hr. }
  rewrite probed_app, Hp. cbn [app].
  rewrite emitted_bind.
  destruct subs as [|sub subs].
  - cbn [ret result locals emitted app filter]. apply IH. exact Hrest.
  - assert (R : result (schedule_checks (sub :: subs)
                          (locals (run_rapiddns rapiddns domain s)))
                = Val tt) by apply schedule_checks_returns.
    rewrite R, probed_app, schedule_checks_probed. f_equal.
    apply IH. exact Hrest.
Qed.

(** X19.  When the browser was launched and the tool is installed, a
    task is created for every name the tool found that passes the
    validation, once for each time it was found, domain by domain in the
    order of the input file, and for nothing else; none is created when
    the context managers cannot be entered. *)
Theorem every_valid_candidate_is_probed_once_in_order :
  forall aiohttp rapiddns w,
    succeeded (launch w) = true ->
    existsb (tool_not_found rapiddns) (target_domains_of w) = false ->
    probed (main_events aiohttp rapiddns w)
    = if succeeded (contexts w)
      then flat_map
             (fun domain =>
                match result (run_rapiddns rapiddns domain tt) with
                | Val subdomains =>
                    filter (fun sub => negb (skipped sub)) subdomains
                | Exc _ => []
                end)
             (target_domains_of w)
      else [].
Proof.
  intros aiohttp rapiddns w Hl Ht.
  destruct (main_launched_or_not w)
    as [[lines [d [ds [c [u [Hi [Hd [Hc Hu]]]]]]]]|N].
  - destruct (main_emitted_launched aiohttp rapiddns w lines d ds c u
                Hi Hd Hc Hu)
      as [opening [awaiting [E [He [Ho [Hm Ha]]]]]].
    rewrite E. clear E.
    unfold target_domains_of in *. rewrite Hi, Hd in *.
    rewrite Hc. cbn [succeeded].
    rewrite Ht in Hm. rewrite Hm in *.
    destruct (opening_events_spawn_nothing _ Ho) as [_ Po].
    rewrite !probed_app, Po, (enumerate_domains_probed rapiddns _ _ Ht).
    cbn [probed flat_map app].
    match goal with
    | |- ?l ++ ?x = ?l => replace x with (@nil string); [apply app_nil_r|]
    end.
    assert (Pa : probed awaiting = []).
    { destruct (probed _); [subst awaiting; reflexivity|].
      destruct Ha as [caught [-> [->|[m ->]]]]; reflexivity. }
    fold (probed awaiting). rewrite Pa.
    destruct (succeeded (browser_close w)); reflexivity.
  - destruct (main_emitted_not_launched aiohttp rapiddns w N) as [_ Hf].
    destruct (idle_events_spawn_nothing _ Hf) as [_ ->].
    destruct N as [->|[->|F]];
      [destruct (succeeded (contexts w)); reflexivity
      | reflexivity
      | rewrite F in Hl; discriminate Hl].
Qed.

(** X19 at a concrete input: four names found, two of them malformed. *)
Lemma every_valid_candidate_is_probed_once_in_order_witness :
  probed (main_events webhook_ok rapiddns_finds sample_world)
  = ["old.example.com"; "new.example.com"].
Proof.
  exact (every_valid_candidate_is_probed_once_in_order webhook_ok
           rapiddns_finds sample_world eq_refl eq_refl).
Defined.
